(** * OCI reference parsing and registry client of the dev-container CLI

    A shallow embedding of [src/spec-configuration/containerCollectionsOCI.ts]
    and proofs about reference parsing ([getRef]), manifest retrieval
    ([getManifest], [fetchOCIManifestIfExists]), platform selection
    ([getImageIndexEntryForPlatform]) and tag listing ([getPublishedVersions]).

    JavaScript strings are modelled by [string]: a sequence of code units in
    the range 0..255 (the Latin-1 part of UTF-16).  *)

From Stdlib Require Import ZArith NArith List Bool Ascii String Lia.
From Stdlib Require Import DecimalString.
From Stdlib Require Import Permutation Sorted.
Import ListNotations.

Local Open Scope string_scope.
Local Open Scope Z_scope.

(** ** JavaScript string and array primitives used by the source *)

Module JS.

(** Code unit of a character. *)
Definition code (c : ascii) : N := N_of_ascii c.

Definition in_range (lo hi : N) (c : ascii) : bool :=
  ((lo <=? code c) && (code c <=? hi))%N.

(** [String.prototype.toLowerCase] on one code unit of the Latin-1 range:
    A-Z and U+00C0..U+00DE (except the multiplication sign U+00D7) move up
    by 32; every other code unit below 256 is its own lower case. *)
Definition toLowerCase_char (c : ascii) : ascii :=
  if in_range 65 90 c || (in_range 192 222 c && negb (code c =? 215)%N)
  then ascii_of_N (code c + 32)
  else c.

Fixpoint toLowerCase (s : string) : string :=
  match s with
  | EmptyString => EmptyString
  | String c s' => String (toLowerCase_char c) (toLowerCase s')
  end.

Definition len (s : string) : Z := Z.of_nat (String.length s).

(** [s.indexOf(c)] for a one-character search string: the first index, or -1. *)
Fixpoint indexOf_from (s : string) (c : ascii) (i : Z) : Z :=
  match s with
  | EmptyString => -1
  | String d s' => if Ascii.eqb d c then i else indexOf_from s' c (i + 1)
  end.

Definition indexOf (s : string) (c : ascii) : Z := indexOf_from s c 0.

(** [s.lastIndexOf(c)] for a one-character search string: the last index, or -1. *)
Fixpoint lastIndexOf_from (s : string) (c : ascii) (i found : Z) : Z :=
  match s with
  | EmptyString => found
  | String d s' =>
      lastIndexOf_from s' c (i + 1) (if Ascii.eqb d c then i else found)
  end.

Definition lastIndexOf (s : string) (c : ascii) : Z :=
  lastIndexOf_from s c 0 (-1).

(** [s.substring(start, end)]: both indices are clamped to [0, length] and
    swapped when out of order; a missing [end] is the length. *)
Definition substring (s : string) (start : Z) (end_ : option Z) : string :=
  let clamp x := Z.min (Z.max x 0) (len s) in
  let a := clamp start in
  let b := match end_ with Some e => clamp e | None => len s end in
  let from := Z.min a b in
  let to := Z.max a b in
  String.substring (Z.to_nat from) (Z.to_nat (to - from)) s.

(** [s.split(c)] for a one-character separator; the result is never empty. *)
Fixpoint split (sep : ascii) (s : string) : list string :=
  match s with
  | EmptyString => [EmptyString]
  | String c s' =>
      if Ascii.eqb c sep then EmptyString :: split sep s'
      else match split sep s' with
           | h :: t => String c h :: t
           | [] => [String c EmptyString]
           end
  end.

(** [arr.join(sep)]. *)
Definition join (sep : string) (l : list string) : string := String.concat sep l.

(** [arr.slice(start, end)]: negative indices count from the end. *)
Definition slice {A : Type} (l : list A) (start end_ : Z) : list A :=
  let n := Z.of_nat (List.length l) in
  let rel x := if x <? 0 then Z.max (n + x) 0 else Z.min x n in
  let k := rel start in
  let fin := rel end_ in
  firstn (Z.to_nat (fin - k)) (skipn (Z.to_nat k) l).

(** Whether, and how often, a character occurs in a string. *)
Fixpoint occurs (c : ascii) (s : string) : bool :=
  match s with
  | EmptyString => false
  | String d s' => Ascii.eqb d c || occurs c s'
  end.

Fixpoint count (c : ascii) (s : string) : nat :=
  match s with
  | EmptyString => O
  | String d s' => ((if Ascii.eqb d c then 1 else 0) + count c s')%nat
  end.

(** [s.startsWith(p)]. *)
Definition startsWith (s p : string) : bool := String.prefix p s.

(** [arr.includes(x)] on an array of strings. *)
Definition includes (l : list string) (x : string) : bool :=
  existsb (String.eqb x) l.

(** Truthiness of a string: the empty string is falsy. *)
Definition truthy (s : string) : bool := negb (String.eqb s "").

(** Truthiness of a possibly undefined string. *)
Definition truthy_opt (o : option string) : bool :=
  match o with Some s => truthy s | None => false end.

(** [a || b] on possibly undefined strings. *)
Definition or_else (a b : option string) : option string :=
  if truthy_opt a then a else b.

(** [a || d] where the default [d] is a non-empty string. *)
Definition or_default (a : option string) (d : string) : string :=
  match or_else a (Some d) with Some s => s | None => d end.

(** A possibly undefined string inside a template literal. *)
Definition show (o : option string) : string :=
  match o with Some s => s | None => "undefined" end.

End JS.

(** ** Regular expressions

    The two patterns of the source are written as regular expressions and
    run by a derivative matcher.  Both patterns are anchored at both ends and
    carry no flag, so [test] is a match of the whole string. *)

Module Regex.

Inductive regex : Type :=
| Void                                  (* matches nothing *)
| Eps                                   (* matches the empty string *)
| Class (p : ascii -> bool)             (* one character of a class *)
| Seq (r1 r2 : regex)
| Alt (r1 r2 : regex)
| Star (r : regex)
| Upto (n : nat) (r : regex).           (* r{0,n} *)

Definition Plus (r : regex) : regex := Seq r (Star r).

Fixpoint nullable (r : regex) : bool :=
  match r with
  | Void => false
  | Eps => true
  | Class _ => false
  | Seq r1 r2 => nullable r1 && nullable r2
  | Alt r1 r2 => nullable r1 || nullable r2
  | Star _ => true
  | Upto _ _ => true
  end.

Definition seq (r1 r2 : regex) : regex :=
  match r1, r2 with
  | Void, _ => Void
  | _, Void => Void
  | Eps, _ => r2
  | _, Eps => r1
  | _, _ => Seq r1 r2
  end.

Definition alt (r1 r2 : regex) : regex :=
  match r1, r2 with
  | Void, _ => r2
  | _, Void => r1
  | _, _ => Alt r1 r2
  end.

Fixpoint deriv (c : ascii) (r : regex) : regex :=
  match r with
  | Void => Void
  | Eps => Void
  | Class p => if p c then Eps else Void
  | Seq r1 r2 =>
      alt (seq (deriv c r1) r2) (if nullable r1 then deriv c r2 else Void)
  | Alt r1 r2 => alt (deriv c r1) (deriv c r2)
  | Star r1 => seq (deriv c r1) (Star r1)
  | Upto O _ => Void
  | Upto (S n) r1 => seq (deriv c r1) (Upto n r1)
  end.

Fixpoint matches (r : regex) (s : string) : bool :=
  match s with
  | EmptyString => nullable r
  | String c s' => matches (deriv c r) s'
  end.

(** [re.test(s)] for a pattern of the form [^r$]. *)
Definition test (r : regex) (s : string) : bool := matches r s.

(** The strings a regular expression denotes. *)
Inductive Matches : regex -> string -> Prop :=
| MEps : Matches Eps ""
| MClass (p : ascii -> bool) (c : ascii) :
    p c = true -> Matches (Class p) (String c "")
| MSeq (r1 r2 : regex) (s1 s2 : string) :
    Matches r1 s1 -> Matches r2 s2 -> Matches (Seq r1 r2) (s1 ++ s2)
| MAltL (r1 r2 : regex) (s : string) : Matches r1 s -> Matches (Alt r1 r2) s
| MAltR (r1 r2 : regex) (s : string) : Matches r2 s -> Matches (Alt r1 r2) s
| MStarNil (r : regex) : Matches (Star r) ""
| MStarApp (r : regex) (s1 s2 : string) :
    Matches r s1 -> Matches (Star r) s2 -> Matches (Star r) (s1 ++ s2)
| MUptoNil (n : nat) (r : regex) : Matches (Upto n r) ""
| MUptoApp (n : nat) (r : regex) (s1 s2 : string) :
    Matches r s1 -> Matches (Upto n r) s2 -> Matches (Upto (S n) r) (s1 ++ s2).

(** Every character class of a pattern lies within the class [q]. *)
Fixpoint alphabet_within (q : ascii -> bool) (r : regex) : Prop :=
  match r with
  | Void | Eps => True
  | Class p => forall c, p c = true -> q c = true
  | Seq r1 r2 | Alt r1 r2 => alphabet_within q r1 /\ alphabet_within q r2
  | Star r1 | Upto _ r1 => alphabet_within q r1
  end.

End Regex.

Import Regex.

(** Character classes of the two patterns. *)
Definition lower_alnum (c : ascii) : bool :=            (* [a-z0-9] *)
  JS.in_range 97 122 c || JS.in_range 48 57 c.

Definition separator (c : ascii) : bool :=              (* [._-] *)
  Ascii.eqb c "." || Ascii.eqb c "_" || Ascii.eqb c "-".

Definition slash (c : ascii) : bool := Ascii.eqb c "/". (* \/ *)

Definition word_char (c : ascii) : bool :=              (* [a-zA-Z0-9_] *)
  JS.in_range 97 122 c || JS.in_range 65 90 c || JS.in_range 48 57 c
  || Ascii.eqb c "_".

Definition ref_char (c : ascii) : bool :=               (* [a-zA-Z0-9._-] *)
  JS.in_range 97 122 c || JS.in_range 65 90 c || JS.in_range 48 57 c
  || Ascii.eqb c "." || Ascii.eqb c "_" || Ascii.eqb c "-".

(** One path component: [a-z0-9]+ followed by any number of groups made of
    one separator of [._-] and [a-z0-9]+. *)
Definition pathComponent : regex :=
  Seq (Plus (Class lower_alnum))
      (Star (Seq (Class separator) (Plus (Class lower_alnum)))).

(** [regexForPath]: a path component followed by any number of groups made
    of a slash and a path component, anchored at both ends. *)
Definition regexForPath : regex :=
  Seq pathComponent (Star (Seq (Class slash) pathComponent)).

(** [regexForVersionOrDigest]: one character of [a-zA-Z0-9_] followed by at
    most 127 characters of [a-zA-Z0-9._-], anchored at both ends. *)
Definition regexForVersionOrDigest : regex :=
  Seq (Class word_char) (Upto 127 (Class ref_char)).

(** The source text of the patterns, as a template literal prints them. *)
Definition regexForPath_source : string :=
  "/^[a-z0-9]+([._-][a-z0-9]+)*" ++ "(\/[a-z0-9]+([._-][a-z0-9]+)*" ++ ")*" ++ "$/".
Definition regexForVersionOrDigest_source : string :=
  "/^[a-zA-Z0-9_][a-zA-Z0-9._-]{0,127}$/".

(** ** The run context: log sink, registry requests, exceptions

    [output.write] appends to a log and a request to the registry is recorded
    in [sent].  A computation returns, throws, or leaves the modelled fragment
    of JavaScript (JSON numbers that are not small integers, tag lists that
    are not arrays of strings). *)

Inductive LogLevel : Type := Trace | Info | Error.

Record LogEntry : Type := { text : string; level : LogLevel }.

Record HttpOptions : Type :=
  { type : string; url : string; headers : list (string * string) }.

Record World : Type := { output : list LogEntry; sent : list HttpOptions }.

Inductive Exception : Type :=
| SyntaxError (input : string)     (* [JSON.parse] rejects its input *)
| TypeError                        (* property or method of null/undefined *)
| Rejected (reason : string).      (* the awaited request rejects *)

Inductive Outcome (A : Type) : Type :=
| Returns (a : A) (w : World)
| Throws (e : Exception) (w : World)
| Unmodelled (w : World).
Arguments Returns {A} a w.
Arguments Throws {A} e w.
Arguments Unmodelled {A} w.

Definition M (A : Type) : Type := World -> Outcome A.

Definition ret {A : Type} (a : A) : M A := fun w => Returns a w.

Definition bind {A B : Type} (m : M A) (k : A -> M B) : M B :=
  fun w => match m w with
           | Returns a w' => k a w'
           | Throws e w' => Throws e w'
           | Unmodelled w' => Unmodelled w'
           end.

Definition throw {A : Type} (e : Exception) : M A := fun w => Throws e w.

Definition unmodelled {A : Type} : M A := fun w => Unmodelled w.

(** [try { m } catch (e) { handler e }] *)
Definition try_catch {A : Type} (m : M A) (handler : Exception -> M A) : M A :=
  fun w => match m w with
           | Throws e w' => handler e w'
           | o => o
           end.

Definition write (msg : string) (lvl : LogLevel) : M unit :=
  fun w => Returns tt {| output := output w ++ [{| text := msg; level := lvl |}];
                         sent := sent w |}.

Declare Scope js_scope.
Delimit Scope js_scope with js.
Notation "x <- m ;; k" := (bind m (fun x => k))
  (at level 61, m at next level, right associativity) : js_scope.
Notation "m ;; k" := (bind m (fun _ => k))
  (at level 61, right associativity) : js_scope.
Local Open Scope js_scope.

(** The value a computation returns, when it returns. *)
Definition result {A : Type} (m : M A) (w : World) : option A :=
  match m w with
  | Returns a _ => Some a
  | _ => None
  end.

(** The world a computation leaves behind. *)
Definition world_of {A : Type} (o : Outcome A) : World :=
  match o with
  | Returns _ w | Throws _ w | Unmodelled w => w
  end.

Definition emptyWorld : World := {| output := []; sent := [] |}.

(** ** References *)

Module OCIRef.
Record t : Type :=
  { registry : string;
    owner : option string;     (* [splitOnSlash[1]], undefined when absent *)
    namespace : string;
    path : string;
    resource : string;
    id : string;
    version : string;
    tag : option string;
    digest : option string }.
End OCIRef.

Module OCICollectionRef.
Record t : Type :=
  { registry : string;
    path : string;
    resource : string;
    tag : string;
    version : string }.
End OCICollectionRef.

(** [OCIRef | OCICollectionRef] *)
Inductive AnyRef : Type :=
| FeatureRef (r : OCIRef.t)
| CollectionRef (c : OCICollectionRef.t).

Definition ref_registry (r : AnyRef) : string :=
  match r with
  | FeatureRef r => OCIRef.registry r
  | CollectionRef c => OCICollectionRef.registry c
  end.
Definition ref_path (r : AnyRef) : string :=
  match r with
  | FeatureRef r => OCIRef.path r
  | CollectionRef c => OCICollectionRef.path c
  end.
Definition ref_resource (r : AnyRef) : string :=
  match r with
  | FeatureRef r => OCIRef.resource r
  | CollectionRef c => OCICollectionRef.resource c
  end.
Definition ref_version (r : AnyRef) : string :=
  match r with
  | FeatureRef r => OCIRef.version r
  | CollectionRef c => OCICollectionRef.version c
  end.

(** The first half of [getRef]: the version qualifier is cut off the
    lower-cased input.  [None] is an early [return]. *)
Definition getRef_qualifier (input : string)
  : M (option (string * option string * option string)) :=
  let indexOfLastColon := JS.lastIndexOf input ":" in
  let indexOfLastAtCharacter := JS.lastIndexOf input "@" in
  if negb (indexOfLastAtCharacter =? -1) then
    let resource := JS.substring input 0 (Some indexOfLastAtCharacter) in
    let digestWithHashingAlgorithm :=
      JS.substring input (indexOfLastAtCharacter + 1) None in
    let splitOnColon := JS.split ":" digestWithHashingAlgorithm in
    if negb (List.length splitOnColon =? 2)%nat then
      write ("Failed to parse digest '" ++ digestWithHashingAlgorithm
             ++ "'.   Expected format: 'sha256:abcdefghijk'") Error ;;
      ret None
    else if negb (String.eqb (nth 0 splitOnColon "") "sha256") then
      write ("Digest algorithm for input '" ++ input
             ++ "' failed validation.  Expected hashing algorithm to be 'sha256'.")
            Error ;;
      ret None
    else
      (if negb (test regexForVersionOrDigest (nth 1 splitOnColon "")) then
         write ("Digest for input '" ++ input
                ++ "' failed validation.  Expected digest to match regex '"
                ++ regexForVersionOrDigest_source ++ "'.") Error
       else ret tt) ;;
      ret (Some (resource, None, Some digestWithHashingAlgorithm))
  else if (indexOfLastColon =? -1)
          || (indexOfLastColon <? JS.lastIndexOf input "/") then
    ret (Some (input, Some "latest", None))
  else
    ret (Some (JS.substring input 0 (Some indexOfLastColon),
               Some (JS.substring input (indexOfLastColon + 1) None),
               None)).

Definition getRef (input : string) : M (option OCIRef.t) :=
  let input := JS.toLowerCase input in
  q <- getRef_qualifier input ;;
  match q with
  | None => ret None
  | Some (resource, tag, digest) =>
    if JS.truthy_opt tag && negb (test regexForVersionOrDigest (JS.show tag))
    then
      write ("Tag '" ++ JS.show tag ++ "' for input '" ++ input
             ++ "' failed validation.  Expected digest to match regex '"
             ++ regexForVersionOrDigest_source ++ "'.") Error ;;
      ret None
    else
      let splitOnSlash := JS.split "/" resource in
      let id := nth (List.length splitOnSlash - 1) splitOnSlash "" in
      let owner := nth_error splitOnSlash 1 in
      let registry := nth 0 splitOnSlash "" in
      let namespace := JS.join "/" (JS.slice splitOnSlash 1 (-1)) in
      let path := namespace ++ "/" ++ id in
      if negb (test regexForPath path) then
        write ("Path '" ++ path ++ "' for input '" ++ input
               ++ "' failed validation.  Expected path to match regex '"
               ++ regexForPath_source ++ "'.") Error ;;
        ret None
      else
        let version := JS.or_default (JS.or_else digest tag) "latest" in
        write ("> input: " ++ input) Trace ;;
        write ">" Trace ;;
        write ("> resource: " ++ resource) Trace ;;
        write ("> id: " ++ id) Trace ;;
        write ("> owner: " ++ JS.show owner) Trace ;;
        write ("> namespace: " ++ namespace) Trace ;;
        write ("> registry: " ++ registry) Trace ;;
        write ("> path: " ++ path) Trace ;;
        write ">" Trace ;;
        write ("> version: " ++ version) Trace ;;
        write ("> tag?: " ++ JS.show tag) Trace ;;
        write ("> digest?: " ++ JS.show digest) Trace ;;
        ret (Some {| OCIRef.id := id;
                     OCIRef.owner := owner;
                     OCIRef.namespace := namespace;
                     OCIRef.registry := registry;
                     OCIRef.resource := resource;
                     OCIRef.path := path;
                     OCIRef.version := version;
                     OCIRef.tag := tag;
                     OCIRef.digest := digest |})
  end.

(** [getCollectionRef]: the same path validation, pinned to 'latest'. *)
Definition getCollectionRef (registry namespace : string)
  : M (option OCICollectionRef.t) :=
  let registry := JS.toLowerCase registry in
  let namespace := JS.toLowerCase namespace in
  let path := namespace in
  let resource := registry ++ "/" ++ path in
  write ("> Inputs: registry='" ++ registry ++ "' namespace='" ++ namespace
         ++ "'") Trace ;;
  write ">" Trace ;;
  write ("> resource: " ++ resource) Trace ;;
  if negb (test regexForPath path) then
    write ("Parsed path '" ++ path ++ "' from input failed validation.") Error ;;
    ret None
  else
    ret (Some {| OCICollectionRef.registry := registry;
                 OCICollectionRef.path := path;
                 OCICollectionRef.resource := resource;
                 OCICollectionRef.version := "latest";
                 OCICollectionRef.tag := "latest" |}).

(** ** SHA-256 (FIPS 180-4), as [crypto.createHash('sha256')] computes it *)

Module SHA256.
Local Open Scope N_scope.

Definition mask32 : N := 0xffffffff.
Definition add32 (a b : N) : N := N.land (a + b) mask32.
Definition not32 (a : N) : N := N.lxor a mask32.
Definition rotr (n x : N) : N :=
  N.lor (N.shiftr x n) (N.land (N.shiftl x (32 - n)) mask32).

Definition Ch (x y z : N) : N := N.lxor (N.land x y) (N.land (not32 x) z).
Definition Maj (x y z : N) : N :=
  N.lxor (N.lxor (N.land x y) (N.land x z)) (N.land y z).
Definition Sigma0 (x : N) : N := N.lxor (N.lxor (rotr 2 x) (rotr 13 x)) (rotr 22 x).
Definition Sigma1 (x : N) : N := N.lxor (N.lxor (rotr 6 x) (rotr 11 x)) (rotr 25 x).
Definition sigma0 (x : N) : N := N.lxor (N.lxor (rotr 7 x) (rotr 18 x)) (N.shiftr x 3).
Definition sigma1 (x : N) : N := N.lxor (N.lxor (rotr 17 x) (rotr 19 x)) (N.shiftr x 10).

(** The largest [r] with [r ^ k <= n], found bit by bit below [2 ^ bits]. *)
Fixpoint root_bits (bits : nat) (k n acc : N) : N :=
  match bits with
  | O => acc
  | S b =>
      let candidate := acc + 2 ^ N.of_nat b in
      if candidate ^ k <=? n then root_bits b k n candidate
      else root_bits b k n acc
  end.

Definition is_prime (n : nat) : bool :=
  forallb (fun d => negb (Nat.eqb (Nat.modulo n d) 0)) (List.seq 2 (n - 2)).

(** The first 64 primes: 2 .. 311. *)
Definition primes : list N := map N.of_nat (filter is_prime (List.seq 2 310)).

(** The first 32 bits of the fractional part of the [k]-th root of [p]. *)
Definition fraction_of_root (k p : N) : N :=
  N.land (root_bits 40 k (N.shiftl p (32 * k)) 0) mask32.

(** Round constants: from the cube roots of the first 64 primes. *)
Definition K : list N := Eval vm_compute in map (fraction_of_root 3) primes.

(** Initial hash value: from the square roots of the first 8 primes. *)
Definition H0 : list N :=
  Eval vm_compute in map (fraction_of_root 2) (firstn 8 primes).

(** Big-endian bytes of a number, [n] of them. *)
Fixpoint be_bytes (n : nat) (x : N) : list N :=
  match n with
  | O => []
  | S n' => be_bytes n' (N.shiftr x 8) ++ [N.land x 0xff]
  end.

(** Padding: a 1 bit, zeros up to 56 modulo 64, the bit length on 8 bytes. *)
Definition pad (msg : list N) : list N :=
  let l := N.of_nat (List.length msg) in
  let zeros := (119 - l mod 64) mod 64 in
  msg ++ [0x80] ++ repeat 0 (N.to_nat zeros) ++ be_bytes 8 (8 * l).

Fixpoint words (fuel : nat) (bytes : list N) : list N :=
  match fuel, bytes with
  | S f, b0 :: b1 :: b2 :: b3 :: rest =>
      (N.shiftl b0 24 + N.shiftl b1 16 + N.shiftl b2 8 + b3) :: words f rest
  | _, _ => []
  end.

(** The message schedule; [recent] holds the words computed so far, last
    word first. *)
Fixpoint schedule (n : nat) (recent : list N) : list N :=
  match n with
  | O => rev recent
  | S n' =>
      let w := add32 (add32 (sigma1 (nth 1 recent 0)) (nth 6 recent 0))
                     (add32 (sigma0 (nth 14 recent 0)) (nth 15 recent 0)) in
      schedule n' (w :: recent)
  end.

Definition round (st : list N) (kw : N * N) : list N :=
  match st with
  | [a; b; c; d; e; f; g; h] =>
      let t1 := add32 (add32 (add32 h (Sigma1 e)) (add32 (Ch e f g) (fst kw)))
                      (snd kw) in
      let t2 := add32 (Sigma0 a) (Maj a b c) in
      [add32 t1 t2; a; b; c; add32 d t1; e; f; g]
  | _ => st
  end.

Definition compress (h : list N) (block : list N) : list N :=
  let w := schedule 48 (rev block) in
  let st := fold_left round (combine K w) h in
  map (fun p => add32 (fst p) (snd p)) (combine h st).

Fixpoint blocks (fuel : nat) (ws : list N) (h : list N) : list N :=
  match fuel, ws with
  | S f, _ :: _ => blocks f (skipn 16 ws) (compress h (firstn 16 ws))
  | _, _ => h
  end.

Definition digest (msg : list N) : list N :=
  let p := pad msg in
  let ws := words (List.length p) p in
  flat_map (be_bytes 4) (blocks (List.length ws) ws H0).

Definition hex_digit (d : N) : ascii :=
  if d <? 10 then ascii_of_N (48 + d) else ascii_of_N (87 + d).

Fixpoint hex (bytes : list N) : string :=
  match bytes with
  | [] => EmptyString
  | b :: rest => String (hex_digit (N.shiftr b 4))
                        (String (hex_digit (N.land b 0xf)) (hex rest))
  end.

(** UTF-8 encoding of a string whose code units are below 256. *)
Fixpoint utf8 (s : string) : list N :=
  match s with
  | EmptyString => []
  | String c s' =>
      let n := N_of_ascii c in
      if n <? 128 then n :: utf8 s'
      else N.lor 0xc0 (N.shiftr n 6) :: N.lor 0x80 (N.land n 0x3f) :: utf8 s'
  end.

(** [crypto.createHash('sha256').update(s).digest('hex')] *)
Definition sha256_hex (s : string) : string := hex (digest (utf8 s)).

End SHA256.

(** ** JSON

    [JSON.parse] and [JSON.stringify] on a fragment of JSON: objects, arrays,
    strings of code units below 256, the three literals, and integers whose
    magnitude is below 2^53 (written without fraction or exponent).  Anything
    else is reported as [OutsideFragment]. *)

Module JSON.

#[local] Set Warnings "-register-all".

Inductive value : Type :=
| Null
| Bool (b : bool)
| Number (n : Z)
| Str (s : string)
| Array (l : list value)
| Object (m : list (string * value)).   (* properties in enumeration order *)

Inductive parsed (A : Type) : Type :=
| Parsed (a : A)
| Malformed                             (* [JSON.parse] throws a SyntaxError *)
| OutsideFragment.
Arguments Parsed {A} a.
Arguments Malformed {A}.
Arguments OutsideFragment {A}.

Definition dquote : ascii := "034"%char.
Definition backslash : ascii := "092"%char.

(** A string literal written with ' in place of the double quote. *)
Fixpoint dq (s : string) : string :=
  match s with
  | EmptyString => EmptyString
  | String c s' => String (if Ascii.eqb c "'" then dquote else c) (dq s')
  end.

Definition is_ws (c : ascii) : bool :=
  Ascii.eqb c " " || Ascii.eqb c "009" || Ascii.eqb c "010" || Ascii.eqb c "013".

Definition is_digit (c : ascii) : bool := JS.in_range 48 57 c.

Fixpoint skip_ws (s : string) : string :=
  match s with
  | String c s' => if is_ws c then skip_ws s' else s
  | EmptyString => EmptyString
  end.

Definition digit_value (c : ascii) : Z := Z.of_N (JS.code c) - 48.

(** Reads the digits at the front of [s] after the value [acc]. *)
Fixpoint read_digits (s : string) (acc : Z) : Z * string :=
  match s with
  | String c s' =>
      if is_digit c then read_digits s' (10 * acc + digit_value c) else (acc, s)
  | EmptyString => (acc, s)
  end.

Definition max_safe_integer : Z := 9007199254740991.

(** A number with its sign already read. *)
Definition parse_unsigned (negative : bool) (s : string) : parsed (value * string) :=
  match s with
  | String c s' =>
      if negb (is_digit c) then Malformed
      else
        let '(n, rest) :=
          if Ascii.eqb c "0" then (0, s') else read_digits s' (digit_value c) in
        match rest with
        | String d _ =>
            if Ascii.eqb c "0" && is_digit d then Malformed
            else if Ascii.eqb d "." || Ascii.eqb d "e" || Ascii.eqb d "E"
            then OutsideFragment
            else if max_safe_integer <? n then OutsideFragment
            else Parsed (Number (if negative then - n else n), rest)
        | EmptyString =>
            if max_safe_integer <? n then OutsideFragment
            else Parsed (Number (if negative then - n else n), rest)
        end
  | EmptyString => Malformed
  end.

Definition hex_value (c : ascii) : option Z :=
  if is_digit c then Some (digit_value c)
  else if JS.in_range 97 102 c then Some (Z.of_N (JS.code c) - 87)
  else if JS.in_range 65 70 c then Some (Z.of_N (JS.code c) - 55)
  else None.

(** The characters of a string after its opening quote, up to the closing
    quote. *)
Fixpoint parse_string (s : string) : parsed (string * string) :=
  let cons c r :=
    match r with
    | Parsed (str, rest) => Parsed (String c str, rest)
    | other => other
    end in
  match s with
  | EmptyString => Malformed
  | String c s' =>
      if Ascii.eqb c dquote then Parsed (EmptyString, s')
      else if Ascii.eqb c backslash then
        match s' with
        | String e s'' =>
            if Ascii.eqb e dquote then cons dquote (parse_string s'')
            else if Ascii.eqb e backslash then cons backslash (parse_string s'')
            else if Ascii.eqb e "/" then cons "/"%char (parse_string s'')
            else if Ascii.eqb e "b" then cons "008"%char (parse_string s'')
            else if Ascii.eqb e "f" then cons "012"%char (parse_string s'')
            else if Ascii.eqb e "n" then cons "010"%char (parse_string s'')
            else if Ascii.eqb e "r" then cons "013"%char (parse_string s'')
            else if Ascii.eqb e "t" then cons "009"%char (parse_string s'')
            else if Ascii.eqb e "u" then
              match s'' with
              | String h1 (String h2 (String h3 (String h4 s4))) =>
                  match hex_value h1, hex_value h2, hex_value h3, hex_value h4 with
                  | Some a, Some b, Some c', Some d =>
                      let n := ((a * 16 + b) * 16 + c') * 16 + d in
                      if n <? 256
                      then cons (ascii_of_N (Z.to_N n)) (parse_string s4)
                      else OutsideFragment
                  | _, _, _, _ => Malformed
                  end
              | _ => Malformed
              end
            else Malformed
        | EmptyString => Malformed
        end
      else if (JS.code c <? 32)%N then Malformed
      else cons c (parse_string s')
  end.

(** An array index: the canonical decimal form of an integer below 2^32 - 1.
    Such property names are enumerated first, in ascending order. *)
Definition array_index (k : string) : option Z :=
  match k with
  | EmptyString => None
  | String c rest =>
      if negb (is_digit c) then None
      else if Ascii.eqb c "0" then
        match rest with EmptyString => Some 0 | _ => None end
      else
        match read_digits rest (digit_value c) with
        | (n, EmptyString) =>
            if (String.length k <=? 10)%nat && (n <? 4294967295) then Some n
            else None
        | _ => None
        end
  end.

Fixpoint has_key (k : string) (o : list (string * value)) : bool :=
  match o with
  | [] => false
  | (k', _) :: rest => String.eqb k k' || has_key k rest
  end.

Fixpoint replace_key (k : string) (v : value) (o : list (string * value))
  : list (string * value) :=
  match o with
  | [] => []
  | (k', v') :: rest =>
      if String.eqb k k' then (k', v) :: rest
      else (k', v') :: replace_key k v rest
  end.

Fixpoint insert_index (i : Z) (k : string) (v : value) (o : list (string * value))
  : list (string * value) :=
  match o with
  | [] => [(k, v)]
  | (k', v') :: rest =>
      match array_index k' with
      | Some j => if j <? i then (k', v') :: insert_index i k v rest
                  else (k, v) :: o
      | None => (k, v) :: o
      end
  end.

(** Defining property [k] of an object under construction: a repeated name
    keeps its place and takes the new value. *)
Definition define_property (k : string) (v : value) (o : list (string * value))
  : list (string * value) :=
  if has_key k o then replace_key k v o
  else match array_index k with
       | Some i => insert_index i k v o
       | None => o ++ [(k, v)]
       end.

Definition drop (n : nat) (s : string) : string :=
  String.substring n (String.length s - n) s.

Fixpoint parse_value (fuel : nat) (s : string) : parsed (value * string) :=
  match fuel with
  | O => OutsideFragment
  | S f =>
      match skip_ws s with
      | EmptyString => Malformed
      | String c rest =>
          if Ascii.eqb c "{" then
            match skip_ws rest with
            | String "}" rest' => Parsed (Object [], rest')
            | _ => parse_members f rest []
            end
          else if Ascii.eqb c "[" then
            match skip_ws rest with
            | String "]" rest' => Parsed (Array [], rest')
            | _ => parse_elements f rest []
            end
          else if Ascii.eqb c dquote then
            match parse_string rest with
            | Parsed (str, rest') => Parsed (Str str, rest')
            | Malformed => Malformed
            | OutsideFragment => OutsideFragment
            end
          else if Ascii.eqb c "-" then parse_unsigned true rest
          else if is_digit c then parse_unsigned false (String c rest)
          else if String.prefix "true" (String c rest)
          then Parsed (Bool true, drop 3 rest)
          else if String.prefix "false" (String c rest)
          then Parsed (Bool false, drop 4 rest)
          else if String.prefix "null" (String c rest)
          then Parsed (Null, drop 3 rest)
          else Malformed
      end
  end
with parse_elements (fuel : nat) (s : string) (acc : list value)
  : parsed (value * string) :=
  match fuel with
  | O => OutsideFragment
  | S f =>
      match parse_value f s with
      | Parsed (v, rest) =>
          match skip_ws rest with
          | String "," rest' => parse_elements f rest' (v :: acc)
          | String "]" rest' => Parsed (Array (rev (v :: acc)), rest')
          | _ => Malformed
          end
      | other => other
      end
  end
with parse_members (fuel : nat) (s : string) (acc : list (string * value))
  : parsed (value * string) :=
  match fuel with
  | O => OutsideFragment
  | S f =>
      match skip_ws s with
      | String q rest =>
          if negb (Ascii.eqb q dquote) then Malformed
          else
            match parse_string rest with
            | Parsed (k, rest1) =>
                match skip_ws rest1 with
                | String ":" rest2 =>
                    match parse_value f rest2 with
                    | Parsed (v, rest3) =>
                        let acc' := define_property k v acc in
                        match skip_ws rest3 with
                        | String "," rest4 => parse_members f rest4 acc'
                        | String "}" rest4 => Parsed (Object acc', rest4)
                        | _ => Malformed
                        end
                    | other => other
                    end
                | _ => Malformed
                end
            | Malformed => Malformed
            | OutsideFragment => OutsideFragment
            end
      | EmptyString => Malformed
      end
  end.

(** [JSON.parse(text)] *)
Definition parse (text : string) : parsed value :=
  match parse_value (2 * String.length text + 2) text with
  | Parsed (v, rest) =>
      match skip_ws rest with
      | EmptyString => Parsed v
      | _ => Malformed
      end
  | Malformed => Malformed
  | OutsideFragment => OutsideFragment
  end.


(** Decimal form of an integer. *)
Definition show_number (n : Z) : string := NilEmpty.string_of_int (Z.to_int n).

Definition newline : string := String "010" EmptyString.

(** Escapes of [QuoteJSONString] for code units below 256. *)
Definition escape_char (c : ascii) : string :=
  if Ascii.eqb c dquote then String backslash (String dquote EmptyString)
  else if Ascii.eqb c backslash then String backslash (String backslash EmptyString)
  else if Ascii.eqb c "008" then String backslash "b"
  else if Ascii.eqb c "009" then String backslash "t"
  else if Ascii.eqb c "010" then String backslash "n"
  else if Ascii.eqb c "012" then String backslash "f"
  else if Ascii.eqb c "013" then String backslash "r"
  else if (JS.code c <? 32)%N then
    String backslash
      ("u00" ++ String (SHA256.hex_digit (N.shiftr (JS.code c) 4))
                       (String (SHA256.hex_digit (N.land (JS.code c) 15))
                               EmptyString))
  else String c EmptyString.

Fixpoint escape (s : string) : string :=
  match s with
  | EmptyString => EmptyString
  | String c s' => escape_char c ++ escape s'
  end.

Definition quote (s : string) : string :=
  String dquote (escape s ++ String dquote EmptyString).

(** [JSON.stringify(v, undefined, gap)] at indentation [indent]; the empty
    [gap] gives the compact form. *)
Fixpoint serialize (gap indent : string) (v : value) {struct v} : string :=
  let wrap (opening closing : string) (partial : list string) : string :=
    match partial with
    | [] => opening ++ closing
    | _ =>
        if String.eqb gap "" then opening ++ JS.join "," partial ++ closing
        else opening ++ newline ++ (indent ++ gap)
             ++ JS.join ("," ++ newline ++ (indent ++ gap)) partial
             ++ newline ++ indent ++ closing
    end in
  match v with
  | Null => "null"
  | Bool true => "true"
  | Bool false => "false"
  | Number n => show_number n
  | Str s => quote s
  | Array l => wrap "[" "]" (map (serialize gap (indent ++ gap)) l)
  | Object m =>
      wrap "{" "}"
           (map (fun kv => match kv with
                           | (k, x) => quote k ++ ":"
                                       ++ (if String.eqb gap "" then "" else " ")
                                       ++ serialize gap (indent ++ gap) x
                           end) m)
  end.

(** [JSON.stringify(v)] *)
Definition stringify (v : value) : string := serialize "" "" v.

(** [JSON.stringify(v, undefined, 4)] *)
Definition stringify_indent4 (v : value) : string := serialize "    " "" v.

(** Truthiness of a parsed value. *)
Definition truthy (v : value) : bool :=
  match v with
  | Null => false
  | Bool b => b
  | Number n => negb (n =? 0)
  | Str s => JS.truthy s
  | Array _ | Object _ => true
  end.

Fixpoint lookup (k : string) (o : list (string * value)) : option value :=
  match o with
  | [] => None
  | (k', v) :: rest => if String.eqb k k' then Some v else lookup k rest
  end.

(** [String(v)], as a template literal prints a value; [None] is undefined. *)
Fixpoint toString (v : value) : string :=
  match v with
  | Null => "null"
  | Bool true => "true"
  | Bool false => "false"
  | Number n => show_number n
  | Str s => s
  | Array l =>
      JS.join "," (map (fun x => match x with Null => "" | _ => toString x end) l)
  | Object _ => "[object Object]"
  end.

Definition show (v : option value) : string :=
  match v with Some x => toString x | None => "undefined" end.

End JSON.

(** ** The [semver] comparator and [Array.prototype.sort] *)

Module Semver.

(** [/^[0-9]+$/] *)
Definition numeric : regex := Plus (Class JSON.is_digit).

(** The Number a string of decimal digits converts to ([+a]): the nearest
    double, ties to even; a value too large for a double is Infinity,
    represented by 2^1024. *)
Definition to_double (n : Z) : Z :=
  if n <? 2 ^ 53 then n
  else
    let e := Z.log2 n - 52 in
    let q := n / 2 ^ e in
    let r := n mod 2 ^ e in
    let half := 2 ^ (e - 1) in
    let q' := if (half <? r) || ((r =? half) && Z.odd q) then q + 1 else q in
    Z.min (q' * 2 ^ e) (2 ^ 1024).

Definition toNumber (digits : string) : Z :=
  to_double (fst (JSON.read_digits digits 0)).

(** [a < b] on strings: code unit by code unit. *)
Fixpoint string_lt (a b : string) : bool :=
  match a, b with
  | _, EmptyString => false
  | EmptyString, String _ _ => true
  | String c a', String d b' =>
      if (JS.code c <? JS.code d)%N then true
      else if (JS.code d <? JS.code c)%N then false
      else string_lt a' b'
  end.

(** [semver.compareIdentifiers(a, b)] *)
Definition compareIdentifiers (a b : string) : Z :=
  let anum := test numeric a in
  let bnum := test numeric b in
  if anum && bnum then
    let a := toNumber a in
    let b := toNumber b in
    if a =? b then 0 else if a <? b then -1 else 1
  else
    if String.eqb a b then 0
    else if anum && negb bnum then -1
    else if bnum && negb anum then 1
    else if string_lt a b then -1 else 1.

End Semver.

(** [arr.sort(cmp)]: the sort is stable, so for a comparator that is a total
    preorder the result is fixed; insertion from the right computes it. *)
Fixpoint sort_insert {A : Type} (cmp : A -> A -> Z) (x : A) (l : list A) : list A :=
  match l with
  | [] => [x]
  | y :: l' => if 0 <? cmp x y then y :: sort_insert cmp x l' else x :: y :: l'
  end.

Fixpoint sort {A : Type} (cmp : A -> A -> Z) (l : list A) : list A :=
  match l with
  | [] => []
  | x :: l' => sort_insert cmp x (sort cmp l')
  end.

(** ** The registry client *)

Definition DEVCONTAINER_MANIFEST_MEDIATYPE : string := "application/vnd.devcontainers".

Record HttpResponse : Type :=
  { resBody : string;            (* the text of the body: [resBody.toString()] *)
    statusCode : Z;
    resHeaders : list (string * string) }.

(** What awaiting [requestEnsureAuthenticated] gives. *)
Inductive Answer : Type :=
| Responds (r : HttpResponse)
| NoResponse                     (* resolves to undefined *)
| Fails (reason : string).       (* rejects *)

Record ManifestContainer : Type :=
  { manifestObj : JSON.value;
    manifestStr : string;
    contentDigest : string;
    canonicalId : string }.

Record PlatformInfo : Type := { arch : string; os : string }.

Definition mapNodeArchitectureToGOARCH (arch : string) : string :=
  if String.eqb arch "x64" then "amd64" else arch.

Definition mapNodeOSToGOOS (os : string) : string :=
  if String.eqb os "win32" then "windows" else os.

(** [headers[name]] *)
Fixpoint header (name : string) (hs : list (string * string)) : option string :=
  match hs with
  | [] => None
  | (k, v) :: rest => if String.eqb name k then Some v else header name rest
  end.

(** [v.k] for a property name [k] that neither [Object.prototype] nor any
    array, string, number or boolean defines (the case for every name the
    source reads): the own property of an object, undefined on other values,
    a TypeError on null and undefined. *)
Definition get (v : option JSON.value) (k : string) : M (option JSON.value) :=
  match v with
  | None | Some JSON.Null => throw TypeError
  | Some (JSON.Object m) => ret (JSON.lookup k m)
  | Some _ => ret None
  end.

(** [v?.k] *)
Definition get_optional (v : option JSON.value) (k : string) : M (option JSON.value) :=
  match v with
  | None | Some JSON.Null => ret None
  | _ => get v k
  end.

(** [v === s] for a string [s]. *)
Definition strict_eq (v : option JSON.value) (s : string) : bool :=
  match v with
  | Some (JSON.Str x) => String.eqb x s
  | _ => false
  end.

(** The strings of an array, when every element is a string. *)
Fixpoint strings_of (l : list JSON.value) : option (list string) :=
  match l with
  | [] => Some []
  | JSON.Str s :: rest => option_map (cons s) (strings_of rest)
  | _ :: _ => None
  end.

Section RegistryClient.

(** The registry, as [requestEnsureAuthenticated] reaches it, and the text
    the engine prints for a caught exception. *)
Variable requestEnsureAuthenticated : HttpOptions -> AnyRef -> Answer.
Variable describe : Exception -> string.

Definition request (httpOptions : HttpOptions) (ref : AnyRef)
  : M (option HttpResponse) :=
  fun w =>
    let w' := {| output := output w; sent := sent w ++ [httpOptions] |} in
    match requestEnsureAuthenticated httpOptions ref with
    | Responds r => Returns (Some r) w'
    | NoResponse => Returns None w'
    | Fails reason => Throws (Rejected reason) w'
    end.

(** [JSON.parse(text)], throwing on malformed text. *)
Definition JSON_parse (text : string) : M JSON.value :=
  match JSON.parse text with
  | JSON.Parsed v => ret v
  | JSON.Malformed => throw (SyntaxError text)
  | JSON.OutsideFragment => unmodelled
  end.

(** The variable [body] as the [catch] block of [getJsonWithMimeType] sees
    it: still empty unless [JSON.parse] threw. *)
Definition body_at_catch (e : Exception) : string :=
  match e with
  | SyntaxError text => text
  | _ => ""
  end.

Definition getJsonWithMimeType (url : string) (ref : AnyRef) (mimeType : string)
  : M (option (JSON.value * list (string * string))) :=
  try_catch
    (let headers := [("user-agent", "devcontainer"); ("accept", mimeType)] in
     let httpOptions := {| type := "GET"; url := url; headers := headers |} in
     res <- request httpOptions ref ;;
     match res with
     | None => write "Request failed" Error ;; ret None
     | Some res =>
         let body := resBody res in
         if 299 <? statusCode res then
           write ("Did not fetch target with expected mimetype '" ++ mimeType
                  ++ "': " ++ body) Trace ;;
           ret None
         else
           parsedBody <- JSON_parse body ;;
           write ("Fetched: " ++ JSON.stringify_indent4 parsedBody) Trace ;;
           ret (Some (parsedBody, resHeaders res))
     end)
    (fun e =>
       write ("Failed to parse JSON with mimeType '" ++ mimeType ++ "': "
              ++ body_at_catch e) Error ;;
       ret None).

Definition getManifest (url : string) (ref : AnyRef) (mimeType : option string)
  : M (option ManifestContainer) :=
  res <- getJsonWithMimeType url ref
           (JS.or_default mimeType "application/vnd.oci.image.manifest.v1+json") ;;
  match res with
  | None => ret None
  | Some (body, headers) =>
      let manifestStringified := JSON.stringify body in
      let contentDigest :=
        JS.or_else (header "docker-content-digest" headers)
                   (header "Docker-Content-Digest" headers) in
      let contentDigest :=
        if negb (JS.truthy_opt contentDigest)
        then "sha256:" ++ SHA256.sha256_hex manifestStringified
        else JS.show contentDigest in
      ret (Some {| contentDigest := contentDigest;
                   manifestObj := body;
                   manifestStr := manifestStringified;
                   canonicalId := ref_resource ref ++ "@" ++ contentDigest |})
  end.

Definition fetchOCIManifestIfExists (ref : AnyRef) (manifestDigest : option string)
  : M (option ManifestContainer) :=
  if (JS.indexOf (ref_registry ref) "." <? 0)
     && negb (JS.startsWith (ref_registry ref) "localhost") then
    write ("ERR: Registry '" ++ ref_registry ref
           ++ "' is not a valid domain name or IP address.") Error ;;
    ret None
  else
    let reference :=
      if JS.truthy_opt manifestDigest then JS.show manifestDigest
      else ref_version ref in
    let manifestUrl :=
      "https://" ++ ref_registry ref ++ "/v2/" ++ ref_path ref
      ++ "/manifests/" ++ reference in
    write ("manifest url: " ++ manifestUrl) Trace ;;
    manifestContainer <- getManifest manifestUrl ref None ;;
    match manifestContainer with
    | None => ret None
    | Some container =>
        if negb (JSON.truthy (manifestObj container)) then ret None
        else
          config <- get (Some (manifestObj container)) "config" ;;
          mediaType <- get config "mediaType" ;;
          if negb (strict_eq mediaType DEVCONTAINER_MANIFEST_MEDIATYPE) then
            write ("(!) Unexpected manifest media type: " ++ JSON.show mediaType)
                  Error ;;
            ret None
          else ret (Some container)
    end.

(** [manifests.find(m => ...)] of [getImageIndexEntryForPlatform]. *)
Fixpoint find_platform (wanted : PlatformInfo) (manifests : list JSON.value)
  : M (option JSON.value) :=
  match manifests with
  | [] => ret None
  | m :: rest =>
      platform <- get (Some m) "platform" ;;
      architecture <- get_optional platform "architecture" ;;
      os' <- get_optional platform "os" ;;
      if strict_eq architecture (arch wanted) && strict_eq os' (os wanted)
      then ret (Some m)
      else find_platform wanted rest
  end.

Definition getImageIndexEntryForPlatform (url : string) (ref : AnyRef)
    (platformInfo : PlatformInfo) (mimeType : option string)
  : M (option JSON.value) :=
  response <- getJsonWithMimeType url ref
                (JS.or_default mimeType "application/vnd.oci.image.index.v1+json") ;;
  match response with
  | None => ret None
  | Some (imageIndex, _) =>
      if negb (JSON.truthy imageIndex) then
        write "Unwrapped response for image index is undefined." Error ;;
        ret None
      else
        let ociFriendlyPlatformInfo :=
          {| arch := mapNodeArchitectureToGOARCH (arch platformInfo);
             os := mapNodeOSToGOOS (os platformInfo) |} in
        manifests <- get (Some imageIndex) "manifests" ;;
        match manifests with
        | Some (JSON.Array l) => find_platform ociFriendlyPlatformInfo l
        | _ => throw TypeError
        end
  end.

(** [sorted] is an optional parameter: [false] when omitted. *)
Definition getPublishedVersions (ref : OCIRef.t) (sorted : option bool)
  : M (option (list string)) :=
  let sorted := match sorted with Some b => b | None => false end in
  try_catch
    (let url := "https://" ++ OCIRef.registry ref ++ "/v2/" ++ OCIRef.namespace ref
                ++ "/" ++ OCIRef.id ref ++ "/tags/list" in
     let headers := [("Accept", "application/json")] in
     let httpOptions := {| type := "GET"; url := url; headers := headers |} in
     res <- request httpOptions (FeatureRef ref) ;;
     match res with
     | None => write "Request failed" Error ;; ret None
     | Some res =>
         let body := resBody res in
         if statusCode res =? 404 then ret (Some [])
         else if 299 <? statusCode res then
           write ("(!) ERR: Could not fetch published tags for '"
                  ++ OCIRef.namespace ref ++ "/" ++ OCIRef.id ref ++ "' : "
                  ++ body ++ " ") Error ;;
           ret None
         else
           publishedVersionsResponse <- JSON_parse body ;;
           tags <- get (Some publishedVersionsResponse) "tags" ;;
           if negb sorted then
             match tags with
             | None => ret None
             | Some (JSON.Array l) =>
                 match strings_of l with
                 | Some tags => ret (Some tags)
                 | None => unmodelled
                 end
             | Some _ => unmodelled
             end
           else
             match tags with
             | Some (JSON.Array l) =>
                 match strings_of l with
                 | Some tags =>
                     let hasLatest := JS.includes tags "latest" in
                     let sortedVersions :=
                       sort Semver.compareIdentifiers
                            (filter (fun f => negb (String.eqb f "latest")) tags) in
                     ret (Some (if hasLatest then "latest" :: sortedVersions
                                else sortedVersions))
                 | None => unmodelled
                 end
             | _ => throw TypeError
             end
     end)
    (fun e =>
       write ("Failed to parse published versions: " ++ describe e) Error ;;
       ret None).

End RegistryClient.

(** ** Views of the code used in the statements *)

(** The resource [getRef] cuts out of its lower-cased input: what precedes
    the version qualifier. *)
Definition resource_part (input : string) : string :=
  let indexOfLastColon := JS.lastIndexOf input ":" in
  let indexOfLastAtCharacter := JS.lastIndexOf input "@" in
  if negb (indexOfLastAtCharacter =? -1) then
    JS.substring input 0 (Some indexOfLastAtCharacter)
  else if (indexOfLastColon =? -1)
          || (indexOfLastColon <? JS.lastIndexOf input "/") then input
  else JS.substring input 0 (Some indexOfLastColon).

(** What follows the last '@' of the lower-cased input. *)
Definition digest_part (input : string) : string :=
  JS.substring input (JS.lastIndexOf input "@" + 1) None.

(** The automaton of [regexForPath]: at the start of a component, inside
    one, or just after a separator. *)
Inductive PathState : Type := ComponentStart | InComponent | AfterSeparator.

Definition path_step (st : PathState) (c : ascii) : option PathState :=
  match st with
  | ComponentStart | AfterSeparator =>
      if lower_alnum c then Some InComponent else None
  | InComponent =>
      if lower_alnum c then Some InComponent
      else if separator c then Some AfterSeparator
      else if slash c then Some ComponentStart
      else None
  end.

Fixpoint path_run (st : PathState) (s : string) : option PathState :=
  match s with
  | EmptyString => Some st
  | String c s' =>
      match path_step st c with
      | Some st' => path_run st' s'
      | None => None
      end
  end.

Definition path_accepts (st : PathState) (s : string) : bool :=
  match path_run st s with
  | Some InComponent => true
  | _ => false
  end.

Definition path_regex (st : PathState) : regex :=
  match st with
  | ComponentStart => regexForPath
  | InComponent => deriv "a" regexForPath
  | AfterSeparator => deriv "." (deriv "a" regexForPath)
  end.

(** The tag list a response body carries, when it is a JSON object whose
    [tags] is an array of strings. *)
Definition tag_list (body : string) : option (list string) :=
  match JSON.parse body with
  | JSON.Parsed (JSON.Object m) =>
      match JSON.lookup "tags" m with
      | Some (JSON.Array l) => strings_of l
      | _ => None
      end
  | _ => None
  end.

(** The entries of the image index a response body carries. *)
Definition index_entries (body : string) : option (list JSON.value) :=
  match JSON.parse body with
  | JSON.Parsed (JSON.Object m) =>
      match JSON.lookup "manifests" m with
      | Some (JSON.Array l) => Some l
      | _ => None
      end
  | _ => None
  end.

(** [m.platform?.k] *)
Definition platform_field (m : JSON.value) (k : string) : option JSON.value :=
  match m with
  | JSON.Object o =>
      match JSON.lookup "platform" o with
      | Some (JSON.Object p) => JSON.lookup k p
      | _ => None
      end
  | _ => None
  end.

(** The test of the [find] callback of [getImageIndexEntryForPlatform]. *)
Definition platform_matches (wanted : PlatformInfo) (m : JSON.value) : bool :=
  strict_eq (platform_field m "architecture") (arch wanted)
  && strict_eq (platform_field m "os") (os wanted).

Definition is_null (v : JSON.value) : bool :=
  match v with JSON.Null => true | _ => false end.

(** The request [getPublishedVersions] sends for a reference. *)
Definition tags_request (ref : OCIRef.t) : HttpOptions :=
  {| type := "GET";
     url := "https://" ++ OCIRef.registry ref ++ "/v2/" ++ OCIRef.namespace ref
            ++ "/" ++ OCIRef.id ref ++ "/tags/list";
     headers := [("Accept", "application/json")] |}.

(** The request [getJsonWithMimeType] sends. *)
Definition json_request (url mimeType : string) : HttpOptions :=
  {| type := "GET"; url := url;
     headers := [("user-agent", "devcontainer"); ("accept", mimeType)] |}.

(** The URL [fetchOCIManifestIfExists] asks for. *)
Definition manifest_url (ref : AnyRef) (manifestDigest : option string) : string :=
  "https://" ++ ref_registry ref ++ "/v2/" ++ ref_path ref ++ "/manifests/"
  ++ (if JS.truthy_opt manifestDigest then JS.show manifestDigest
      else ref_version ref).

(** The optional parameter [sorted] with its default. *)
Definition effective (sorted : option bool) : bool :=
  match sorted with Some b => b | None => false end.

(** The tags [getPublishedVersions] returns when asked to sort. *)
Definition latest_first (tags : list string) : list string :=
  let sortedVersions :=
    sort Semver.compareIdentifiers
         (filter (fun f => negb (String.eqb f "latest")) tags) in
  if JS.includes tags "latest" then "latest" :: sortedVersions else sortedVersions.

(** The characters of a path component: [a-z0-9._-]. *)
Definition component_char (c : ascii) : bool := lower_alnum c || separator c.

(** Every character of a string is of a class. *)
Fixpoint all_chars (p : ascii -> bool) (s : string) : bool :=
  match s with
  | EmptyString => true
  | String c s' => p c && all_chars p s'
  end.

(** The values [getRef] computes, without the log. *)
Definition qualifier (input : string)
  : option (string * option string * option string) :=
  let indexOfLastColon := JS.lastIndexOf input ":" in
  let indexOfLastAtCharacter := JS.lastIndexOf input "@" in
  if negb (indexOfLastAtCharacter =? -1) then
    let resource := JS.substring input 0 (Some indexOfLastAtCharacter) in
    let digestWithHashingAlgorithm :=
      JS.substring input (indexOfLastAtCharacter + 1) None in
    let splitOnColon := JS.split ":" digestWithHashingAlgorithm in
    if negb (List.length splitOnColon =? 2)%nat then None
    else if negb (String.eqb (nth 0 splitOnColon "") "sha256") then None
    else Some (resource, None, Some digestWithHashingAlgorithm)
  else if (indexOfLastColon =? -1)
          || (indexOfLastColon <? JS.lastIndexOf input "/") then
    Some (input, Some "latest", None)
  else
    Some (JS.substring input 0 (Some indexOfLastColon),
          Some (JS.substring input (indexOfLastColon + 1) None),
          None).

Definition ref_of (resource : string) (tag digest : option string)
  : option OCIRef.t :=
  if JS.truthy_opt tag && negb (test regexForVersionOrDigest (JS.show tag))
  then None
  else
    let splitOnSlash := JS.split "/" resource in
    let id := nth (List.length splitOnSlash - 1) splitOnSlash "" in
    let namespace := JS.join "/" (JS.slice splitOnSlash 1 (-1)) in
    let path := namespace ++ "/" ++ id in
    if negb (test regexForPath path) then None
    else Some {| OCIRef.id := id;
                 OCIRef.owner := nth_error splitOnSlash 1;
                 OCIRef.namespace := namespace;
                 OCIRef.registry := nth 0 splitOnSlash "";
                 OCIRef.resource := resource;
                 OCIRef.path := path;
                 OCIRef.version := JS.or_default (JS.or_else digest tag) "latest";
                 OCIRef.tag := tag;
                 OCIRef.digest := digest |}.

Definition getRef_value (input : string) : option OCIRef.t :=
  match qualifier (JS.toLowerCase input) with
  | None => None
  | Some (resource, tag, digest) => ref_of resource tag digest
  end.

(** What [getPublishedVersions] makes of a parsed body: [None] is a body
    outside the modelled fragment, [Some None] is undefined (also after a
    caught TypeError). *)
Definition tags_outcome (sorted : bool) (v : JSON.value)
  : option (option (list string)) :=
  match v with
  | JSON.Null => Some None
  | JSON.Object o =>
      match JSON.lookup "tags" o with
      | Some (JSON.Array l) =>
          option_map (fun tags => Some (if sorted then latest_first tags else tags))
                     (strings_of l)
      | None => Some None
      | Some _ => if sorted then Some None else None
      end
  | _ => Some None
  end.

(** ** Sample data *)

Definition sample_ref : OCIRef.t :=
  {| OCIRef.registry := "ghcr.io";
     OCIRef.owner := Some "org";
     OCIRef.namespace := "org";
     OCIRef.path := "org/feat";
     OCIRef.resource := "ghcr.io/org/feat";
     OCIRef.id := "feat";
     OCIRef.version := "latest";
     OCIRef.tag := Some "latest";
     OCIRef.digest := None |}.

Definition local_ref : OCIRef.t :=
  {| OCIRef.registry := "localhost:5000";
     OCIRef.owner := Some "org";
     OCIRef.namespace := "org";
     OCIRef.path := "org/feat";
     OCIRef.resource := "localhost:5000/org/feat";
     OCIRef.id := "feat";
     OCIRef.version := "latest";
     OCIRef.tag := Some "latest";
     OCIRef.digest := None |}.

Definition bare_ref : OCIRef.t :=
  {| OCIRef.registry := "myregistry";
     OCIRef.owner := Some "org";
     OCIRef.namespace := "org";
     OCIRef.path := "org/feat";
     OCIRef.resource := "myregistry/org/feat";
     OCIRef.id := "feat";
     OCIRef.version := "latest";
     OCIRef.tag := Some "latest";
     OCIRef.digest := None |}.

(** A registry that answers every request alike. *)
Definition answering (status : Z) (body : string) (hs : list (string * string))
  : HttpOptions -> AnyRef -> Answer :=
  fun _ _ => Responds {| resBody := body; statusCode := status; resHeaders := hs |}.

Definition silent : HttpOptions -> AnyRef -> Answer := fun _ _ => NoResponse.

Definition plain_describe (e : Exception) : string :=
  match e with
  | SyntaxError _ => "SyntaxError"
  | TypeError => "TypeError"
  | Rejected reason => reason
  end.

(** ** Further views of the code *)

(** A code unit that [toLowerCase] leaves alone, and a string made of such. *)
Definition lowercase_char (c : ascii) : bool :=
  Ascii.eqb (JS.toLowerCase_char c) c.

Definition lowercase (s : string) : bool := all_chars lowercase_char s.

(** The entries [getRef] may add to the log when it gives up. *)
Definition is_error (e : LogEntry) : bool :=
  match level e with Error => true | _ => false end.

(** The array under [manifests] of a parsed image index, if there is one. *)
Definition manifests_of (v : JSON.value) : option (list JSON.value) :=
  match v with
  | JSON.Object o =>
      match JSON.lookup "manifests" o with
      | Some (JSON.Array l) => Some l
      | _ => None
      end
  | _ => None
  end.

(** [manifestObj.config.mediaType] of a parsed manifest, when both property
    reads find an object. *)
Definition config_mediaType (v : JSON.value) : option JSON.value :=
  match v with
  | JSON.Object o =>
      match JSON.lookup "config" o with
      | Some (JSON.Object c) => JSON.lookup "mediaType" c
      | _ => None
      end
  | _ => None
  end.

(** What [getJsonWithMimeType] makes of the registry's answer. *)
Definition json_outcome (a : Answer)
  : option (option (JSON.value * list (string * string))) :=
  match a with
  | Responds r =>
      if 299 <? statusCode r then Some None
      else match JSON.parse (resBody r) with
           | JSON.Parsed v => Some (Some (v, resHeaders r))
           | JSON.Malformed => Some None
           | JSON.OutsideFragment => None
           end
  | NoResponse | Fails _ => Some None
  end.

(** The content digest [getManifest] settles on. *)
Definition digest_of (hs : list (string * string)) (v : JSON.value) : string :=
  let d := JS.or_else (header "docker-content-digest" hs)
                      (header "Docker-Content-Digest" hs) in
  if negb (JS.truthy_opt d) then "sha256:" ++ SHA256.sha256_hex (JSON.stringify v)
  else JS.show d.

(** ** Blob extraction: the callback [getBlob] hands to [tar.x] *)

(** [s.indexOf(f)] for a search string of any length: the first index at
    which [f] starts, or -1. *)
Fixpoint indexOf_string_from (s f : string) (i : Z) : Z :=
  if String.prefix f s then i
  else match s with
       | EmptyString => -1
       | String _ s' => indexOf_string_from s' f (i + 1)
       end.

Definition indexOf_string (s f : string) : Z := indexOf_string_from s f 0.

(** What the callback reads of a [tar.FileStat]: [stat.type.toString()]. *)
Record FileStat : Type := { stat_type : string }.

(** [ignoredFilesDuringExtraction.some(f => path.indexOf(f) !== -1)] *)
Definition ignored_path (ignoredFilesDuringExtraction : list string) (path : string)
  : bool :=
  existsb (fun f => negb (indexOf_string path f =? -1)) ignoredFilesDuringExtraction.

(** The [filter] of the first [tar.x] of [getBlob].  [files] is the array
    of the enclosing call, which the callback appends to; it is passed in
    and handed back beside the answer. *)
Definition getBlob_filter (ignoredFilesDuringExtraction : list string)
    (path : string) (stat : FileStat) (files : list string)
  : M (bool * list string) :=
  if ignored_path ignoredFilesDuringExtraction path then
    write ("Skipping file '" ++ path ++ "' during blob extraction") Trace ;;
    ret (false, files)
  else
    write (path ++ " : " ++ stat_type stat) Trace ;;
    if String.eqb (stat_type stat) "File" then ret (true, files ++ [path])%list
    else ret (true, files).

(** The callback called on one archive entry after the other, on the same
    array. *)
Fixpoint getBlob_filter_calls (ignoredFilesDuringExtraction : list string)
    (entries : list (string * FileStat)) (files : list string)
  : M (list bool * list string) :=
  match entries with
  | [] => ret ([], files)
  | (path, stat) :: rest =>
      r <- getBlob_filter ignoredFilesDuringExtraction path stat files ;;
      rs <- getBlob_filter_calls ignoredFilesDuringExtraction rest (snd r) ;;
      ret (fst r :: fst rs, snd rs)
  end.

(** [f] occurs in [s] as a run of consecutive characters. *)
Definition contains (s f : string) : Prop := exists pre post, s = pre ++ f ++ post.

(** The entries the callback lets through and records: files that no
    ignored string occurs in. *)
Definition recorded (ignoredFilesDuringExtraction : list string)
    (e : string * FileStat) : bool :=
  negb (ignored_path ignoredFilesDuringExtraction (fst e))
  && String.eqb (stat_type (snd e)) "File".

(** ** The box drawn around a feature by [features info dependsOn]

    The box glyphs lie outside Latin-1, so a string is here the list of its
    UTF-16 code units; [length], [split], [repeat] and [padEnd] count code
    units. *)

Module Wide.

Definition t : Type := list N.

Definition of_string (s : string) : t := map JS.code (list_ascii_of_string s).

Definition len (s : t) : Z := Z.of_nat (List.length s).

(** [s.split(c)] for a separator of one code unit; the result is never
    empty. *)
Fixpoint split (sep : N) (s : t) : list t :=
  match s with
  | [] => [[]]
  | c :: s' =>
      if (c =? sep)%N then [] :: split sep s'
      else match split sep s' with
           | h :: rest => (c :: h) :: rest
           | [] => [[c]]
           end
  end.

(** [arr.join(sep)] *)
Fixpoint join (sep : t) (l : list t) : t :=
  match l with
  | [] => []
  | [x] => x
  | x :: rest => (x ++ sep ++ join sep rest)%list
  end.

(** A call that either returns or throws a RangeError. *)
Inductive ranged (A : Type) : Type :=
| Value (a : A)
| RangeError.
Arguments Value {A} a.
Arguments RangeError {A}.

(** A JavaScript number as far as the function meets it: an integer, or
    the -Infinity that [Math.max] gives without arguments. *)
Inductive number : Type :=
| Int (n : Z)
| MinusInfinity.

(** [Math.max(...xs)] on integers. *)
Definition Math_max (xs : list Z) : number :=
  match xs with
  | [] => MinusInfinity
  | x :: xs' => Int (fold_left Z.max xs' x)
  end.

(** [s.repeat(count)]: a negative or infinite count is a RangeError. *)
Definition repeat (s : t) (count : number) : ranged t :=
  match count with
  | MinusInfinity => RangeError
  | Int n => if n <? 0 then RangeError
             else Value (List.concat (List.repeat s (Z.to_nat n)))
  end.

(** [s.padEnd(targetLength)]: spaces up to the length, nothing when the
    string is that long already (or the length is -Infinity). *)
Definition padEnd (s : t) (targetLength : number) : t :=
  match targetLength with
  | MinusInfinity => s
  | Int n => (s ++ List.repeat 32%N (Z.to_nat (n - len s)))%list
  end.

End Wide.

(** [encloseStringInBox(str, indent = 30)] *)
Definition encloseStringInBox (str : Wide.t) (indent : option Z)
  : Wide.ranged Wide.t :=
  let indent := match indent with Some i => i | None => 30 end in
  let lines := Wide.split 10 str in
  let maxWidth := Wide.Math_max (map Wide.len lines) in
  match Wide.repeat [0x2500%N] maxWidth with
  | Wide.RangeError => Wide.RangeError
  | Wide.Value bar =>
      let box :=
        (([0x250C%N] ++ bar ++ [0x2510%N])
           :: map (fun l => [0x2502%N] ++ Wide.padEnd l maxWidth ++ [0x2502%N])%list
                  lines
           ++ [[0x2514%N] ++ bar ++ [0x2518%N]])%list in
      match Wide.repeat [32%N] (Wide.Int indent) with
      | Wide.RangeError => Wide.RangeError
      | Wide.Value pad =>
          Wide.Value (Wide.join [10%N] (map (fun t => pad ++ t)%list box))
      end
  end.

(** [n] spaces. *)
Definition spaces (n : Z) : Wide.t := List.repeat 32%N (Z.to_nat n).

(** The order [getPublishedVersions] sorts by: [a] may stand before [b]
    when the comparator does not put it after [b]. *)
Definition in_order (a b : string) : Prop := Semver.compareIdentifiers a b <= 0.

(** The tags other than 'latest', as the filter of the source keeps them. *)
Definition other_tags (tags : list string) : list string :=
  filter (fun f => negb (String.eqb f "latest")) tags.

(** * Proofs *)

(** ** Strings *)

Section StringFacts.

Lemma append_nil_r (s : string) : s ++ "" = s.
Proof. induction s as [|c s IH]; simpl; [reflexivity | now rewrite IH]. Qed.

Lemma append_assoc (a b c : string) : (a ++ b) ++ c = a ++ (b ++ c).
Proof. induction a as [|x a IH]; simpl; [reflexivity | now rewrite IH]. Qed.

Lemma len_append (a b : string) : JS.len (a ++ b) = JS.len a + JS.len b.
Proof.
  unfold JS.len. induction a as [|x a IH]; simpl String.length.
  - reflexivity.
  - rewrite !Nat2Z.inj_succ. simpl in IH. lia.
Qed.

Lemma len_nonneg (s : string) : 0 <= JS.len s.
Proof. unfold JS.len. lia. Qed.

Lemma len_String (c : ascii) (s : string) : JS.len (String c s) = 1 + JS.len s.
Proof. unfold JS.len. simpl String.length. lia. Qed.

Lemma substring_all (s : string) : String.substring 0 (String.length s) s = s.
Proof. induction s as [|c s IH]; simpl; [reflexivity | now rewrite IH]. Qed.

Lemma substring_zero (n : nat) (s : string) : String.substring n 0 s = "".
Proof.
  revert s. induction n as [|n IH]; intros [|c s]; simpl; auto.
Qed.

Lemma substring_front (a b : string) :
  String.substring 0 (String.length a) (a ++ b) = a.
Proof.
  induction a as [|c a IH]; simpl.
  - apply (substring_zero 0).
  - now rewrite IH.
Qed.

Lemma substring_back (a b : string) (n : nat) :
  String.substring (String.length a) n (a ++ b) = String.substring 0 n b.
Proof. induction a as [|c a IH]; simpl; auto. Qed.

(** [s.substring(0, i)] at the end of a prefix gives the prefix. *)
Lemma substring_prefix (a b : string) :
  JS.substring (a ++ b) 0 (Some (JS.len a)) = a.
Proof.
  unfold JS.substring.
  pose proof (len_nonneg a). pose proof (len_nonneg b).
  rewrite len_append.
  replace (Z.min (Z.max 0 0) (JS.len a + JS.len b)) with 0 by lia.
  replace (Z.min (Z.max (JS.len a) 0) (JS.len a + JS.len b)) with (JS.len a) by lia.
  replace (Z.min 0 (JS.len a)) with 0 by lia.
  replace (Z.max 0 (JS.len a) - 0) with (JS.len a) by lia.
  unfold JS.len. rewrite Nat2Z.id. apply substring_front.
Qed.

(** [s.substring(i + 1)] just after a prefix and one character gives the rest. *)
Lemma substring_suffix (a b : string) (c : ascii) :
  JS.substring (a ++ String c b) (JS.len a + 1) None = b.
Proof.
  unfold JS.substring.
  pose proof (len_nonneg a). pose proof (len_nonneg b).
  rewrite len_append, len_String.
  replace (Z.min (Z.max (JS.len a + 1) 0) (JS.len a + (1 + JS.len b)))
    with (JS.len a + 1) by lia.
  replace (Z.min (JS.len a + 1) (JS.len a + (1 + JS.len b)))
    with (JS.len a + 1) by lia.
  replace (Z.max (JS.len a + 1) (JS.len a + (1 + JS.len b)) - (JS.len a + 1))
    with (JS.len b) by lia.
  replace (JS.len a + 1) with (JS.len (a ++ String c "")).
  2:{ rewrite len_append, len_String. unfold JS.len. simpl. lia. }
  replace (a ++ String c b) with ((a ++ String c "") ++ b).
  2:{ rewrite append_assoc. reflexivity. }
  unfold JS.len. rewrite !Nat2Z.id. rewrite substring_back. apply substring_all.
Qed.

Lemma occurs_append (c : ascii) (a b : string) :
  JS.occurs c (a ++ b) = JS.occurs c a || JS.occurs c b.
Proof.
  induction a as [|x a IH]; simpl; [reflexivity|].
  rewrite IH. now rewrite orb_assoc.
Qed.

Lemma lastIndexOf_from_append (a b : string) (c : ascii) (i f : Z) :
  JS.lastIndexOf_from (a ++ b) c i f =
  JS.lastIndexOf_from b c (i + JS.len a) (JS.lastIndexOf_from a c i f).
Proof.
  revert i f. induction a as [|x a IH]; intros i f; simpl.
  - f_equal. unfold JS.len. simpl. lia.
  - rewrite IH. rewrite len_String. f_equal. lia.
Qed.

Lemma lastIndexOf_from_absent (s : string) (c : ascii) (i f : Z) :
  JS.occurs c s = false -> JS.lastIndexOf_from s c i f = f.
Proof.
  revert i f. induction s as [|x s IH]; intros i f H; simpl in *.
  - reflexivity.
  - apply orb_false_iff in H as [Hx Hs]. rewrite Hx. now apply IH.
Qed.

Lemma lastIndexOf_from_bound (s : string) (c : ascii) (i f : Z) :
  f < i ->
  JS.lastIndexOf_from s c i f = f
  \/ (i <= JS.lastIndexOf_from s c i f < i + JS.len s).
Proof.
  revert i f. induction s as [|x s IH]; intros i f H; simpl.
  - now left.
  - rewrite len_String. pose proof (len_nonneg s).
    destruct (Ascii.eqb x c).
    + right. destruct (IH (i + 1) i) as [E|E]; lia.
    + destruct (IH (i + 1) f) as [E|E]; [lia | now left | right; lia].
Qed.

Lemma lastIndexOf_absent (s : string) (c : ascii) :
  JS.occurs c s = false -> JS.lastIndexOf s c = -1.
Proof. apply lastIndexOf_from_absent. Qed.

Lemma lastIndexOf_bound (s : string) (c : ascii) :
  -1 <= JS.lastIndexOf s c < JS.len s \/ (JS.lastIndexOf s c = -1).
Proof.
  unfold JS.lastIndexOf.
  destruct (lastIndexOf_from_bound s c 0 (-1)) as [E|E]; [lia | now right | left; lia].
Qed.

Lemma lastIndexOf_from_present (s : string) (c : ascii) (i f : Z) :
  f < i -> JS.occurs c s = true ->
  i <= JS.lastIndexOf_from s c i f < i + JS.len s.
Proof.
  revert i f. induction s as [|x s IH]; intros i f Hf H; simpl in *; [discriminate|].
  rewrite len_String. pose proof (len_nonneg s).
  destruct (Ascii.eqb x c).
  - destruct (lastIndexOf_from_bound s c (i + 1) i) as [E|E]; lia.
  - simpl in H. specialize (IH (i + 1) f ltac:(lia) H). lia.
Qed.

Lemma lastIndexOf_present (s : string) (c : ascii) :
  JS.occurs c s = true -> 0 <= JS.lastIndexOf s c < JS.len s.
Proof.
  intros H. unfold JS.lastIndexOf.
  pose proof (lastIndexOf_from_present s c 0 (-1) ltac:(lia) H). lia.
Qed.

(** The last occurrence of a character that does not occur afterwards. *)
Lemma lastIndexOf_last (a b : string) (c : ascii) :
  JS.occurs c b = false ->
  JS.lastIndexOf (a ++ String c b) c = JS.len a.
Proof.
  intros H. unfold JS.lastIndexOf. rewrite lastIndexOf_from_append. simpl.
  rewrite Ascii.eqb_refl. now rewrite lastIndexOf_from_absent.
Qed.

(** A character absent from the tail does not move the last index of
    another. *)
Lemma lastIndexOf_tail_absent (a b : string) (c : ascii) :
  JS.occurs c b = false ->
  JS.lastIndexOf (a ++ b) c = JS.lastIndexOf a c.
Proof.
  intros H. unfold JS.lastIndexOf. rewrite lastIndexOf_from_append.
  now rewrite lastIndexOf_from_absent.
Qed.

End StringFacts.

(** ** The derivative matcher decides the language of a pattern *)

Section RegexFacts.

Lemma Void_empty (s : string) : ~ Matches Void s.
Proof. intros H. inversion H. Qed.

Lemma Seq_Eps_l (r : regex) (s : string) : Matches (Seq Eps r) s <-> Matches r s.
Proof.
  split; intros H.
  - inversion H as [| |r1 r2 s1 s2 H1 H2| | | | | |]; subst. inversion H1; subst.
    exact H2.
  - change s with ("" ++ s). constructor; [constructor | exact H].
Qed.

Lemma Seq_Eps_r (r : regex) (s : string) : Matches (Seq r Eps) s <-> Matches r s.
Proof.
  split; intros H.
  - inversion H as [| |r1 r2 s1 s2 H1 H2| | | | | |]; subst. inversion H2; subst.
    now rewrite append_nil_r.
  - rewrite <- (append_nil_r s). constructor; [exact H | constructor].
Qed.

Lemma Seq_Void_l (r : regex) (s : string) : ~ Matches (Seq Void r) s.
Proof.
  intros H. inversion H as [| |r1 r2 s1 s2 H1 H2| | | | | |]; subst. inversion H1.
Qed.

Lemma Seq_Void_r (r : regex) (s : string) : ~ Matches (Seq r Void) s.
Proof.
  intros H. inversion H as [| |r1 r2 s1 s2 H1 H2| | | | | |]; subst. inversion H2.
Qed.

Lemma seq_spec (r1 r2 : regex) (s : string) :
  Matches (Regex.seq r1 r2) s <-> Matches (Seq r1 r2) s.
Proof.
  destruct r1, r2; simpl;
    try reflexivity;
    try (split; intros H; [now apply Void_empty in H | now apply Seq_Void_l in H]);
    try (split; intros H; [now apply Void_empty in H | now apply Seq_Void_r in H]);
    try (symmetry; apply Seq_Eps_l);
    try (symmetry; apply Seq_Eps_r).
Qed.

Lemma alt_spec (r1 r2 : regex) (s : string) :
  Matches (Regex.alt r1 r2) s <-> Matches r1 s \/ Matches r2 s.
Proof.
  assert (A : Matches (Alt r1 r2) s <-> Matches r1 s \/ Matches r2 s).
  { split; intros H.
    - inversion H; subst; auto.
    - destruct H; [now apply MAltL | now apply MAltR]. }
  destruct r1, r2; simpl; try exact A;
    try (split; [intros H; now right | intros [H|H]; [now apply Void_empty in H | exact H]]);
    try (split; [intros H; now left | intros [H|H]; [exact H | now apply Void_empty in H]]).
Qed.

Lemma nullable_spec (r : regex) : nullable r = true <-> Matches r "".
Proof.
  induction r as [| |p|r1 IH1 r2 IH2|r1 IH1 r2 IH2|r IH|n r IH]; simpl.
  - split; [discriminate | intros H; inversion H].
  - split; [constructor | reflexivity].
  - split; [discriminate | intros H; inversion H].
  - rewrite andb_true_iff, IH1, IH2. split.
    + intros [H1 H2]. change "" with ("" ++ ""). now constructor.
    + intros H. inversion H as [| |? ? s1 s2 H1 H2 E1 E2| | | | | |]; subst.
      destruct s1; [|discriminate]. simpl in E2. subst s2. auto.
  - rewrite orb_true_iff, IH1, IH2. split.
    + intros [H|H]; [now apply MAltL | now apply MAltR].
    + intros H. inversion H; subst; auto.
  - split; [constructor | reflexivity].
  - split; [constructor | reflexivity].
Qed.

(** A non-empty match of a repetition starts with a non-empty match of its
    body. *)
Lemma Star_cons (r : regex) (c : ascii) (s : string) :
  Matches (Star r) (String c s) ->
  exists s1 s2, s = s1 ++ s2 /\ Matches r (String c s1) /\ Matches (Star r) s2.
Proof.
  intros H. remember (Star r) as R eqn:ER. remember (String c s) as t eqn:Et.
  induction H as [| | | | | |r' s1 s2 H1 _ H2 IH2| |]; try discriminate.
  inversion ER; subst r'. destruct s1 as [|d s1].
  - simpl in Et. now apply IH2.
  - simpl in Et. inversion Et; subst. exists s1, s2. auto.
Qed.

Lemma Upto_weaken (n : nat) (r : regex) (s : string) :
  Matches (Upto n r) s -> Matches (Upto (S n) r) s.
Proof.
  revert s. induction n as [|n IH]; intros s H.
  - inversion H; subst. constructor.
  - inversion H as [| | | | | | |? ?|? ? s1 s2 H1 H2]; subst.
    + constructor.
    + constructor; [exact H1 | now apply IH].
Qed.

Lemma Upto_cons (n : nat) (r : regex) (c : ascii) (s : string) :
  Matches (Upto (S n) r) (String c s) ->
  exists s1 s2, s = s1 ++ s2 /\ Matches r (String c s1) /\ Matches (Upto n r) s2.
Proof.
  induction n as [|n IH]; intros H.
  - inversion H as [| | | | | | | |? ? s1 s2 H1 H2 E1 E2]; subst.
    inversion H2; subst. rewrite append_nil_r in E2. subst s1.
    exists s, "". rewrite append_nil_r. repeat split; auto.
  - inversion H as [| | | | | | | |? ? s1 s2 H1 H2 E1 E2]; subst.
    destruct s1 as [|d s1].
    + simpl in E2. subst s2. destruct (IH H2) as (t1 & t2 & E & M1 & M2).
      exists t1, t2. repeat split; auto. now apply Upto_weaken.
    + simpl in E2. inversion E2; subst. exists s1, s2. auto.
Qed.

Lemma deriv_spec (r : regex) (c : ascii) (s : string) :
  Matches (deriv c r) s <-> Matches r (String c s).
Proof.
  revert s.
  induction r as [| |p|r1 IH1 r2 IH2|r1 IH1 r2 IH2|r IH|n r IH]; intros s.
  - simpl. split; intros H; inversion H.
  - simpl. split; intros H; inversion H.
  - simpl. destruct (p c) eqn:E; split; intros H.
    + inversion H; subst. now constructor.
    + inversion H; subst. constructor.
    + inversion H.
    + inversion H; subst. congruence.
  - simpl. rewrite alt_spec, seq_spec. split.
    + intros [H|H].
      * inversion H as [| |? ? s1 s2 H1 H2| | | | | |]; subst.
        apply IH1 in H1. change (String c (s1 ++ s2)) with (String c s1 ++ s2).
        now constructor.
      * destruct (nullable r1) eqn:N; [|now apply Void_empty in H].
        apply nullable_spec in N. apply IH2 in H.
        change (String c s) with ("" ++ String c s). now constructor.
    + intros H. inversion H as [| |? ? s1 s2 H1 H2 E1 E2| | | | | |]; subst.
      destruct s1 as [|d s1].
      * simpl in E2. subst s2. right.
        apply nullable_spec in H1. rewrite H1. now apply IH2.
      * simpl in E2. inversion E2; subst. left. constructor; [now apply IH1 | exact H2].
  - simpl. rewrite alt_spec, IH1, IH2. split.
    + intros [H|H]; [now apply MAltL | now apply MAltR].
    + intros H. inversion H; subst; auto.
  - simpl. rewrite seq_spec. split.
    + intros H. inversion H as [| |? ? s1 s2 H1 H2| | | | | |]; subst.
      apply IH in H1. change (String c (s1 ++ s2)) with (String c s1 ++ s2).
      now constructor.
    + intros H. destruct (Star_cons r c s H) as (s1 & s2 & E & H1 & H2). subst s.
      constructor; [now apply IH | exact H2].
  - destruct n as [|n]; simpl.
    + split; intros H; inversion H.
    + rewrite seq_spec. split.
      * intros H. inversion H as [| |? ? s1 s2 H1 H2| | | | | |]; subst.
        apply IH in H1. change (String c (s1 ++ s2)) with (String c s1 ++ s2).
        now constructor.
      * intros H. destruct (Upto_cons n r c s H) as (s1 & s2 & E & H1 & H2). subst s.
        constructor; [now apply IH | exact H2].
Qed.

(** [test] accepts exactly the strings of the pattern. *)
Lemma matches_correct (r : regex) (s : string) :
  test r s = true <-> Matches r s.
Proof.
  unfold test. revert r. induction s as [|c s IH]; intros r; simpl.
  - apply nullable_spec.
  - rewrite IH. apply deriv_spec.
Qed.

End RegexFacts.

(** ** Arrays of strings: [split], [join], [slice] *)

Section ArrayFacts.

Lemma split_nonempty (c : ascii) (s : string) : JS.split c s <> [].
Proof.
  destruct s as [|x s]; simpl; [discriminate|].
  destruct (Ascii.eqb x c); [discriminate|].
  destruct (JS.split c s); discriminate.
Qed.

Lemma split_length (c : ascii) (s : string) :
  List.length (JS.split c s) = S (JS.count c s).
Proof.
  induction s as [|x s IH]; simpl; [reflexivity|].
  destruct (Ascii.eqb x c); simpl.
  - now rewrite IH.
  - destruct (JS.split c s) as [|h t] eqn:E; simpl in *; [discriminate | exact IH].
Qed.

Lemma split_absent (c : ascii) (s : string) :
  JS.occurs c s = false -> JS.split c s = [s].
Proof.
  induction s as [|x s IH]; simpl; intros H; [reflexivity|].
  apply orb_false_iff in H as [Hx Hs]. rewrite Hx, (IH Hs). reflexivity.
Qed.

Lemma split_append (c : ascii) (a b : string) :
  JS.occurs c a = false ->
  JS.split c (a ++ String c b) = a :: JS.split c b.
Proof.
  induction a as [|x a IH]; simpl; intros H.
  - now rewrite Ascii.eqb_refl.
  - apply orb_false_iff in H as [Hx Ha]. rewrite Hx, (IH Ha). reflexivity.
Qed.

Lemma join_split (c : ascii) (s : string) :
  JS.join (String c "") (JS.split c s) = s.
Proof.
  unfold JS.join. induction s as [|x s IH]; simpl; [reflexivity|].
  destruct (Ascii.eqb x c) eqn:E.
  - apply Ascii.eqb_eq in E. subst x.
    destruct (JS.split c s) as [|h t] eqn:Es; [now destruct (split_nonempty c s)|].
    simpl. f_equal. exact IH.
  - destruct (JS.split c s) as [|h t] eqn:Es; [now destruct (split_nonempty c s)|].
    simpl in *. destruct t; simpl in *; now rewrite <- IH.
Qed.

(** Joining all but the last element, the separator and the last element
    joins the whole array, when it has two elements or more. *)
Lemma join_cons (sep x y : string) (l : list string) :
  JS.join sep (x :: y :: l) = x ++ sep ++ JS.join sep (y :: l).
Proof. reflexivity. Qed.

Lemma join_removelast (sep : string) (l : list string) (d : string) :
  (2 <= List.length l)%nat ->
  JS.join sep (removelast l) ++ sep ++ last l d = JS.join sep l.
Proof.
  destruct l as [|x l]; [simpl; lia|].
  destruct l as [|y l]; [simpl; lia|]. intros _.
  revert x y. induction l as [|z l IH]; intros x y.
  - reflexivity.
  - change (removelast (x :: y :: z :: l)) with (x :: removelast (y :: z :: l)).
    change (removelast (y :: z :: l)) with (y :: removelast (z :: l)).
    change (last (x :: y :: z :: l) d) with (last (y :: z :: l) d).
    rewrite (join_cons sep x y (removelast (z :: l))).
    rewrite (join_cons sep x y (z :: l)).
    rewrite <- (IH y z).
    change (removelast (y :: z :: l)) with (y :: removelast (z :: l)).
    rewrite !append_assoc. reflexivity.
Qed.

(** [arr.slice(1, -1)] drops the first and the last element. *)
Lemma slice_inner {A : Type} (x : A) (l : list A) :
  JS.slice (x :: l) 1 (-1) = removelast l.
Proof.
  unfold JS.slice. simpl List.length. rewrite Nat2Z.inj_succ.
  change (1 <? 0) with false. change (-1 <? 0) with true. cbv iota.
  replace (Z.min 1 (Z.succ (Z.of_nat (List.length l)))) with 1 by lia.
  replace (Z.max (Z.succ (Z.of_nat (List.length l)) + -1) 0)
    with (Z.of_nat (List.length l)) by lia.
  change (Z.to_nat 1) with 1%nat. simpl skipn.
  replace (Z.to_nat (Z.of_nat (List.length l) - 1)) with (pred (List.length l)) by lia.
  symmetry. apply removelast_firstn_len.
Qed.

Lemma slice_short {A : Type} (l : list A) :
  (List.length l <= 2)%nat -> JS.slice l 1 (-1) = [].
Proof.
  destruct l as [|x [|y [|z l]]]; simpl List.length; intros H; try lia.
  - reflexivity.
  - reflexivity.
  - reflexivity.
Qed.

Lemma nth_last {A : Type} (l : list A) (d : A) :
  nth (List.length l - 1) l d = last l d.
Proof.
  induction l as [|x l IH]; [reflexivity|].
  destruct l as [|y l]; [reflexivity|].
  simpl List.length in *. replace (S (S (List.length l)) - 1)%nat with (S (List.length l)) by lia.
  replace (S (List.length l) - 1)%nat with (List.length l) in IH by lia.
  change (nth (S (List.length l)) (x :: y :: l) d) with (nth (List.length l) (y :: l) d).
  rewrite IH. reflexivity.
Qed.

End ArrayFacts.

(** ** Characters and the two patterns *)

Section PatternFacts.

(** Case analysis over the 256 code units. *)
Ltac each_char c :=
  destruct c as [[] [] [] [] [] [] [] []]; vm_compute;
  try reflexivity; try discriminate; auto.

Lemma toLowerCase_slash (d : ascii) :
  Ascii.eqb (JS.toLowerCase_char d) "/" = Ascii.eqb d "/".
Proof. each_char d. Qed.

Lemma toLowerCase_at (d : ascii) :
  Ascii.eqb (JS.toLowerCase_char d) "@" = Ascii.eqb d "@".
Proof. each_char d. Qed.

Lemma toLowerCase_colon (d : ascii) :
  Ascii.eqb (JS.toLowerCase_char d) ":" = Ascii.eqb d ":".
Proof. each_char d. Qed.

Lemma toLowerCase_word_char (c : ascii) :
  word_char c = true -> word_char (JS.toLowerCase_char c) = true.
Proof. each_char c. Qed.

Lemma toLowerCase_ref_char (c : ascii) :
  ref_char c = true -> ref_char (JS.toLowerCase_char c) = true.
Proof. each_char c. Qed.

Lemma ref_char_plain (c : ascii) :
  ref_char c = true ->
  Ascii.eqb c ":" = false /\ Ascii.eqb c "@" = false /\ Ascii.eqb c "/" = false.
Proof. each_char c. Qed.

Lemma word_char_ref_char (c : ascii) : word_char c = true -> ref_char c = true.
Proof. each_char c. Qed.

Lemma path_step_plain (st st' : PathState) (c : ascii) :
  path_step st c = Some st' ->
  Ascii.eqb c ":" = false /\ Ascii.eqb c "@" = false.
Proof. destruct st; each_char c. Qed.

Lemma toLowerCase_append (a b : string) :
  JS.toLowerCase (a ++ b) = JS.toLowerCase a ++ JS.toLowerCase b.
Proof. induction a as [|c a IH]; simpl; [reflexivity | now rewrite IH]. Qed.

Lemma toLowerCase_length (s : string) :
  String.length (JS.toLowerCase s) = String.length s.
Proof. induction s as [|c s IH]; simpl; [reflexivity | now rewrite IH]. Qed.

Lemma occurs_toLowerCase_slash (s : string) :
  JS.occurs "/" (JS.toLowerCase s) = JS.occurs "/" s.
Proof.
  induction s as [|c s IH]; simpl; [reflexivity|].
  now rewrite toLowerCase_slash, IH.
Qed.

Lemma occurs_toLowerCase_at (s : string) :
  JS.occurs "@" (JS.toLowerCase s) = JS.occurs "@" s.
Proof.
  induction s as [|c s IH]; simpl; [reflexivity|].
  now rewrite toLowerCase_at, IH.
Qed.

Lemma all_chars_toLowerCase (s : string) :
  all_chars ref_char s = true -> all_chars ref_char (JS.toLowerCase s) = true.
Proof.
  induction s as [|c s IH]; simpl; [reflexivity|].
  intros H. apply andb_true_iff in H as [Hc Hs].
  now rewrite (toLowerCase_ref_char c Hc), (IH Hs).
Qed.

Lemma all_chars_plain (s : string) :
  all_chars ref_char s = true ->
  JS.occurs ":" s = false /\ JS.occurs "@" s = false /\ JS.occurs "/" s = false.
Proof.
  induction s as [|c s IH]; simpl; [auto|].
  intros H. apply andb_true_iff in H as [Hc Hs].
  destruct (ref_char_plain c Hc) as (H1 & H2 & H3).
  destruct (IH Hs) as (I1 & I2 & I3).
  now rewrite H1, H2, H3, I1, I2, I3.
Qed.

Lemma matches_Void (s : string) : matches Void s = false.
Proof. induction s as [|c s IH]; simpl; [reflexivity | exact IH]. Qed.

(** The derivatives of [regexForPath] are the states of its automaton. *)
Lemma path_deriv (st : PathState) (c : ascii) :
  deriv c (path_regex st) =
  match path_step st c with Some st' => path_regex st' | None => Void end.
Proof. destruct st; destruct c as [[] [] [] [] [] [] [] []]; reflexivity. Qed.

Lemma path_matches (st : PathState) (s : string) :
  matches (path_regex st) s = path_accepts st s.
Proof.
  revert st. induction s as [|c s IH]; intros st.
  - destruct st; reflexivity.
  - change (matches (path_regex st) (String c s))
      with (matches (deriv c (path_regex st)) s).
    rewrite path_deriv. unfold path_accepts. simpl path_run.
    destruct (path_step st c) as [st'|].
    + apply IH.
    + apply matches_Void.
Qed.

Lemma test_regexForPath (s : string) :
  test regexForPath s = path_accepts ComponentStart s.
Proof. apply (path_matches ComponentStart). Qed.

Lemma path_run_append (st : PathState) (a b : string) :
  path_run st (a ++ b) =
  match path_run st a with Some st' => path_run st' b | None => None end.
Proof.
  revert st. induction a as [|c a IH]; intros st; simpl; [reflexivity|].
  destruct (path_step st c); [apply IH | reflexivity].
Qed.

Lemma path_run_plain (st st' : PathState) (s : string) :
  path_run st s = Some st' ->
  JS.occurs ":" s = false /\ JS.occurs "@" s = false.
Proof.
  revert st. induction s as [|c s IH]; intros st H; simpl in *; [auto|].
  destruct (path_step st c) as [st1|] eqn:E; [|discriminate].
  destruct (path_step_plain _ _ _ E) as [H1 H2].
  destruct (IH _ H) as [I1 I2].
  now rewrite H1, H2, I1, I2.
Qed.

Lemma path_accepts_inv (st : PathState) (s : string) :
  path_accepts st s = true -> path_run st s = Some InComponent.
Proof.
  unfold path_accepts. destruct (path_run st s) as [[]|]; auto; discriminate.
Qed.

(** A path never starts with a slash. *)
Lemma regexForPath_leading_slash (s : string) :
  test regexForPath (String "/" s) = false.
Proof. rewrite test_regexForPath. reflexivity. Qed.

(** The path pattern matches two paths joined by a slash. *)
Lemma regexForPath_join (a b : string) :
  test regexForPath a = true -> test regexForPath b = true ->
  test regexForPath (a ++ "/" ++ b) = true.
Proof.
  rewrite !test_regexForPath. intros Ha Hb.
  unfold path_accepts. rewrite path_run_append.
  rewrite (path_accepts_inv _ _ Ha). simpl.
  exact Hb.
Qed.

Lemma regexForPath_plain (s : string) :
  test regexForPath s = true ->
  JS.occurs ":" s = false /\ JS.occurs "@" s = false.
Proof.
  rewrite test_regexForPath. intros H.
  apply (path_run_plain ComponentStart InComponent). now apply path_accepts_inv.
Qed.

Lemma upto_matches (p : ascii -> bool) (n : nat) (s : string) :
  matches (Upto n (Class p)) s = (String.length s <=? n)%nat && all_chars p s.
Proof.
  revert n. induction s as [|c s IH]; intros n.
  - reflexivity.
  - destruct n as [|n].
    + simpl. apply matches_Void.
    + simpl. destruct (p c); simpl.
      * apply IH.
      * rewrite andb_false_r. apply matches_Void.
Qed.

(** The tag pattern read off directly: a word character, then at most 127
    characters of the larger class. *)
Lemma test_regexForVersionOrDigest (s : string) :
  test regexForVersionOrDigest s =
  match s with
  | EmptyString => false
  | String c r =>
      word_char c && ((String.length r <=? 127)%nat && all_chars ref_char r)
  end.
Proof.
  destruct s as [|c r]; [reflexivity|].
  unfold test, regexForVersionOrDigest.
  change (matches (Seq (Class word_char) (Upto 127 (Class ref_char))) (String c r))
    with (matches (deriv c (Seq (Class word_char) (Upto 127 (Class ref_char)))) r).
  simpl deriv. destruct (word_char c); simpl.
  - apply upto_matches.
  - apply matches_Void.
Qed.

Lemma regexForVersionOrDigest_toLowerCase (s : string) :
  test regexForVersionOrDigest s = true ->
  test regexForVersionOrDigest (JS.toLowerCase s) = true.
Proof.
  rewrite !test_regexForVersionOrDigest. destruct s as [|c r]; [discriminate|].
  simpl JS.toLowerCase. intros H.
  apply andb_true_iff in H as [Hc H]. apply andb_true_iff in H as [Hl Hr].
  rewrite (toLowerCase_word_char c Hc), toLowerCase_length, Hl.
  now rewrite (all_chars_toLowerCase r Hr).
Qed.

Lemma regexForVersionOrDigest_plain (s : string) :
  test regexForVersionOrDigest s = true ->
  s <> "" /\ JS.occurs ":" s = false /\ JS.occurs "@" s = false
  /\ JS.occurs "/" s = false.
Proof.
  rewrite test_regexForVersionOrDigest. destruct s as [|c r]; [discriminate|].
  intros H. apply andb_true_iff in H as [Hc H]. apply andb_true_iff in H as [_ Hr].
  split; [discriminate|].
  destruct (ref_char_plain c (word_char_ref_char c Hc)) as (H1 & H2 & H3).
  destruct (all_chars_plain r Hr) as (I1 & I2 & I3).
  simpl. now rewrite H1, H2, H3, I1, I2, I3.
Qed.

Lemma all_chars_append (q : ascii -> bool) (a b : string) :
  all_chars q (a ++ b) = all_chars q a && all_chars q b.
Proof.
  induction a as [|c a IH]; simpl; [reflexivity|].
  now rewrite IH, andb_assoc.
Qed.

(** A match only holds characters of the classes of its pattern. *)
Lemma Matches_alphabet (q : ascii -> bool) (r : regex) (s : string) :
  alphabet_within q r -> Matches r s -> all_chars q s = true.
Proof.
  intros A H. induction H; simpl in *; try reflexivity.
  - now rewrite (A c H).
  - destruct A as [A1 A2]. rewrite all_chars_append.
    now rewrite (IHMatches1 A1), (IHMatches2 A2).
  - now apply IHMatches.
  - now apply IHMatches.
  - rewrite all_chars_append. now rewrite (IHMatches1 A), (IHMatches2 A).
  - rewrite all_chars_append. now rewrite (IHMatches1 A), (IHMatches2 A).
Qed.

Lemma component_char_plain (c : ascii) :
  component_char c = true ->
  Ascii.eqb c "/" = false /\ Ascii.eqb c "@" = false /\ Ascii.eqb c ":" = false.
Proof. each_char c. Qed.

(** A single path component is a path, and holds neither slash, at sign nor
    colon. *)
Lemma pathComponent_is_path (s : string) :
  test pathComponent s = true ->
  test regexForPath s = true
  /\ JS.occurs "/" s = false /\ JS.occurs "@" s = false /\ JS.occurs ":" s = false.
Proof.
  intros H. apply matches_correct in H. split.
  - apply matches_correct. rewrite <- (append_nil_r s).
    constructor; [exact H | constructor].
  - assert (A : alphabet_within component_char pathComponent).
    { unfold pathComponent, Plus, component_char. simpl.
      repeat split; intros c Hc; rewrite Hc; auto using orb_true_r. }
    pose proof (Matches_alphabet _ _ _ A H) as C. clear H A.
    induction s as [|c s IH]; simpl in *; [auto|].
    apply andb_true_iff in C as [Hc Hs].
    destruct (component_char_plain c Hc) as (H1 & H2 & H3).
    destruct (IH Hs) as (I1 & I2 & I3).
    now rewrite H1, H2, H3, I1, I2, I3.
Qed.

End PatternFacts.

(** ** [getRef] *)

Section GetRefFacts.

Lemma write_returns (msg : string) (lvl : LogLevel) (w : World) :
  exists w', write msg lvl w = Returns tt w' /\ sent w' = sent w.
Proof. eexists. split; reflexivity. Qed.

(** [getRef] never throws and sends nothing: it returns what the pure view
    computes, and only adds to the log. *)
Lemma getRef_qualifier_returns (input : string) (w : World) :
  exists w', getRef_qualifier input w = Returns (qualifier input) w'
             /\ sent w' = sent w.
Proof.
  unfold getRef_qualifier, qualifier.
  destruct (negb (JS.lastIndexOf input "@" =? -1)).
  - destruct (negb (_ =? 2)%nat).
    + eexists. split; reflexivity.
    + destruct (negb (String.eqb _ "sha256")).
      * eexists. split; reflexivity.
      * destruct (negb (test regexForVersionOrDigest _));
          eexists; split; reflexivity.
  - destruct (_ || _); eexists; split; reflexivity.
Qed.

Lemma getRef_returns (input : string) (w : World) :
  exists w', getRef input w = Returns (getRef_value input) w'
             /\ sent w' = sent w.
Proof.
  unfold getRef, getRef_value.
  destruct (getRef_qualifier_returns (JS.toLowerCase input) w) as (w1 & E1 & S1).
  unfold bind at 1. rewrite E1.
  destruct (qualifier (JS.toLowerCase input)) as [[[resource tag] digest]|].
  - unfold ref_of.
    destruct (JS.truthy_opt tag && negb (test regexForVersionOrDigest (JS.show tag))).
    + eexists. split; [reflexivity | exact S1].
    + destruct (negb (test regexForPath _)).
      * eexists. split; [reflexivity | exact S1].
      * eexists. split; [reflexivity | exact S1].
  - eexists. split; [reflexivity | exact S1].
Qed.

Lemma getRef_result (input : string) (w : World) :
  result (getRef input) w = Some (getRef_value input).
Proof.
  unfold result. destruct (getRef_returns input w) as (w' & E & _).
  now rewrite E.
Qed.

Lemma qualifier_resource (input resource : string) (tag digest : option string) :
  qualifier input = Some (resource, tag, digest) ->
  resource = resource_part input.
Proof.
  unfold qualifier, resource_part.
  destruct (negb (JS.lastIndexOf input "@" =? -1)).
  - destruct (negb (_ =? 2)%nat); [discriminate|].
    destruct (negb (String.eqb _ "sha256")); [discriminate|].
    intros H. now inversion H.
  - destruct (_ || _); intros H; now inversion H.
Qed.

(** With fewer than two slashes the namespace is empty and the path starts
    with a slash. *)
Lemma ref_of_short (resource : string) (tag digest : option string) :
  (JS.count "/" resource < 2)%nat -> ref_of resource tag digest = None.
Proof.
  intros H. unfold ref_of.
  destruct (JS.truthy_opt tag && _); [reflexivity|].
  rewrite slice_short by (rewrite split_length; lia).
  change (JS.join "/" []) with "".
  change ("" ++ "/" ++ ?x) with (String "/" x).
  now rewrite regexForPath_leading_slash.
Qed.

Lemma ref_of_namespace (resource : string) (tag digest : option string)
      (r : OCIRef.t) :
  ref_of resource tag digest = Some r -> OCIRef.namespace r <> "".
Proof.
  unfold ref_of.
  destruct (JS.truthy_opt tag && _); [discriminate|].
  destruct (test regexForPath _) eqn:E; [|discriminate].
  simpl negb. cbv iota. intros H. inversion H; subst; clear H. simpl.
  intros N. rewrite N in E.
  change ("" ++ "/" ++ ?x) with (String "/" x) in E.
  now rewrite regexForPath_leading_slash in E.
Qed.

End GetRefFacts.

Section GetRefTheorems.

Lemma count_append (c : ascii) (a b : string) :
  JS.count c (a ++ b) = (JS.count c a + JS.count c b)%nat.
Proof.
  induction a as [|x a IH]; simpl; [reflexivity|]. rewrite IH. lia.
Qed.

(** C8: an input whose resource part holds fewer than two slashes yields no
    reference (its namespace would be empty and its path would start with a
    slash), and no reference that [getRef] returns has an empty namespace. *)
Theorem getRef_needs_two_slashes (input : string) (w : World) :
  ((JS.count "/" (resource_part (JS.toLowerCase input)) < 2)%nat ->
   result (getRef input) w = Some None)
  /\ (forall r, result (getRef input) w = Some (Some r) ->
                OCIRef.namespace r <> "").
Proof.
  rewrite getRef_result. unfold getRef_value. split.
  - intros H.
    destruct (qualifier (JS.toLowerCase input)) as [[[resource tag] digest]|] eqn:Q;
      [|reflexivity].
    apply qualifier_resource in Q. subst resource.
    now rewrite ref_of_short.
  - intros r H.
    destruct (qualifier (JS.toLowerCase input)) as [[[resource tag] digest]|];
      [|discriminate].
    inversion H as [H']. now apply ref_of_namespace in H'.
Qed.

Lemma getRef_needs_two_slashes_witness :
  (JS.count "/" (resource_part (JS.toLowerCase "ghcr.io/feat:1.0.0")) < 2)%nat
  /\ result (getRef "ghcr.io/feat:1.0.0") emptyWorld = Some None.
Proof.
  split.
  - vm_compute. lia.
  - apply (getRef_needs_two_slashes "ghcr.io/feat:1.0.0" emptyWorld).
    vm_compute. lia.
Defined.

(** The qualifier of [resource:tag] when the tag holds no colon, slash or
    at sign and the resource no at sign. *)
Lemma qualifier_tag_form (resource tag : string) :
  JS.occurs "@" resource = false ->
  JS.occurs "@" tag = false -> JS.occurs ":" tag = false ->
  JS.occurs "/" tag = false ->
  qualifier (resource ++ ":" ++ tag) = Some (resource, Some tag, None).
Proof.
  intros Hr Ht Hc Hs. unfold qualifier.
  assert (A : JS.lastIndexOf (resource ++ ":" ++ tag) "@" = -1).
  { apply lastIndexOf_absent. rewrite occurs_append. simpl. now rewrite Hr, Ht. }
  assert (C : JS.lastIndexOf (resource ++ ":" ++ tag) ":" = JS.len resource).
  { now apply lastIndexOf_last. }
  assert (S : JS.lastIndexOf (resource ++ ":" ++ tag) "/" < JS.len resource).
  { rewrite lastIndexOf_tail_absent by (simpl; now rewrite Hs).
    pose proof (len_nonneg resource).
    destruct (lastIndexOf_bound resource "/"); lia. }
  rewrite A, C. change (negb (-1 =? -1)) with false. cbv iota.
  pose proof (len_nonneg resource).
  replace (JS.len resource =? -1) with false by (symmetry; apply Z.eqb_neq; lia).
  replace (JS.len resource <? JS.lastIndexOf (resource ++ ":" ++ tag) "/")
    with false by (symmetry; apply Z.ltb_ge; lia).
  simpl orb. cbv iota.
  rewrite substring_prefix.
  change (resource ++ ":" ++ tag) with (resource ++ String ":" tag).
  now rewrite substring_suffix.
Qed.

(** The reference of [registry/path] with a tag, when the path holds a
    slash and matches the path pattern. *)
Lemma ref_of_tagged (registry path tag : string) :
  JS.occurs "/" registry = false ->
  (1 <= JS.count "/" path)%nat ->
  test regexForPath path = true ->
  test regexForVersionOrDigest tag = true ->
  exists r, ref_of (registry ++ "/" ++ path) (Some tag) None = Some r
            /\ OCIRef.resource r = registry ++ "/" ++ path
            /\ OCIRef.version r = tag
            /\ OCIRef.tag r = Some tag
            /\ OCIRef.digest r = None
            /\ OCIRef.registry r = registry
            /\ OCIRef.path r = path.
Proof.
  intros Hreg Hcount Hpath Htag. unfold ref_of.
  destruct (regexForVersionOrDigest_plain tag Htag) as (Hne & _).
  simpl JS.truthy_opt. simpl JS.show. rewrite Htag. rewrite andb_false_r.
  change (registry ++ "/" ++ path) with (registry ++ String "/" path).
  rewrite (split_append "/" registry path Hreg).
  rewrite slice_inner, nth_last.
  assert (L : (2 <= List.length (JS.split "/" path))%nat)
    by (rewrite split_length; lia).
  assert (E : last (registry :: JS.split "/" path) "" = last (JS.split "/" path) "").
  { destruct (JS.split "/" path); [simpl in L; lia | reflexivity]. }
  rewrite E. rewrite (join_removelast "/" _ "" L).
  rewrite (join_split "/" path). rewrite Hpath.
  eexists. split; [reflexivity|]. simpl.
  repeat split.
  unfold JS.or_default, JS.or_else. simpl.
  unfold JS.truthy. destruct (String.eqb_spec tag ""); [contradiction | reflexivity].
Qed.

(** C5: a well-formed [registry/ns/id:tag] parses, and its resource, a colon
    and its version spell the lower-cased input.  The registry may be any
    string without slash and at sign (a host with a port too); namespace and
    id match the path pattern once lower-cased, so the namespace may have
    several components; the tag matches the tag pattern.  For a segment
    whose lower case matches the component grammar, [pathComponent_is_path]
    gives the first four conditions. *)
Theorem getRef_roundtrip (registry ns id tag : string) (w : World) :
  JS.occurs "/" registry = false ->
  JS.occurs "@" registry = false ->
  test regexForPath (JS.toLowerCase ns) = true ->
  test regexForPath (JS.toLowerCase id) = true ->
  test regexForVersionOrDigest tag = true ->
  exists r,
    result (getRef (registry ++ "/" ++ ns ++ "/" ++ id ++ ":" ++ tag)) w
    = Some (Some r)
    /\ OCIRef.resource r ++ ":" ++ OCIRef.version r
       = JS.toLowerCase (registry ++ "/" ++ ns ++ "/" ++ id ++ ":" ++ tag).
Proof.
  intros Hslash Hat Hns Hid Htag.
  rewrite getRef_result. unfold getRef_value.
  set (r := JS.toLowerCase registry).
  set (p := JS.toLowerCase ns ++ "/" ++ JS.toLowerCase id).
  set (t := JS.toLowerCase tag).
  assert (L : JS.toLowerCase (registry ++ "/" ++ ns ++ "/" ++ id ++ ":" ++ tag)
              = (r ++ "/" ++ p) ++ ":" ++ t).
  { rewrite !toLowerCase_append. subst r p t.
    change (JS.toLowerCase "/") with "/". change (JS.toLowerCase ":") with ":".
    rewrite !append_assoc. reflexivity. }
  rewrite L.
  assert (Hp : test regexForPath p = true) by now apply regexForPath_join.
  assert (Ht : test regexForVersionOrDigest t = true)
    by now apply regexForVersionOrDigest_toLowerCase.
  destruct (regexForPath_plain p Hp) as [_ Hp_at].
  destruct (regexForVersionOrDigest_plain t Ht) as (_ & Ht_colon & Ht_at & Ht_slash).
  assert (Hr_slash : JS.occurs "/" r = false)
    by (subst r; now rewrite occurs_toLowerCase_slash).
  assert (Hr_at : JS.occurs "@" r = false)
    by (subst r; now rewrite occurs_toLowerCase_at).
  rewrite qualifier_tag_form; auto.
  2:{ rewrite !occurs_append. simpl. now rewrite Hr_at, Hp_at. }
  destruct (ref_of_tagged r p t Hr_slash) as (x & E & Hres & Hver & _); auto.
  { subst p. rewrite count_append. simpl. lia. }
  exists x. rewrite E. split; [reflexivity|].
  now rewrite Hres, Hver.
Qed.

Lemma getRef_roundtrip_witness :
  exists r,
    result (getRef ("GHCR.io" ++ "/" ++ "DevContainers/features" ++ "/" ++ "Go"
                    ++ ":" ++ "1.0.0-RC1")) emptyWorld = Some (Some r)
    /\ OCIRef.resource r ++ ":" ++ OCIRef.version r
       = JS.toLowerCase ("GHCR.io" ++ "/" ++ "DevContainers/features" ++ "/"
                         ++ "Go" ++ ":" ++ "1.0.0-RC1").
Proof.
  apply (getRef_roundtrip "GHCR.io" "DevContainers/features" "Go" "1.0.0-RC1"
                          emptyWorld); reflexivity.
Defined.

End GetRefTheorems.

Section GetRefDigestAndTag.

(** The two checks of the digest form that do reject: the text after the
    last at sign must split on the colon in two parts, the first of which
    is sha256. *)
Lemma getRef_digest_checked (input : string) (w : World) :
  JS.occurs "@" (JS.toLowerCase input) = true ->
  (List.length (JS.split ":" (digest_part (JS.toLowerCase input))) <> 2%nat
   \/ nth 0 (JS.split ":" (digest_part (JS.toLowerCase input))) "" <> "sha256") ->
  result (getRef input) w = Some None.
Proof.
  intros Hat H. rewrite getRef_result. unfold getRef_value, qualifier.
  pose proof (lastIndexOf_present _ _ Hat) as B.
  replace (JS.lastIndexOf (JS.toLowerCase input) "@" =? -1) with false
    by (symmetry; apply Z.eqb_neq; lia).
  simpl negb. cbv iota. fold (digest_part (JS.toLowerCase input)).
  destruct (Nat.eqb_spec (List.length (JS.split ":" (digest_part (JS.toLowerCase input)))) 2)
    as [E|E]; simpl negb; cbv iota; [|reflexivity].
  destruct (String.eqb_spec (nth 0 (JS.split ":" (digest_part (JS.toLowerCase input))) "")
                            "sha256") as [F|F]; simpl negb; cbv iota; [|reflexivity].
  destruct H; contradiction.
Qed.

(** C2: the third check of the digest form only writes to the log.  The
    digest of this input is sha256 followed by a part outside the restricted
    name grammar; the error is logged and the reference is returned all the
    same. *)
Theorem getRef_accepts_malformed_digest :
  test regexForVersionOrDigest "$bad" = false
  /\ exists r w',
       getRef "ghcr.io/org/feat@sha256:$bad" emptyWorld = Returns (Some r) w'
       /\ OCIRef.digest r = Some "sha256:$bad"
       /\ OCIRef.version r = "sha256:$bad"
       /\ In {| text := "Digest for input 'ghcr.io/org/feat@sha256:$bad' failed validation."
                        ++ "  Expected digest to match regex '"
                        ++ regexForVersionOrDigest_source ++ "'.";
                level := Error |} (output w').
Proof.
  split; [reflexivity|].
  eexists. eexists. split; [vm_compute; reflexivity|].
  split; [reflexivity|]. split; [reflexivity|].
  left. reflexivity.
Qed.

(** C9: with a colon at its very end the input has an empty tag, which is
    defined, skips the tag check, and leaves the version at 'latest': the
    version is not the tag. *)
Theorem getRef_empty_tag_version :
  exists r,
    result (getRef "ghcr.io/org/feat:") emptyWorld = Some (Some r)
    /\ OCIRef.tag r = Some ""
    /\ OCIRef.digest r = None
    /\ OCIRef.version r = "latest".
Proof.
  eexists. split; [vm_compute; reflexivity|]. repeat split.
Qed.

Lemma split_two_nonempty (c : ascii) (s : string) :
  List.length (JS.split c s) = 2%nat -> s <> "".
Proof. intros H E. subst s. discriminate. Qed.

(** What does hold of every reference [getRef] returns: the digest is
    defined exactly for inputs with an at sign, the tag otherwise, and the
    version is the defined one unless that is the empty tag. *)
Lemma getRef_tag_or_digest (input : string) (w : World) (r : OCIRef.t) :
  result (getRef input) w = Some (Some r) ->
  (JS.occurs "@" (JS.toLowerCase input) = true
   /\ OCIRef.tag r = None
   /\ OCIRef.digest r = Some (OCIRef.version r))
  \/ (JS.occurs "@" (JS.toLowerCase input) = false
      /\ OCIRef.digest r = None
      /\ exists t, OCIRef.tag r = Some t
                   /\ OCIRef.version r = (if String.eqb t "" then "latest" else t)).
Proof.
  rewrite getRef_result. unfold getRef_value, qualifier.
  destruct (JS.occurs "@" (JS.toLowerCase input)) eqn:Hat.
  - pose proof (lastIndexOf_present _ _ Hat) as B.
    replace (JS.lastIndexOf (JS.toLowerCase input) "@" =? -1) with false
      by (symmetry; apply Z.eqb_neq; lia).
    simpl negb. cbv iota.
    set (d := JS.substring (JS.toLowerCase input)
                (JS.lastIndexOf (JS.toLowerCase input) "@" + 1) None).
    clearbody d.
    destruct (Nat.eqb_spec (List.length (JS.split ":" d)) 2)
      as [E|E]; simpl negb; cbv iota; [|discriminate].
    destruct (negb (String.eqb _ "sha256")); [discriminate|].
    apply split_two_nonempty in E.
    unfold ref_of. simpl JS.truthy_opt. simpl andb. cbv iota.
    destruct (negb (test regexForPath _)); [discriminate|].
    intros H. inversion H; subst r; clear H. simpl. left.
    split; [reflexivity|]. split; [reflexivity|].
    unfold JS.or_default, JS.or_else, JS.truthy_opt, JS.truthy.
    apply String.eqb_neq in E. rewrite E. simpl. rewrite E. reflexivity.
  - rewrite (lastIndexOf_absent _ _ Hat). change (negb (-1 =? -1)) with false.
    cbv iota. intros H. right. split; [reflexivity|].
    destruct (_ || _).
    + unfold ref_of in H.
      destruct (JS.truthy_opt (Some "latest") && _); [discriminate|].
      destruct (negb (test regexForPath _)); [discriminate|].
      inversion H; subst r; clear H. simpl. split; [reflexivity|].
      exists "latest". split; reflexivity.
    + unfold ref_of in H.
      destruct (JS.truthy_opt _ && _); [discriminate|].
      destruct (negb (test regexForPath _)); [discriminate|].
      inversion H; subst r; clear H. simpl. split; [reflexivity|].
      eexists. split; [reflexivity|].
      unfold JS.or_default, JS.or_else, JS.truthy_opt, JS.truthy.
      destruct (String.eqb _ "") eqn:T; simpl; rewrite ?T; reflexivity.
Qed.

End GetRefDigestAndTag.

(** ** The registry client *)

Section ClientFacts.

Variable registry : HttpOptions -> AnyRef -> Answer.
Variable describe : Exception -> string.

(** Whatever the registry answers, [getJsonWithMimeType] sends exactly one
    request. *)
Lemma getJsonWithMimeType_sent (url : string) (ref : AnyRef) (mimeType : string)
      (w : World) :
  sent (world_of (getJsonWithMimeType registry url ref mimeType w))
  = (sent w ++ [json_request url mimeType])%list.
Proof.
  unfold getJsonWithMimeType, try_catch, bind, request, json_request.
  destruct (registry _ ref) as [r| |reason]; simpl; try reflexivity.
  destruct (299 <? statusCode r); simpl; [reflexivity|].
  unfold JSON_parse. destruct (JSON.parse (resBody r)); reflexivity.
Qed.

(** A response with a status of at most 299 and a body that parses gives the
    parsed body and the response headers. *)
Lemma getJsonWithMimeType_parsed (url : string) (ref : AnyRef) (mimeType : string)
      (w : World) (r : HttpResponse) (v : JSON.value) :
  registry (json_request url mimeType) ref = Responds r ->
  statusCode r <= 299 ->
  JSON.parse (resBody r) = JSON.Parsed v ->
  exists w', getJsonWithMimeType registry url ref mimeType w
             = Returns (Some (v, resHeaders r)) w'.
Proof.
  intros Hr Hs Hp.
  unfold getJsonWithMimeType, try_catch, bind, request. unfold json_request in Hr.
  rewrite Hr.
  replace (299 <? statusCode r) with false by (symmetry; apply Z.ltb_ge; lia).
  unfold JSON_parse. rewrite Hp. simpl. eexists. reflexivity.
Qed.

(** Without a digest header the content digest is the hash of the parsed
    body serialized again. *)
Lemma getManifest_digest (url : string) (ref : AnyRef) (w : World)
      (r : HttpResponse) (v : JSON.value) :
  registry (json_request url "application/vnd.oci.image.manifest.v1+json") ref
  = Responds r ->
  statusCode r <= 299 ->
  JSON.parse (resBody r) = JSON.Parsed v ->
  JS.truthy_opt (header "docker-content-digest" (resHeaders r)) = false ->
  JS.truthy_opt (header "Docker-Content-Digest" (resHeaders r)) = false ->
  exists container,
    result (getManifest registry url ref None) w = Some (Some container)
    /\ manifestStr container = JSON.stringify v
    /\ contentDigest container
       = "sha256:" ++ SHA256.sha256_hex (JSON.stringify v).
Proof.
  intros Hr Hs Hp H1 H2.
  unfold result, getManifest. unfold bind at 1.
  change (JS.or_default None "application/vnd.oci.image.manifest.v1+json")
    with "application/vnd.oci.image.manifest.v1+json".
  destruct (getJsonWithMimeType_parsed url ref _ w r v Hr Hs Hp) as (w' & E).
  rewrite E. unfold ret.
  eexists. split; [reflexivity|]. simpl.
  split; [reflexivity|].
  unfold JS.or_else. rewrite H1, H2. reflexivity.
Qed.

(** [find] over the index entries agrees with the callback of the source
    when no entry is null. *)
Lemma find_platform_spec (wanted : PlatformInfo) (l : list JSON.value) (w : World) :
  existsb is_null l = false ->
  find_platform wanted l w = Returns (find (platform_matches wanted) l) w.
Proof.
  induction l as [|m l IH]; intros H; [reflexivity|].
  simpl in H. apply orb_false_iff in H as [Hm Hl].
  simpl find. unfold platform_matches at 1. unfold platform_field.
  simpl find_platform. unfold bind.
  destruct m as [| b | n | s | a | o]; simpl in *; try discriminate;
    try (now apply IH).
  destruct (JSON.lookup "platform" o) as [[| b | n | s | a | p]|]; simpl;
    try (now apply IH).
  destruct (strict_eq (JSON.lookup "architecture" p) (arch wanted)
            && strict_eq (JSON.lookup "os" p) (os wanted));
    [reflexivity | now apply IH].
Qed.

End ClientFacts.

Section ManifestTheorems.

(** The part of C1 that holds: for the body [{"a":1}] and no digest header
    the content digest is the hash of that very text. *)
Lemma getManifest_digest_compact_body :
  exists container,
    result (getManifest (answering 200 (JSON.dq "{'a':1}") [])
                        "https://ghcr.io/v2/org/feat/manifests/latest"
                        (FeatureRef sample_ref) None) emptyWorld
    = Some (Some container)
    /\ contentDigest container
       = "sha256:" ++ SHA256.sha256_hex (JSON.dq "{'a':1}").
Proof.
  eexists. split; [vm_compute; reflexivity|]. vm_compute. reflexivity.
Qed.

(** C1: the content digest is computed over [JSON.stringify] of the parsed
    body.  For the body [{"a": 1}], with a space after the colon and no
    digest header, it is the hash of [{"a":1}] and not the hash of the body
    received. *)
Theorem getManifest_digest_of_reserialized_body :
  exists container,
    result (getManifest (answering 200 (JSON.dq "{'a': 1}") [])
                        "https://ghcr.io/v2/org/feat/manifests/latest"
                        (FeatureRef sample_ref) None) emptyWorld
    = Some (Some container)
    /\ manifestStr container = JSON.dq "{'a':1}"
    /\ contentDigest container
       = "sha256:" ++ SHA256.sha256_hex (JSON.dq "{'a':1}")
    /\ contentDigest container
       <> "sha256:" ++ SHA256.sha256_hex (JSON.dq "{'a': 1}").
Proof.
  eexists. split; [vm_compute; reflexivity|].
  split; [vm_compute; reflexivity|].
  split; [vm_compute; reflexivity|].
  apply String.eqb_neq. vm_compute. reflexivity.
Qed.

(** Property names that are array indices move to the front, so the
    serialized text can also differ from the body in the order of its keys. *)
Lemma JSON_roundtrip_reorders :
  option_map JSON.stringify
             (match JSON.parse (JSON.dq "{'b':1,'0':2}") with
              | JSON.Parsed v => Some v
              | _ => None
              end)
  = Some (JSON.dq "{'0':2,'b':1}").
Proof. vm_compute. reflexivity. Qed.

(** C4, as the code has it: a registry without a dot that does not start
    with localhost is refused before any request is sent; any other registry
    passes the guard, and the manifest request is sent. *)
Theorem fetchOCIManifestIfExists_guard
        (registry : HttpOptions -> AnyRef -> Answer)
        (ref : AnyRef) (manifestDigest : option string) (w : World) :
  (JS.indexOf (ref_registry ref) "." < 0 ->
   JS.startsWith (ref_registry ref) "localhost" = false ->
   result (fetchOCIManifestIfExists registry ref manifestDigest) w = Some None
   /\ sent (world_of (fetchOCIManifestIfExists registry ref manifestDigest w))
      = sent w)
  /\ (0 <= JS.indexOf (ref_registry ref) "."
      \/ JS.startsWith (ref_registry ref) "localhost" = true ->
      sent (world_of (fetchOCIManifestIfExists registry ref manifestDigest w))
      = (sent w ++ [json_request (manifest_url ref manifestDigest)
                      "application/vnd.oci.image.manifest.v1+json"])%list).
Proof.
  unfold fetchOCIManifestIfExists, result. split.
  - intros Hdot Hlocal.
    replace (JS.indexOf (ref_registry ref) "." <? 0) with true
      by (symmetry; apply Z.ltb_lt; lia).
    rewrite Hlocal. simpl. split; reflexivity.
  - intros H.
    replace ((JS.indexOf (ref_registry ref) "." <? 0)
             && negb (JS.startsWith (ref_registry ref) "localhost")) with false.
    2:{ symmetry. apply andb_false_iff. destruct H as [H|H].
        - left. apply Z.ltb_ge. lia.
        - right. now rewrite H. }
    fold (manifest_url ref manifestDigest).
    set (u := manifest_url ref manifestDigest).
    unfold bind at 1. unfold write at 1. unfold bind at 1.
    unfold getManifest. unfold bind at 1.
    change (JS.or_default None "application/vnd.oci.image.manifest.v1+json")
      with "application/vnd.oci.image.manifest.v1+json".
    set (w1 := {| output := _; sent := sent w |}).
    pose proof (getJsonWithMimeType_sent registry u ref
                  "application/vnd.oci.image.manifest.v1+json" w1) as S.
    change (sent w1) with (sent w) in S.
    destruct (getJsonWithMimeType registry u ref _ w1) as [[[body hs]|] w2|e w2|w2];
      simpl in S; simpl; try exact S.
    destruct (JSON.truthy body); simpl; [|exact S].
    unfold get, bind.
    destruct body as [| b | n | s | a | o]; simpl; try exact S.
    destruct (JSON.lookup "config" o) as [[| b | n | s | a | c]|]; simpl;
      try exact S.
    destruct (strict_eq (JSON.lookup "mediaType" c) DEVCONTAINER_MANIFEST_MEDIATYPE);
      simpl; exact S.
Qed.

Lemma fetchOCIManifestIfExists_guard_witness :
  (result (fetchOCIManifestIfExists silent (FeatureRef bare_ref) None) emptyWorld
   = Some None
   /\ sent (world_of (fetchOCIManifestIfExists silent (FeatureRef bare_ref) None
                                               emptyWorld)) = [])
  /\ sent (world_of (fetchOCIManifestIfExists silent (FeatureRef sample_ref) None
                                              emptyWorld))
     = [json_request "https://ghcr.io/v2/org/feat/manifests/latest"
                     "application/vnd.oci.image.manifest.v1+json"].
Proof.
  split.
  - apply (fetchOCIManifestIfExists_guard silent (FeatureRef bare_ref) None
                                          emptyWorld).
    + vm_compute. reflexivity.
    + reflexivity.
  - apply (fetchOCIManifestIfExists_guard silent (FeatureRef sample_ref) None
                                          emptyWorld).
    left. vm_compute. discriminate.
Defined.

(** C4 as stated fails: the registry localhost:5000 holds no dot and is not
    localhost, yet the manifest request is sent. *)
Lemma fetchOCIManifestIfExists_localhost_port :
  JS.indexOf "localhost:5000" "." < 0
  /\ "localhost:5000" <> "localhost"
  /\ sent (world_of (fetchOCIManifestIfExists silent (FeatureRef local_ref) None
                                              emptyWorld))
     = [json_request "https://localhost:5000/v2/org/feat/manifests/latest"
                     "application/vnd.oci.image.manifest.v1+json"].
Proof.
  split; [vm_compute; reflexivity|].
  split; [discriminate|].
  vm_compute. reflexivity.
Qed.

End ManifestTheorems.

Section TagListTheorems.

Variable registry : HttpOptions -> AnyRef -> Answer.
Variable describe : Exception -> string.

(** What [getPublishedVersions] returns for each status. *)
Lemma getPublishedVersions_cases (ref : OCIRef.t) (sorted : option bool)
      (w : World) (r : HttpResponse) :
  registry (tags_request ref) (FeatureRef ref) = Responds r ->
  result (getPublishedVersions registry describe ref sorted) w
  = if statusCode r =? 404 then Some (Some [])
    else if 299 <? statusCode r then Some None
    else match JSON.parse (resBody r) with
         | JSON.Malformed => Some None
         | JSON.OutsideFragment => None
         | JSON.Parsed v => tags_outcome (effective sorted) v
         end.
Proof.
  intros Hr. unfold result, getPublishedVersions, try_catch, bind, request.
  unfold tags_request in Hr. rewrite Hr.
  destruct (statusCode r =? 404); [reflexivity|].
  destruct (299 <? statusCode r); [reflexivity|].
  unfold JSON_parse. destruct (JSON.parse (resBody r)) as [v| |]; try reflexivity.
  unfold ret, throw, unmodelled, tags_outcome, latest_first.
  fold (effective sorted).
  destruct v as [| b | n | s | a | o]; simpl;
    try (destruct (effective sorted); reflexivity).
  destruct (effective sorted); simpl.
  - destruct (JSON.lookup "tags" o) as [[| b | n | s | a | p]|]; try reflexivity.
    destruct (strings_of a); reflexivity.
  - destruct (JSON.lookup "tags" o) as [[| b | n | s | a | p]|]; try reflexivity.
    destruct (strings_of a); reflexivity.
Qed.

(** The tag list of a body, through the same case analysis. *)
Lemma getPublishedVersions_tags (ref : OCIRef.t) (sorted : option bool)
      (w : World) (r : HttpResponse) (tags : list string) :
  registry (tags_request ref) (FeatureRef ref) = Responds r ->
  statusCode r <> 404 -> statusCode r <= 299 ->
  tag_list (resBody r) = Some tags ->
  result (getPublishedVersions registry describe ref sorted) w
  = Some (Some (if effective sorted then latest_first tags else tags)).
Proof.
  intros Hr H404 H299 Ht.
  rewrite (getPublishedVersions_cases ref sorted w r Hr).
  replace (statusCode r =? 404) with false by (symmetry; apply Z.eqb_neq; lia).
  replace (299 <? statusCode r) with false by (symmetry; apply Z.ltb_ge; lia).
  unfold tag_list in Ht.
  destruct (JSON.parse (resBody r)) as [v| |]; try discriminate.
  destruct v as [| b | n | s | a | o]; try discriminate.
  unfold tags_outcome.
  destruct (JSON.lookup "tags" o) as [[| b | n | s | a | p]|]; try discriminate.
  rewrite Ht. reflexivity.
Qed.

(** C10: when [sorted] is false or omitted, a 2xx response gives the tag
    list of its body as it stands, 'latest' included where it was. *)
Theorem getPublishedVersions_unsorted (ref : OCIRef.t) (w : World)
        (r : HttpResponse) (tags : list string) :
  registry (tags_request ref) (FeatureRef ref) = Responds r ->
  200 <= statusCode r <= 299 ->
  tag_list (resBody r) = Some tags ->
  result (getPublishedVersions registry describe ref None) w = Some (Some tags)
  /\ result (getPublishedVersions registry describe ref (Some false)) w
     = Some (Some tags).
Proof.
  intros Hr Hs Ht. split.
  - now rewrite (getPublishedVersions_tags ref None w r tags Hr) by (auto; lia).
  - now rewrite (getPublishedVersions_tags ref (Some false) w r tags Hr)
      by (auto; lia).
Qed.

(** C6, as the code has it: status 404 gives the empty list and every other
    status above 299 gives undefined; a status of at most 299 gives the tag
    list of the body, sorted on request, and undefined when the body is not
    JSON. *)
Theorem getPublishedVersions_by_status (ref : OCIRef.t) (sorted : option bool)
        (w : World) (r : HttpResponse) :
  registry (tags_request ref) (FeatureRef ref) = Responds r ->
  (statusCode r = 404 ->
   result (getPublishedVersions registry describe ref sorted) w = Some (Some []))
  /\ (statusCode r <> 404 -> 299 < statusCode r ->
      result (getPublishedVersions registry describe ref sorted) w = Some None)
  /\ (statusCode r <= 299 ->
      forall tags, tag_list (resBody r) = Some tags ->
      result (getPublishedVersions registry describe ref sorted) w
      = Some (Some (if effective sorted then latest_first tags else tags)))
  /\ (statusCode r <= 299 -> JSON.parse (resBody r) = JSON.Malformed ->
      result (getPublishedVersions registry describe ref sorted) w = Some None).
Proof.
  intros Hr. repeat split.
  - intros H. rewrite (getPublishedVersions_cases ref sorted w r Hr).
    now rewrite H.
  - intros H404 H. rewrite (getPublishedVersions_cases ref sorted w r Hr).
    replace (statusCode r =? 404) with false by (symmetry; apply Z.eqb_neq; lia).
    now replace (299 <? statusCode r) with true by (symmetry; apply Z.ltb_lt; lia).
  - intros H tags Ht.
    apply (getPublishedVersions_tags ref sorted w r tags Hr); auto; lia.
  - intros H Hp. rewrite (getPublishedVersions_cases ref sorted w r Hr).
    replace (statusCode r =? 404) with false by (symmetry; apply Z.eqb_neq; lia).
    replace (299 <? statusCode r) with false by (symmetry; apply Z.ltb_ge; lia).
    now rewrite Hp.
Qed.

End TagListTheorems.

Section TagListInstances.

Lemma getPublishedVersions_unsorted_witness :
  result (getPublishedVersions
            (answering 200 (JSON.dq "{'name':'org/feat','tags':['1.0.0','latest','0.9.0']}") [])
            plain_describe sample_ref None) emptyWorld
  = Some (Some ["1.0.0"; "latest"; "0.9.0"])
  /\ result (getPublishedVersions
               (answering 200 (JSON.dq "{'name':'org/feat','tags':['1.0.0','latest','0.9.0']}") [])
               plain_describe sample_ref (Some false)) emptyWorld
     = Some (Some ["1.0.0"; "latest"; "0.9.0"]).
Proof.
  apply (getPublishedVersions_unsorted
           (answering 200 (JSON.dq "{'name':'org/feat','tags':['1.0.0','latest','0.9.0']}") [])
           plain_describe sample_ref emptyWorld
           {| resBody := JSON.dq "{'name':'org/feat','tags':['1.0.0','latest','0.9.0']}";
              statusCode := 200; resHeaders := [] |}).
  - reflexivity.
  - simpl. lia.
  - vm_compute. reflexivity.
Defined.

Lemma getPublishedVersions_by_status_witness :
  result (getPublishedVersions (answering 404 "not found" []) plain_describe
                               sample_ref (Some true)) emptyWorld
  = Some (Some [])
  /\ result (getPublishedVersions (answering 500 "oops" []) plain_describe
                                  sample_ref (Some true)) emptyWorld
     = Some None
  /\ result (getPublishedVersions
               (answering 200 (JSON.dq "{'tags':['b','latest','a']}") [])
               plain_describe sample_ref (Some true)) emptyWorld
     = Some (Some (latest_first ["b"; "latest"; "a"]))
  /\ result (getPublishedVersions (answering 200 "<html>" []) plain_describe
                                  sample_ref (Some true)) emptyWorld
     = Some None.
Proof.
  split; [|split; [|split]].
  - refine (proj1 (getPublishedVersions_by_status (answering 404 "not found" [])
             plain_describe sample_ref (Some true) emptyWorld
             {| resBody := "not found"; statusCode := 404; resHeaders := [] |}
             eq_refl) _).
    reflexivity.
  - refine (proj1 (proj2 (getPublishedVersions_by_status (answering 500 "oops" [])
             plain_describe sample_ref (Some true) emptyWorld
             {| resBody := "oops"; statusCode := 500; resHeaders := [] |}
             eq_refl)) _ _); simpl; lia.
  - refine (proj1 (proj2 (proj2 (getPublishedVersions_by_status
             (answering 200 (JSON.dq "{'tags':['b','latest','a']}") [])
             plain_describe sample_ref (Some true) emptyWorld
             {| resBody := JSON.dq "{'tags':['b','latest','a']}";
                statusCode := 200; resHeaders := [] |}
             eq_refl))) _ ["b"; "latest"; "a"] _).
    + simpl. lia.
    + vm_compute. reflexivity.
  - refine (proj2 (proj2 (proj2 (getPublishedVersions_by_status
             (answering 200 "<html>" [])
             plain_describe sample_ref (Some true) emptyWorld
             {| resBody := "<html>"; statusCode := 200; resHeaders := [] |}
             eq_refl))) _ _).
    + simpl. lia.
    + vm_compute. reflexivity.
Defined.

(** C6 as stated fails twice: a 200 response that lists no tags gives the
    empty list although the status is not 404, and status 199, which is not
    2xx, gives the tag list instead of undefined. *)
Lemma getPublishedVersions_empty_without_404 :
  (result (getPublishedVersions
             (answering 200 (JSON.dq "{'name':'org/feat','tags':[]}") [])
             plain_describe sample_ref None) emptyWorld
   = Some (Some [])
   /\ 200 <> 404)
  /\ (result (getPublishedVersions
                (answering 199 (JSON.dq "{'name':'org/feat','tags':['1.0.0']}") [])
                plain_describe sample_ref None) emptyWorld
      = Some (Some ["1.0.0"])
      /\ ~ (200 <= 199 <= 299) /\ 199 <> 404).
Proof.
  split; split; try (vm_compute; reflexivity); try lia.
Qed.

(** The example of C3 does come out as stated. *)
Lemma getPublishedVersions_sorted_example :
  result (getPublishedVersions
            (answering 200 (JSON.dq "{'name':'org/feat','tags':['1.0.0','latest','1.2.0','0.9.0']}") [])
            plain_describe sample_ref (Some true)) emptyWorld
  = Some (Some ["latest"; "0.9.0"; "1.0.0"; "1.2.0"]).
Proof. vm_compute. reflexivity. Qed.

(** C3: the tags are sorted by [compareIdentifiers] applied to whole tags.
    It compares numerically only when both tags are all digits; two dotted
    versions are compared as text, so 1.10.0 comes before 1.2.0 although
    the identifier 10 comes after the identifier 2. *)
Theorem getPublishedVersions_sorts_tags_as_text :
  result (getPublishedVersions
            (answering 200 (JSON.dq "{'name':'org/feat','tags':['1.2.0','latest','1.10.0']}") [])
            plain_describe sample_ref (Some true)) emptyWorld
  = Some (Some ["latest"; "1.10.0"; "1.2.0"])
  /\ Semver.compareIdentifiers "2" "10" = -1
  /\ Semver.compareIdentifiers "1.2.0" "1.10.0" = 1.
Proof.
  split; [vm_compute; reflexivity|]. split; vm_compute; reflexivity.
Qed.

End TagListInstances.

(** ** Platform selection *)

Section PlatformTheorems.

(** C7: x64 becomes amd64 and win32 becomes windows, any other name is kept;
    the entry returned is the first one of the index whose platform has
    exactly the mapped architecture and the mapped operating system, and
    undefined is returned when there is none. *)
Theorem getImageIndexEntryForPlatform_first_match :
  mapNodeArchitectureToGOARCH "x64" = "amd64"
  /\ mapNodeOSToGOOS "win32" = "windows"
  /\ (forall a, a <> "x64" -> mapNodeArchitectureToGOARCH a = a)
  /\ (forall o, o <> "win32" -> mapNodeOSToGOOS o = o)
  /\ (forall (registry : HttpOptions -> AnyRef -> Answer)
             (url : string) (ref : AnyRef) (platformInfo : PlatformInfo)
             (mimeType : option string)
             (w : World) (r : HttpResponse) (entries : list JSON.value),
         registry (json_request url
                     (JS.or_default mimeType "application/vnd.oci.image.index.v1+json"))
                  ref
         = Responds r ->
         statusCode r <= 299 ->
         index_entries (resBody r) = Some entries ->
         existsb is_null entries = false ->
         result (getImageIndexEntryForPlatform registry url ref platformInfo mimeType) w
         = Some (find (platform_matches
                         {| arch := mapNodeArchitectureToGOARCH (arch platformInfo);
                            os := mapNodeOSToGOOS (os platformInfo) |})
                      entries)).
Proof.
  split; [reflexivity|]. split; [reflexivity|].
  split.
  { intros a H. unfold mapNodeArchitectureToGOARCH.
    destruct (String.eqb_spec a "x64"); [contradiction | reflexivity]. }
  split.
  { intros o H. unfold mapNodeOSToGOOS.
    destruct (String.eqb_spec o "win32"); [contradiction | reflexivity]. }
  intros registry url ref platformInfo mimeType w r entries Hr Hs Hi Hn.
  unfold index_entries in Hi.
  destruct (JSON.parse (resBody r)) as [v| |] eqn:Hp; try discriminate.
  destruct v as [| b | n | s | a | o]; try discriminate.
  destruct (JSON.lookup "manifests" o) as [[| b | n | s | a | p]|] eqn:Hm;
    try discriminate.
  inversion Hi; subst a; clear Hi.
  unfold result, getImageIndexEntryForPlatform. unfold bind at 1.
  destruct (getJsonWithMimeType_parsed registry url ref _ w r _ Hr Hs Hp) as (w' & E).
  rewrite E.
  unfold bind, get, ret. rewrite Hm.
  change (negb (JSON.truthy (JSON.Object o))) with false. cbv beta iota.
  now rewrite find_platform_spec.
Qed.

Lemma getImageIndexEntryForPlatform_first_match_witness :
  result (getImageIndexEntryForPlatform
            (answering 200 (JSON.dq "{'manifests':[{'digest':'d1','platform':{'architecture':'arm64','os':'linux'}},{'digest':'d2','platform':{'architecture':'amd64','os':'windows'}},{'digest':'d3','platform':{'architecture':'amd64','os':'windows'}}]}") [])
            "https://ghcr.io/v2/org/feat/manifests/latest"
            (FeatureRef sample_ref) {| arch := "x64"; os := "win32" |} None)
         emptyWorld
  = Some (Some (JSON.Object
                  [("digest", JSON.Str "d2");
                   ("platform", JSON.Object [("architecture", JSON.Str "amd64");
                                             ("os", JSON.Str "windows")])])).
Proof.
  refine (proj2 (proj2 (proj2 (proj2 getImageIndexEntryForPlatform_first_match)))
            (answering 200 _ []) _ _ _ None emptyWorld
            {| resBody := JSON.dq "{'manifests':[{'digest':'d1','platform':{'architecture':'arm64','os':'linux'}},{'digest':'d2','platform':{'architecture':'amd64','os':'windows'}},{'digest':'d3','platform':{'architecture':'amd64','os':'windows'}}]}";
               statusCode := 200; resHeaders := [] |}
            [JSON.Object
               [("digest", JSON.Str "d1");
                ("platform", JSON.Object [("architecture", JSON.Str "arm64");
                                          ("os", JSON.Str "linux")])];
             JSON.Object
               [("digest", JSON.Str "d2");
                ("platform", JSON.Object [("architecture", JSON.Str "amd64");
                                          ("os", JSON.Str "windows")])];
             JSON.Object
               [("digest", JSON.Str "d3");
                ("platform", JSON.Object [("architecture", JSON.Str "amd64");
                                          ("os", JSON.Str "windows")])]]
            _ _ _ _).
  - reflexivity.
  - simpl. lia.
  - vm_compute. reflexivity.
  - reflexivity.
Defined.

(** No matching entry: undefined is returned, nothing is thrown. *)
Lemma getImageIndexEntryForPlatform_no_match :
  getImageIndexEntryForPlatform
    (answering 200 (JSON.dq "{'manifests':[{'digest':'d1','platform':{'architecture':'arm64','os':'linux'}}]}") [])
    "u" (FeatureRef sample_ref) {| arch := "x64"; os := "win32" |} None emptyWorld
  = Returns None
      (world_of (getImageIndexEntryForPlatform
         (answering 200 (JSON.dq "{'manifests':[{'digest':'d1','platform':{'architecture':'arm64','os':'linux'}}]}") [])
         "u" (FeatureRef sample_ref) {| arch := "x64"; os := "win32" |} None emptyWorld)).
Proof. vm_compute. reflexivity. Qed.

End PlatformTheorems.

(** * Further properties of the code *)

(** ** More string and array facts *)

Section MoreStringFacts.

Lemma all_chars_substring (q : ascii -> bool) (n m : nat) (s : string) :
  all_chars q s = true -> all_chars q (String.substring n m s) = true.
Proof.
  revert n m. induction s as [|c s IH]; intros n m H.
  - destruct n, m; reflexivity.
  - simpl in H. apply andb_true_iff in H as [Hc Hs].
    destruct n as [|n]; destruct m as [|m]; simpl; auto.
    rewrite Hc. simpl. now apply IH.
Qed.

Lemma all_chars_JS_substring (q : ascii -> bool) (s : string) (a : Z) (b : option Z) :
  all_chars q s = true -> all_chars q (JS.substring s a b) = true.
Proof. intros H. unfold JS.substring. now apply all_chars_substring. Qed.

Lemma all_chars_split (q : ascii -> bool) (c : ascii) (s : string) :
  all_chars q s = true -> Forall (fun x => all_chars q x = true) (JS.split c s).
Proof.
  induction s as [|x s IH]; intros H; simpl.
  - constructor; [reflexivity | constructor].
  - simpl in H. apply andb_true_iff in H as [Hx Hs]. specialize (IH Hs).
    destruct (Ascii.eqb x c).
    + constructor; [reflexivity | exact IH].
    + destruct (JS.split c s) as [|h t]; [repeat constructor; simpl; now rewrite Hx|].
      inversion IH; subst. constructor; [simpl; now rewrite Hx | assumption].
Qed.

Lemma all_chars_join (q : ascii -> bool) (sep : string) (l : list string) :
  all_chars q sep = true ->
  Forall (fun x => all_chars q x = true) l ->
  all_chars q (JS.join sep l) = true.
Proof.
  intros Hsep H. unfold JS.join. induction H as [|x l Hx Hl IH]; [reflexivity|].
  destruct l as [|y l]; [exact Hx|].
  change (String.concat sep (x :: y :: l)) with (x ++ sep ++ String.concat sep (y :: l)).
  rewrite !all_chars_append. now rewrite Hx, Hsep, IH.
Qed.

Lemma Forall_take {A : Type} (P : A -> Prop) (n : nat) (l : list A) :
  Forall P l -> Forall P (firstn n l).
Proof.
  intros H. revert n. induction H as [|x l Hx Hl IH]; intros [|n]; simpl;
    constructor; auto.
Qed.

Lemma Forall_drop {A : Type} (P : A -> Prop) (n : nat) (l : list A) :
  Forall P l -> Forall P (skipn n l).
Proof.
  intros H. revert n. induction H as [|x l Hx Hl IH]; intros [|n]; simpl; auto.
Qed.

Lemma Forall_slice {A : Type} (P : A -> Prop) (l : list A) (a b : Z) :
  Forall P l -> Forall P (JS.slice l a b).
Proof.
  intros H. unfold JS.slice. now apply Forall_take, Forall_drop.
Qed.

Lemma Forall_nth_default {A : Type} (P : A -> Prop) (l : list A) (n : nat) (d : A) :
  P d -> Forall P l -> P (nth n l d).
Proof.
  intros Hd H. revert n. induction H as [|x l Hx Hl IH]; intros [|n]; simpl; auto.
Qed.

(** The pieces of a split hold no separator. *)
Lemma split_pieces (c : ascii) (s : string) :
  Forall (fun x => JS.occurs c x = false) (JS.split c s).
Proof.
  induction s as [|x s IH]; simpl.
  - repeat constructor.
  - destruct (Ascii.eqb x c) eqn:E.
    + constructor; [reflexivity | exact IH].
    + destruct (JS.split c s) as [|h t]; [repeat constructor; simpl; now rewrite E|].
      inversion IH; subst. constructor; [simpl; now rewrite E | assumption].
Qed.

(** Splitting what was joined gives the pieces back, when no piece holds a
    separator. *)
Lemma split_join (c : ascii) (l : list string) :
  l <> [] ->
  Forall (fun x => JS.occurs c x = false) l ->
  JS.split c (JS.join (String c "") l) = l.
Proof.
  intros Hne H. induction H as [|x l Hx Hl IH]; [contradiction|].
  destruct l as [|y l].
  - simpl. now apply split_absent.
  - rewrite join_cons. change (x ++ String c "" ++ JS.join (String c "") (y :: l))
      with (x ++ String c (JS.join (String c "") (y :: l))).
    rewrite split_append by exact Hx. f_equal. apply IH. discriminate.
Qed.

Lemma lastIndexOf_at_least (a b : string) (c : ascii) :
  JS.len a <= JS.lastIndexOf (a ++ String c b) c.
Proof.
  unfold JS.lastIndexOf. rewrite lastIndexOf_from_append. simpl.
  rewrite Ascii.eqb_refl. pose proof (len_nonneg a).
  match goal with
  | |- context [JS.lastIndexOf_from b c ?i ?f] =>
      destruct (lastIndexOf_from_bound b c i f ltac:(lia)) as [E|E]; lia
  end.
Qed.

Lemma occurs_toLowerCase_colon (s : string) :
  JS.occurs ":" (JS.toLowerCase s) = JS.occurs ":" s.
Proof.
  induction s as [|c s IH]; simpl; [reflexivity|].
  now rewrite toLowerCase_colon, IH.
Qed.

End MoreStringFacts.

(** ** More about [getRef] *)

Section GetRefForms.

(** The reference built from [registry/path] once the tag check is passed. *)
Lemma ref_of_parts (registry path : string) (tag digest : option string) :
  JS.occurs "/" registry = false ->
  (1 <= JS.count "/" path)%nat ->
  test regexForPath path = true ->
  JS.truthy_opt tag && negb (test regexForVersionOrDigest (JS.show tag)) = false ->
  ref_of (registry ++ "/" ++ path) tag digest
  = Some {| OCIRef.registry := registry;
            OCIRef.owner := nth_error (registry :: JS.split "/" path) 1;
            OCIRef.namespace := JS.join "/" (removelast (JS.split "/" path));
            OCIRef.path := path;
            OCIRef.resource := registry ++ "/" ++ path;
            OCIRef.id := last (JS.split "/" path) "";
            OCIRef.version := JS.or_default (JS.or_else digest tag) "latest";
            OCIRef.tag := tag;
            OCIRef.digest := digest |}.
Proof.
  intros Hreg Hcount Hpath Htag. unfold ref_of. rewrite Htag.
  change (registry ++ "/" ++ path) with (registry ++ String "/" path).
  rewrite (split_append "/" registry path Hreg).
  rewrite slice_inner, nth_last.
  assert (L : (2 <= List.length (JS.split "/" path))%nat)
    by (rewrite split_length; lia).
  assert (E : last (registry :: JS.split "/" path) "" = last (JS.split "/" path) "").
  { destruct (JS.split "/" path); [simpl in L; lia | reflexivity]. }
  rewrite E. rewrite (join_removelast "/" _ "" L).
  rewrite (join_split "/" path). rewrite Hpath. reflexivity.
Qed.

Lemma qualifier_no_tag (input : string) :
  JS.occurs "@" input = false ->
  JS.lastIndexOf input ":" = -1
  \/ JS.lastIndexOf input ":" < JS.lastIndexOf input "/" ->
  qualifier input = Some (input, Some "latest", None).
Proof.
  intros Hat H. unfold qualifier.
  rewrite (lastIndexOf_absent _ _ Hat). change (negb (-1 =? -1)) with false.
  cbv iota.
  replace ((JS.lastIndexOf input ":" =? -1)
           || (JS.lastIndexOf input ":" <? JS.lastIndexOf input "/")) with true;
    [reflexivity|].
  symmetry. apply orb_true_iff. destruct H as [H|H].
  - left. now apply Z.eqb_eq.
  - right. now apply Z.ltb_lt.
Qed.

Lemma qualifier_digest_form (resource hex : string) :
  JS.occurs "@" hex = false -> JS.occurs ":" hex = false ->
  qualifier (resource ++ "@" ++ "sha256:" ++ hex)
  = Some (resource, None, Some ("sha256:" ++ hex)).
Proof.
  intros Hat Hcolon.
  assert (S : JS.split ":" ("sha256:" ++ hex) = ["sha256"; hex]).
  { change ("sha256:" ++ hex) with ("sha256" ++ String ":" hex).
    rewrite (split_append ":" "sha256" hex) by reflexivity.
    now rewrite (split_absent ":" hex Hcolon). }
  assert (O : JS.occurs "@" ("sha256:" ++ hex) = false) by (simpl; exact Hat).
  remember ("sha256:" ++ hex) as d eqn:Ed. unfold qualifier.
  change (resource ++ "@" ++ d) with (resource ++ String "@" d).
  rewrite (lastIndexOf_last resource d "@" O).
  pose proof (len_nonneg resource).
  replace (JS.len resource =? -1) with false by (symmetry; apply Z.eqb_neq; lia).
  simpl negb. cbv iota.
  rewrite substring_prefix, substring_suffix, S. reflexivity.
Qed.

(** Lower-casing the parts of [registry/ns/id]. *)
Lemma toLowerCase_resource (registry ns id : string) :
  JS.toLowerCase (registry ++ "/" ++ ns ++ "/" ++ id)
  = JS.toLowerCase registry ++ "/" ++ (JS.toLowerCase ns ++ "/" ++ JS.toLowerCase id).
Proof. rewrite !toLowerCase_append. reflexivity. Qed.

(** X1: without a version the tag is 'latest', also when the registry has
    a port: an input [registry/ns/id], whose registry holds neither slash
    nor at sign, parses to a reference with tag and version 'latest', no
    digest, the lower-cased input as resource and the lower-cased registry,
    port included, as registry. *)
Theorem getRef_default_latest (registry ns id : string) (w : World) :
  JS.occurs "/" registry = false ->
  JS.occurs "@" registry = false ->
  test regexForPath (JS.toLowerCase ns) = true ->
  test regexForPath (JS.toLowerCase id) = true ->
  exists r,
    result (getRef (registry ++ "/" ++ ns ++ "/" ++ id)) w = Some (Some r)
    /\ OCIRef.tag r = Some "latest"
    /\ OCIRef.version r = "latest"
    /\ OCIRef.digest r = None
    /\ OCIRef.resource r = JS.toLowerCase (registry ++ "/" ++ ns ++ "/" ++ id)
    /\ OCIRef.registry r = JS.toLowerCase registry.
Proof.
  intros Hslash Hat Hns Hid.
  rewrite getRef_result. unfold getRef_value. rewrite toLowerCase_resource.
  set (r := JS.toLowerCase registry).
  set (p := JS.toLowerCase ns ++ "/" ++ JS.toLowerCase id).
  assert (Hp : test regexForPath p = true) by now apply regexForPath_join.
  destruct (regexForPath_plain p Hp) as [Hp_colon Hp_at].
  assert (Hr_slash : JS.occurs "/" r = false)
    by (subst r; now rewrite occurs_toLowerCase_slash).
  assert (Hr_at : JS.occurs "@" r = false)
    by (subst r; now rewrite occurs_toLowerCase_at).
  rewrite qualifier_no_tag.
  - rewrite ref_of_parts; auto.
    + eexists. split; [reflexivity|]. simpl. repeat split.
    + subst p. rewrite count_append. simpl. lia.
  - rewrite occurs_append. simpl. now rewrite Hr_at, Hp_at.
  - change (r ++ "/" ++ p) with (r ++ String "/" p).
    pose proof (lastIndexOf_at_least r p "/") as B.
    rewrite (lastIndexOf_tail_absent r (String "/" p) ":")
      by (simpl; exact Hp_colon).
    destruct (lastIndexOf_bound r ":") as [C|C]; [right; lia | now left].
Qed.

Lemma getRef_default_latest_witness :
  exists r,
    result (getRef ("GHCR.io:8081" ++ "/" ++ "codspace/features" ++ "/" ++ "ruby"))
           emptyWorld = Some (Some r)
    /\ OCIRef.tag r = Some "latest"
    /\ OCIRef.version r = "latest"
    /\ OCIRef.digest r = None
    /\ OCIRef.resource r
       = JS.toLowerCase ("GHCR.io:8081" ++ "/" ++ "codspace/features" ++ "/" ++ "ruby")
    /\ OCIRef.registry r = JS.toLowerCase "GHCR.io:8081".
Proof.
  apply (getRef_default_latest "GHCR.io:8081" "codspace/features" "ruby" emptyWorld);
    reflexivity.
Defined.

(** X2: the digest form parses and spells the input back: for
    [registry/ns/id@sha256:hex] with a well-formed hex part, the reference
    has the digest [sha256:hex] in lower case, no tag, and its resource, an
    at sign and its version are the lower-cased input. *)
Theorem getRef_digest_roundtrip (registry ns id hex : string) (w : World) :
  JS.occurs "/" registry = false ->
  JS.occurs "@" registry = false ->
  test regexForPath (JS.toLowerCase ns) = true ->
  test regexForPath (JS.toLowerCase id) = true ->
  test regexForVersionOrDigest hex = true ->
  exists r,
    result (getRef (registry ++ "/" ++ ns ++ "/" ++ id ++ "@sha256:" ++ hex)) w
    = Some (Some r)
    /\ OCIRef.digest r = Some ("sha256:" ++ JS.toLowerCase hex)
    /\ OCIRef.tag r = None
    /\ OCIRef.resource r ++ "@" ++ OCIRef.version r
       = JS.toLowerCase (registry ++ "/" ++ ns ++ "/" ++ id ++ "@sha256:" ++ hex).
Proof.
  intros Hslash Hat Hns Hid Hhex.
  rewrite getRef_result. unfold getRef_value.
  set (r := JS.toLowerCase registry).
  set (p := JS.toLowerCase ns ++ "/" ++ JS.toLowerCase id).
  set (h := JS.toLowerCase hex).
  assert (L : JS.toLowerCase (registry ++ "/" ++ ns ++ "/" ++ id ++ "@sha256:" ++ hex)
              = (r ++ "/" ++ p) ++ "@" ++ "sha256:" ++ h).
  { rewrite !toLowerCase_append. subst r p h.
    change (JS.toLowerCase "/") with "/".
    change (JS.toLowerCase "@sha256:") with "@sha256:".
    rewrite !append_assoc. reflexivity. }
  rewrite L.
  assert (Hp : test regexForPath p = true) by now apply regexForPath_join.
  assert (Hh : test regexForVersionOrDigest h = true)
    by now apply regexForVersionOrDigest_toLowerCase.
  destruct (regexForVersionOrDigest_plain h Hh) as (Hne & Hh_colon & Hh_at & _).
  assert (Hr_slash : JS.occurs "/" r = false)
    by (subst r; now rewrite occurs_toLowerCase_slash).
  rewrite qualifier_digest_form by assumption.
  rewrite ref_of_parts; auto.
  2:{ subst p. rewrite count_append. simpl. lia. }
  eexists. split; [reflexivity|]. simpl.
  split; [reflexivity|]. split; [reflexivity|]. reflexivity.
Qed.

Lemma getRef_digest_roundtrip_witness :
  exists r,
    result (getRef ("ghcr.io" ++ "/" ++ "DevContainers/features" ++ "/" ++ "go"
                    ++ "@sha256:" ++ "FE73f123927bd9ed")) emptyWorld
    = Some (Some r)
    /\ OCIRef.digest r = Some ("sha256:" ++ JS.toLowerCase "FE73f123927bd9ed")
    /\ OCIRef.tag r = None
    /\ OCIRef.resource r ++ "@" ++ OCIRef.version r
       = JS.toLowerCase ("ghcr.io" ++ "/" ++ "DevContainers/features" ++ "/" ++ "go"
                         ++ "@sha256:" ++ "FE73f123927bd9ed").
Proof.
  apply (getRef_digest_roundtrip "ghcr.io" "DevContainers/features" "go"
                                 "FE73f123927bd9ed" emptyWorld); reflexivity.
Defined.

End GetRefForms.

Section GetRefInvariants.

Lemma getRef_value_inv (input : string) (r : OCIRef.t) :
  getRef_value input = Some r ->
  exists resource tag digest,
    qualifier (JS.toLowerCase input) = Some (resource, tag, digest)
    /\ ref_of resource tag digest = Some r.
Proof.
  unfold getRef_value.
  destruct (qualifier (JS.toLowerCase input)) as [[[resource tag] digest]|];
    [|discriminate].
  intros H. now exists resource, tag, digest.
Qed.

(** What a successful [ref_of] says about its arguments. *)
Lemma ref_of_inv (resource : string) (tag digest : option string) (r : OCIRef.t) :
  ref_of resource tag digest = Some r ->
  JS.truthy_opt tag && negb (test regexForVersionOrDigest (JS.show tag)) = false
  /\ test regexForPath (OCIRef.path r) = true
  /\ r = {| OCIRef.registry := nth 0 (JS.split "/" resource) "";
            OCIRef.owner := nth_error (JS.split "/" resource) 1;
            OCIRef.namespace := JS.join "/" (JS.slice (JS.split "/" resource) 1 (-1));
            OCIRef.path := JS.join "/" (JS.slice (JS.split "/" resource) 1 (-1))
                           ++ "/" ++ nth (List.length (JS.split "/" resource) - 1)
                                         (JS.split "/" resource) "";
            OCIRef.resource := resource;
            OCIRef.id := nth (List.length (JS.split "/" resource) - 1)
                             (JS.split "/" resource) "";
            OCIRef.version := JS.or_default (JS.or_else digest tag) "latest";
            OCIRef.tag := tag;
            OCIRef.digest := digest |}.
Proof.
  unfold ref_of.
  destruct (JS.truthy_opt tag && _) eqn:T; [discriminate|].
  destruct (test regexForPath _) eqn:P; [|discriminate].
  simpl negb. cbv iota. intros H. inversion H; subst r; clear H. simpl.
  repeat split. exact P.
Qed.

Lemma getRef_value_shape (input : string) (r : OCIRef.t) :
  getRef_value input = Some r ->
  OCIRef.resource r
  = OCIRef.registry r ++ "/" ++ OCIRef.namespace r ++ "/" ++ OCIRef.id r
  /\ OCIRef.path r = OCIRef.namespace r ++ "/" ++ OCIRef.id r
  /\ test regexForPath (OCIRef.path r) = true
  /\ JS.occurs "/" (OCIRef.registry r) = false
  /\ JS.occurs "/" (OCIRef.id r) = false
  /\ OCIRef.owner r = Some (nth 0 (JS.split "/" (OCIRef.namespace r)) "").
Proof.
  intros H'.
  destruct (getRef_value_inv _ _ H') as (resource & tag & digest & _ & R).
  pose proof (ref_of_namespace _ _ _ _ R) as N.
  destruct (ref_of_inv _ _ _ _ R) as (_ & P & E).
  pose proof (join_split "/" resource) as J.
  pose proof (split_pieces "/" resource) as F.
  rewrite E in N, P |- *. simpl in N, P |- *. clear E R H'.
  destruct (JS.split "/" resource) as [|x m]; [simpl in N; contradiction|].
  rewrite slice_inner in *. rewrite nth_last in *.
  destruct m as [|y m]; [simpl in N; contradiction|].
  destruct m as [|z m]; [simpl in N; contradiction|].
  change (last (x :: y :: z :: m) "") with (last (y :: z :: m) "") in *.
  apply Forall_cons_iff in F as [Fx Fm].
  assert (Fr : Forall (fun s => JS.occurs "/" s = false) (removelast (y :: z :: m))).
  { rewrite removelast_firstn_len. now apply Forall_take. }
  split.
  { rewrite <- J. rewrite join_cons.
    now rewrite <- (join_removelast "/" (y :: z :: m) "") by (simpl; lia). }
  split; [reflexivity|]. split; [exact P|]. split; [exact Fx|].
  split.
  { destruct (exists_last (l := y :: z :: m)) as (l' & a & El); [discriminate|].
    rewrite El in Fm |- *. rewrite last_last.
    apply Forall_app in Fm as [_ Fa]. now inversion Fa. }
  simpl nth_error.
  rewrite (split_join "/" (removelast (y :: z :: m))); [reflexivity| |exact Fr].
  discriminate.
Qed.

(** X3: the parts of a reference fit together: the resource is
    [registry/namespace/id], the path is [namespace/id] and matches the path
    pattern, registry and id hold no slash, and the owner is the first
    component of the namespace. *)
Theorem getRef_shape (input : string) (w : World) (r : OCIRef.t) :
  result (getRef input) w = Some (Some r) ->
  OCIRef.resource r
  = OCIRef.registry r ++ "/" ++ OCIRef.namespace r ++ "/" ++ OCIRef.id r
  /\ OCIRef.path r = OCIRef.namespace r ++ "/" ++ OCIRef.id r
  /\ test regexForPath (OCIRef.path r) = true
  /\ JS.occurs "/" (OCIRef.registry r) = false
  /\ JS.occurs "/" (OCIRef.id r) = false
  /\ OCIRef.owner r = Some (nth 0 (JS.split "/" (OCIRef.namespace r)) "").
Proof.
  rewrite getRef_result. intros H. inversion H as [H'].
  now apply (getRef_value_shape input).
Qed.

Lemma getRef_shape_witness :
  OCIRef.resource sample_ref
  = OCIRef.registry sample_ref ++ "/" ++ OCIRef.namespace sample_ref ++ "/"
    ++ OCIRef.id sample_ref
  /\ OCIRef.path sample_ref = OCIRef.namespace sample_ref ++ "/" ++ OCIRef.id sample_ref
  /\ test regexForPath (OCIRef.path sample_ref) = true
  /\ JS.occurs "/" (OCIRef.registry sample_ref) = false
  /\ JS.occurs "/" (OCIRef.id sample_ref) = false
  /\ OCIRef.owner sample_ref
     = Some (nth 0 (JS.split "/" (OCIRef.namespace sample_ref)) "").
Proof.
  apply (getRef_shape "GHCR.io/org/feat" emptyWorld sample_ref).
  vm_compute. reflexivity.
Defined.

End GetRefInvariants.

Section GetRefNormalForm.

Lemma toLowerCase_char_idempotent (c : ascii) :
  lowercase_char (JS.toLowerCase_char c) = true.
Proof. destruct c as [[] [] [] [] [] [] [] []]; vm_compute; reflexivity. Qed.

Lemma lowercase_toLowerCase (s : string) : lowercase (JS.toLowerCase s) = true.
Proof.
  unfold lowercase. induction s as [|c s IH]; simpl; [reflexivity|].
  now rewrite toLowerCase_char_idempotent, IH.
Qed.

Lemma lowercase_fixed (s : string) : lowercase s = true -> JS.toLowerCase s = s.
Proof.
  unfold lowercase. induction s as [|c s IH]; simpl; [reflexivity|].
  intros H. apply andb_true_iff in H as [Hc Hs].
  unfold lowercase_char in Hc. apply Ascii.eqb_eq in Hc.
  now rewrite Hc, (IH Hs).
Qed.

Lemma qualifier_lowercase (input resource : string) (tag digest : option string) :
  lowercase input = true ->
  qualifier input = Some (resource, tag, digest) ->
  lowercase resource = true
  /\ lowercase (JS.show tag) = true /\ lowercase (JS.show digest) = true.
Proof.
  intros L. unfold qualifier.
  destruct (negb (JS.lastIndexOf input "@" =? -1)).
  - destruct (negb (_ =? 2)%nat); [discriminate|].
    destruct (negb (String.eqb _ "sha256")); [discriminate|].
    intros H. inversion H; subst; clear H. simpl.
    repeat split; try reflexivity; now apply all_chars_JS_substring.
  - destruct (_ || _); intros H; inversion H; subst; clear H; simpl;
      repeat split; try reflexivity; try assumption;
      now apply all_chars_JS_substring.
Qed.

Lemma or_default_cases (a : option string) (d : string) :
  JS.or_default a d = d
  \/ exists x, a = Some x /\ x <> "" /\ JS.or_default a d = x.
Proof.
  unfold JS.or_default, JS.or_else. destruct a as [x|]; simpl; [|now left].
  unfold JS.truthy. destruct (String.eqb_spec x ""); simpl; [now left|].
  right. exists x. auto.
Qed.

Lemma or_else_cases (a b : option string) :
  JS.or_else a b = a \/ JS.or_else a b = b.
Proof. unfold JS.or_else. destruct (JS.truthy_opt a); auto. Qed.

Lemma getRef_value_lowercase (input : string) (r : OCIRef.t) :
  getRef_value input = Some r ->
  JS.toLowerCase (OCIRef.resource r) = OCIRef.resource r
  /\ JS.toLowerCase (OCIRef.registry r) = OCIRef.registry r
  /\ JS.toLowerCase (OCIRef.namespace r) = OCIRef.namespace r
  /\ JS.toLowerCase (OCIRef.id r) = OCIRef.id r
  /\ JS.toLowerCase (OCIRef.path r) = OCIRef.path r
  /\ JS.toLowerCase (OCIRef.version r) = OCIRef.version r
  /\ (forall t, OCIRef.tag r = Some t -> JS.toLowerCase t = t)
  /\ (forall d, OCIRef.digest r = Some d -> JS.toLowerCase d = d).
Proof.
  intros H'.
  destruct (getRef_value_inv _ _ H') as (resource & tag & digest & Q & R).
  destruct (qualifier_lowercase _ _ _ _ (lowercase_toLowerCase input) Q)
    as (Lr & Lt & Ld).
  destruct (ref_of_inv _ _ _ _ R) as (_ & _ & E). rewrite E. simpl.
  pose proof (all_chars_split lowercase_char "/" resource Lr) as F.
  assert (Lid : lowercase (nth (List.length (JS.split "/" resource) - 1)
                               (JS.split "/" resource) "") = true)
    by (apply Forall_nth_default; [reflexivity | exact F]).
  assert (Lns : lowercase (JS.join "/" (JS.slice (JS.split "/" resource) 1 (-1))) = true)
    by (apply all_chars_join; [reflexivity | now apply Forall_slice]).
  split; [now apply lowercase_fixed|].
  split; [apply lowercase_fixed, Forall_nth_default; [reflexivity | exact F]|].
  split; [now apply lowercase_fixed|].
  split; [now apply lowercase_fixed|].
  split.
  { apply lowercase_fixed. unfold lowercase. rewrite !all_chars_append.
    unfold lowercase in Lns, Lid. rewrite Lns. simpl. now rewrite Lid. }
  split.
  { apply lowercase_fixed.
    destruct (or_default_cases (JS.or_else digest tag) "latest") as [D|(x & D1 & _ & D2)].
    - now rewrite D.
    - rewrite D2. destruct (or_else_cases digest tag) as [O|O]; rewrite O in D1;
        [now rewrite D1 in Ld | now rewrite D1 in Lt]. }
  split.
  - intros t Et. subst tag. now apply lowercase_fixed.
  - intros d Ed. subst digest. now apply lowercase_fixed.
Qed.

(** X4: a reference is in lower case throughout: resource, registry,
    namespace, id, path and version, and the tag or digest that is defined,
    are left unchanged by [toLowerCase]. *)
Theorem getRef_lowercase (input : string) (w : World) (r : OCIRef.t) :
  result (getRef input) w = Some (Some r) ->
  JS.toLowerCase (OCIRef.resource r) = OCIRef.resource r
  /\ JS.toLowerCase (OCIRef.registry r) = OCIRef.registry r
  /\ JS.toLowerCase (OCIRef.namespace r) = OCIRef.namespace r
  /\ JS.toLowerCase (OCIRef.id r) = OCIRef.id r
  /\ JS.toLowerCase (OCIRef.path r) = OCIRef.path r
  /\ JS.toLowerCase (OCIRef.version r) = OCIRef.version r
  /\ (forall t, OCIRef.tag r = Some t -> JS.toLowerCase t = t)
  /\ (forall d, OCIRef.digest r = Some d -> JS.toLowerCase d = d).
Proof.
  rewrite getRef_result. intros H. inversion H as [H'].
  now apply (getRef_value_lowercase input).
Qed.

Lemma getRef_lowercase_witness :
  JS.toLowerCase (OCIRef.resource sample_ref) = OCIRef.resource sample_ref
  /\ JS.toLowerCase (OCIRef.registry sample_ref) = OCIRef.registry sample_ref
  /\ JS.toLowerCase (OCIRef.namespace sample_ref) = OCIRef.namespace sample_ref
  /\ JS.toLowerCase (OCIRef.id sample_ref) = OCIRef.id sample_ref
  /\ JS.toLowerCase (OCIRef.path sample_ref) = OCIRef.path sample_ref
  /\ JS.toLowerCase (OCIRef.version sample_ref) = OCIRef.version sample_ref
  /\ (forall t, OCIRef.tag sample_ref = Some t -> JS.toLowerCase t = t)
  /\ (forall d, OCIRef.digest sample_ref = Some d -> JS.toLowerCase d = d).
Proof.
  apply (getRef_lowercase "GHCR.IO/Org/Feat" emptyWorld sample_ref).
  vm_compute. reflexivity.
Defined.

(** X5: the version of a reference is never empty, and a tag that is not
    empty matches the tag pattern (so it holds no colon, slash or at sign). *)
Theorem getRef_version_and_tag (input : string) (w : World) (r : OCIRef.t) :
  result (getRef input) w = Some (Some r) ->
  OCIRef.version r <> ""
  /\ (forall t, OCIRef.tag r = Some t -> t <> "" ->
                test regexForVersionOrDigest t = true).
Proof.
  rewrite getRef_result. intros H. inversion H as [H']. clear H.
  destruct (getRef_value_inv _ _ H') as (resource & tag & digest & _ & R).
  destruct (ref_of_inv _ _ _ _ R) as (T & _ & E). rewrite E. simpl. split.
  - destruct (or_default_cases (JS.or_else digest tag) "latest") as [D|(x & _ & N & D)];
      rewrite D; [discriminate | exact N].
  - intros t Et Hne. subst tag. simpl in T.
    unfold JS.truthy in T. apply String.eqb_neq in Hne. rewrite Hne in T.
    simpl in T. now destruct (test regexForVersionOrDigest t).
Qed.

Lemma getRef_version_and_tag_witness :
  OCIRef.version sample_ref <> ""
  /\ (forall t, OCIRef.tag sample_ref = Some t -> t <> "" ->
                test regexForVersionOrDigest t = true).
Proof.
  apply (getRef_version_and_tag "ghcr.io/org/feat" emptyWorld sample_ref).
  vm_compute. reflexivity.
Defined.

End GetRefNormalForm.

Section GetRefLog.

Lemma getRef_qualifier_log (input : string) (w : World) :
  exists l,
    getRef_qualifier input w
    = Returns (qualifier input) {| output := output w ++ l; sent := sent w |}
    /\ forallb is_error l = true
    /\ (qualifier input = None -> l <> []).
Proof.
  unfold getRef_qualifier, qualifier, bind, write, ret.
  destruct (negb (JS.lastIndexOf input "@" =? -1)).
  - destruct (negb (_ =? 2)%nat).
    + eexists [_]. split; [reflexivity|]. split; [reflexivity | discriminate].
    + destruct (negb (String.eqb _ "sha256")).
      * eexists [_]. split; [reflexivity|]. split; [reflexivity | discriminate].
      * destruct (negb (test regexForVersionOrDigest _)).
        -- eexists [_]. split; [reflexivity|]. split; [reflexivity | discriminate].
        -- exists []. rewrite app_nil_r. destruct w.
           split; [reflexivity|]. split; [reflexivity | discriminate].
  - destruct (_ || _); exists []; rewrite app_nil_r; destruct w;
      (split; [reflexivity|]; split; [reflexivity | discriminate]).
Qed.

Lemma getRef_log (input : string) (w : World) :
  exists l,
    getRef input w
    = Returns (getRef_value input) {| output := output w ++ l; sent := sent w |}
    /\ (getRef_value input = None -> l <> [] /\ forallb is_error l = true).
Proof.
  unfold getRef, getRef_value.
  destruct (getRef_qualifier_log (JS.toLowerCase input) w) as (l & E & F & N).
  unfold bind at 1. rewrite E.
  destruct (qualifier (JS.toLowerCase input)) as [[[resource tag] digest]|].
  - unfold ref_of.
    destruct (JS.truthy_opt tag && negb (test regexForVersionOrDigest (JS.show tag))).
    + unfold bind, write, ret. cbn [output sent].
      eexists (l ++ [_])%list. split; [rewrite app_assoc; reflexivity|].
      intros _. split; [now destruct l|]. rewrite forallb_app, F. reflexivity.
    + destruct (negb (test regexForPath _)).
      * unfold bind, write, ret. cbn [output sent].
        eexists (l ++ [_])%list. split; [rewrite app_assoc; reflexivity|].
        intros _. split; [now destruct l|]. rewrite forallb_app, F. reflexivity.
      * unfold bind, write, ret. cbn [output sent].
        eexists. split; [|discriminate].
        rewrite <- !app_assoc. reflexivity.
  - unfold ret. exists l. split; [reflexivity|]. intros _. split; auto.
Qed.

(** X6: when [getRef] gives up it says why: it returns undefined only after
    writing to the log, every entry it then wrote is an error, and it sends
    nothing to any registry. *)
Theorem getRef_failure_logged (input : string) (w : World) :
  result (getRef input) w = Some None ->
  exists l,
    output (world_of (getRef input w)) = (output w ++ l)%list
    /\ l <> []
    /\ forallb is_error l = true
    /\ sent (world_of (getRef input w)) = sent w.
Proof.
  unfold result. destruct (getRef_log input w) as (l & E & H). rewrite E.
  intros R. inversion R as [V]. destruct (H V) as [Hne Herr].
  exists l. simpl. auto.
Qed.

Lemma getRef_failure_logged_witness :
  exists l,
    output (world_of (getRef "ghcr.io/feat" emptyWorld)) = (output emptyWorld ++ l)%list
    /\ l <> []
    /\ forallb is_error l = true
    /\ sent (world_of (getRef "ghcr.io/feat" emptyWorld)) = sent emptyWorld.
Proof.
  apply (getRef_failure_logged "ghcr.io/feat" emptyWorld).
  vm_compute. reflexivity.
Defined.

End GetRefLog.

(** ** [getCollectionRef] *)

Section CollectionRefTheorems.

(** What precedes the last slash of a path is a path. *)
Lemma regexForPath_prefix (a b : string) :
  test regexForPath (a ++ "/" ++ b) = true -> test regexForPath a = true.
Proof.
  rewrite !test_regexForPath. unfold path_accepts.
  change (a ++ "/" ++ b) with (a ++ String "/" b).
  rewrite path_run_append.
  destruct (path_run ComponentStart a) as [[]|]; simpl; auto; discriminate.
Qed.

Lemma getCollectionRef_result (registry namespace : string) (w : World) :
  result (getCollectionRef registry namespace) w
  = Some (if test regexForPath (JS.toLowerCase namespace)
          then Some {| OCICollectionRef.registry := JS.toLowerCase registry;
                       OCICollectionRef.path := JS.toLowerCase namespace;
                       OCICollectionRef.resource :=
                         JS.toLowerCase registry ++ "/" ++ JS.toLowerCase namespace;
                       OCICollectionRef.tag := "latest";
                       OCICollectionRef.version := "latest" |}
          else None).
Proof.
  unfold result, getCollectionRef, bind, write, ret.
  destruct (test regexForPath (JS.toLowerCase namespace)); reflexivity.
Qed.

(** X7: [getCollectionRef] looks at the namespace only: it returns a
    reference exactly when the lower-cased namespace matches the path
    pattern, whatever the registry is (even empty).  The reference is pinned
    to 'latest', its resource is [registry/path], and registry and path are
    in lower case. *)
Theorem getCollectionRef_accepts (registry namespace : string) (w : World) :
  ((exists c, result (getCollectionRef registry namespace) w = Some (Some c))
   <-> test regexForPath (JS.toLowerCase namespace) = true)
  /\ (result (getCollectionRef registry namespace) w = Some None
      <-> test regexForPath (JS.toLowerCase namespace) = false)
  /\ (forall c, result (getCollectionRef registry namespace) w = Some (Some c) ->
        OCICollectionRef.tag c = "latest"
        /\ OCICollectionRef.version c = "latest"
        /\ OCICollectionRef.resource c
           = OCICollectionRef.registry c ++ "/" ++ OCICollectionRef.path c
        /\ OCICollectionRef.registry c = JS.toLowerCase registry
        /\ OCICollectionRef.path c = JS.toLowerCase namespace
        /\ JS.toLowerCase (OCICollectionRef.resource c) = OCICollectionRef.resource c).
Proof.
  rewrite getCollectionRef_result.
  destruct (test regexForPath (JS.toLowerCase namespace)) eqn:T.
  - split; [split; [reflexivity | intros _; eexists; reflexivity]|].
    split; [split; discriminate|].
    intros c H. inversion H; subst c; clear H. simpl. repeat split.
    apply lowercase_fixed. unfold lowercase. rewrite !all_chars_append.
    pose proof (lowercase_toLowerCase registry) as L1.
    pose proof (lowercase_toLowerCase namespace) as L2.
    unfold lowercase in L1, L2. rewrite L1. simpl. exact L2.
  - split; [split; [intros [c H]; discriminate | discriminate]|].
    split; [split; reflexivity|].
    intros c H. discriminate.
Qed.

Lemma getCollectionRef_accepts_witness :
  test regexForPath (JS.toLowerCase "DevContainers/Features") = true
  /\ exists c,
       result (getCollectionRef "GHCR.io" "DevContainers/Features") emptyWorld
       = Some (Some c).
Proof.
  split; [reflexivity|].
  apply (proj1 (getCollectionRef_accepts "GHCR.io" "DevContainers/Features"
                                         emptyWorld)).
  reflexivity.
Defined.

(** X8: the collection of a feature: for every reference [getRef] returns,
    [getCollectionRef] applied to its registry and namespace succeeds, keeps
    both as they are, and gives a resource that, followed by a slash and the
    id, is the resource of the reference. *)
Theorem getCollectionRef_of_ref (input : string) (w w' : World) (r : OCIRef.t) :
  result (getRef input) w = Some (Some r) ->
  exists c,
    result (getCollectionRef (OCIRef.registry r) (OCIRef.namespace r)) w'
    = Some (Some c)
    /\ OCICollectionRef.registry c = OCIRef.registry r
    /\ OCICollectionRef.path c = OCIRef.namespace r
    /\ OCIRef.resource r = OCICollectionRef.resource c ++ "/" ++ OCIRef.id r.
Proof.
  rewrite getRef_result. intros H. inversion H as [V]. clear H.
  destruct (getRef_value_shape input r V) as (Hres & Hpath & Hre & _).
  destruct (getRef_value_lowercase input r V) as (_ & Lreg & Lns & _).
  rewrite getCollectionRef_result. rewrite Lreg, Lns.
  rewrite Hpath in Hre. rewrite (regexForPath_prefix _ _ Hre).
  eexists. split; [reflexivity|]. simpl.
  split; [reflexivity|]. split; [reflexivity|].
  rewrite Hres. now rewrite !append_assoc.
Qed.

Lemma getCollectionRef_of_ref_witness :
  exists c,
    result (getCollectionRef (OCIRef.registry sample_ref) (OCIRef.namespace sample_ref))
           emptyWorld = Some (Some c)
    /\ OCICollectionRef.registry c = OCIRef.registry sample_ref
    /\ OCICollectionRef.path c = OCIRef.namespace sample_ref
    /\ OCIRef.resource sample_ref
       = OCICollectionRef.resource c ++ "/" ++ OCIRef.id sample_ref.
Proof.
  apply (getCollectionRef_of_ref "ghcr.io/org/feat" emptyWorld emptyWorld sample_ref).
  vm_compute. reflexivity.
Defined.

End CollectionRefTheorems.

(** ** More about the registry client *)

Section ClientOutcomes.

Variable registry : HttpOptions -> AnyRef -> Answer.

Lemma getJsonWithMimeType_result (url : string) (ref : AnyRef) (mimeType : string)
      (w : World) :
  result (getJsonWithMimeType registry url ref mimeType) w
  = json_outcome (registry (json_request url mimeType) ref).
Proof.
  unfold result, getJsonWithMimeType, try_catch, bind, request, json_request,
    json_outcome.
  destruct (registry _ ref) as [r| |reason]; simpl; try reflexivity.
  destruct (299 <? statusCode r); simpl; [reflexivity|].
  unfold JSON_parse. destruct (JSON.parse (resBody r)); reflexivity.
Qed.

Lemma getJsonWithMimeType_no_throw (url : string) (ref : AnyRef) (mimeType : string)
      (w : World) (e : Exception) (w' : World) :
  getJsonWithMimeType registry url ref mimeType w <> Throws e w'.
Proof.
  unfold getJsonWithMimeType, try_catch, bind, request.
  destruct (registry _ ref) as [r| |reason]; simpl; try discriminate.
  destruct (299 <? statusCode r); simpl; [discriminate|].
  unfold JSON_parse. destruct (JSON.parse (resBody r)); discriminate.
Qed.

(** X9: [getJsonWithMimeType] never throws.  It returns a parsed body, with
    the response headers, exactly when the registry responds with a status
    of at most 299 and a body that parses; a missing response, a rejected
    request, a status above 299 and a malformed body all give undefined. *)
Theorem getJsonWithMimeType_total (url : string) (ref : AnyRef) (mimeType : string)
        (w : World) :
  (forall e w', getJsonWithMimeType registry url ref mimeType w <> Throws e w')
  /\ (forall v hs,
        result (getJsonWithMimeType registry url ref mimeType) w = Some (Some (v, hs))
        <-> exists r, registry (json_request url mimeType) ref = Responds r
                      /\ statusCode r <= 299
                      /\ JSON.parse (resBody r) = JSON.Parsed v
                      /\ hs = resHeaders r)
  /\ (registry (json_request url mimeType) ref = NoResponse
      \/ (exists reason, registry (json_request url mimeType) ref = Fails reason)
      \/ (exists r, registry (json_request url mimeType) ref = Responds r
                    /\ (299 < statusCode r \/ JSON.parse (resBody r) = JSON.Malformed))
      -> result (getJsonWithMimeType registry url ref mimeType) w = Some None).
Proof.
  split; [intros e w'; apply getJsonWithMimeType_no_throw|].
  rewrite getJsonWithMimeType_result. unfold json_outcome. split.
  - intros v hs. split.
    + destruct (registry _ ref) as [r| |reason]; try discriminate.
      destruct (Z.ltb_spec 299 (statusCode r)) as [L|L]; [discriminate|].
      destruct (JSON.parse (resBody r)) as [v'| |] eqn:P; try discriminate.
      intros E. inversion E; subst. exists r. auto.
    + intros (r & Hr & Hs & Hp & Hh). rewrite Hr.
      replace (299 <? statusCode r) with false by (symmetry; apply Z.ltb_ge; lia).
      now rewrite Hp, Hh.
  - intros [H|[(reason & H)|(r & H & [Hs|Hp])]]; rewrite H; try reflexivity.
    + now replace (299 <? statusCode r) with true by (symmetry; apply Z.ltb_lt; lia).
    + destruct (299 <? statusCode r); [reflexivity | now rewrite Hp].
Qed.

Lemma getManifest_result (url : string) (ref : AnyRef) (mimeType : option string)
      (w : World) :
  result (getManifest registry url ref mimeType) w
  = option_map
      (option_map (fun bh =>
         {| contentDigest := digest_of (snd bh) (fst bh);
            manifestObj := fst bh;
            manifestStr := JSON.stringify (fst bh);
            canonicalId := ref_resource ref ++ "@" ++ digest_of (snd bh) (fst bh) |}))
      (json_outcome
         (registry (json_request url
                      (JS.or_default mimeType "application/vnd.oci.image.manifest.v1+json"))
                   ref)).
Proof.
  rewrite <- (getJsonWithMimeType_result url ref _ w).
  unfold result, getManifest. unfold bind at 1.
  destruct (getJsonWithMimeType registry url ref _ w) as [[[body hs]|] w1|e w1|w1];
    reflexivity.
Qed.

Lemma digest_of_nonempty (hs : list (string * string)) (v : JSON.value) :
  digest_of hs v <> "".
Proof.
  unfold digest_of.
  destruct (JS.or_else _ _) as [d|]; simpl; [|discriminate].
  unfold JS.truthy. destruct (String.eqb_spec d ""); simpl; [discriminate | assumption].
Qed.

Lemma getManifest_inv (url : string) (ref : AnyRef)
        (mimeType : option string) (w : World) (c : ManifestContainer) :
  result (getManifest registry url ref mimeType) w = Some (Some c) ->
  canonicalId c = ref_resource ref ++ "@" ++ contentDigest c
  /\ manifestStr c = JSON.stringify (manifestObj c)
  /\ contentDigest c <> ""
  /\ exists r,
       registry (json_request url
                   (JS.or_default mimeType "application/vnd.oci.image.manifest.v1+json"))
                ref = Responds r
       /\ statusCode r <= 299
       /\ JSON.parse (resBody r) = JSON.Parsed (manifestObj c).
Proof.
  rewrite getManifest_result. unfold json_outcome.
  destruct (registry _ ref) as [r| |reason]; try discriminate.
  destruct (Z.ltb_spec 299 (statusCode r)) as [L|L]; [discriminate|].
  destruct (JSON.parse (resBody r)) as [v| |] eqn:P; try discriminate.
  simpl. intros E. inversion E; subst c; clear E. simpl.
  split; [reflexivity|]. split; [reflexivity|].
  split; [apply digest_of_nonempty|].
  exists r. auto.
Qed.

(** X10: every container [getManifest] returns is consistent: its
    canonical id is the reference's resource, an at sign and the content
    digest; its manifest string is the serialized manifest object; its
    content digest is not empty; and it comes from a response with a status
    of at most 299 whose body parses to that object. *)
Theorem getManifest_container (url : string) (ref : AnyRef)
        (mimeType : option string) (w : World) (c : ManifestContainer) :
  result (getManifest registry url ref mimeType) w = Some (Some c) ->
  canonicalId c = ref_resource ref ++ "@" ++ contentDigest c
  /\ manifestStr c = JSON.stringify (manifestObj c)
  /\ contentDigest c <> ""
  /\ exists r,
       registry (json_request url
                   (JS.or_default mimeType "application/vnd.oci.image.manifest.v1+json"))
                ref = Responds r
       /\ statusCode r <= 299
       /\ JSON.parse (resBody r) = JSON.Parsed (manifestObj c).
Proof. apply getManifest_inv. Qed.

(** X11: a digest header wins over hashing, and the lower-case header name
    wins over the capitalised one: a non-empty [docker-content-digest] is
    the content digest; failing that a non-empty [Docker-Content-Digest]
    is; an empty header counts as missing. *)
Theorem getManifest_header_digest (url : string) (ref : AnyRef)
        (mimeType : option string) (w : World) (r : HttpResponse) (v : JSON.value) :
  registry (json_request url
              (JS.or_default mimeType "application/vnd.oci.image.manifest.v1+json"))
           ref = Responds r ->
  statusCode r <= 299 ->
  JSON.parse (resBody r) = JSON.Parsed v ->
  exists c,
    result (getManifest registry url ref mimeType) w = Some (Some c)
    /\ (forall d, header "docker-content-digest" (resHeaders r) = Some d ->
                  d <> "" -> contentDigest c = d)
    /\ (forall d, JS.truthy_opt (header "docker-content-digest" (resHeaders r)) = false ->
                  header "Docker-Content-Digest" (resHeaders r) = Some d ->
                  d <> "" -> contentDigest c = d)
    /\ (JS.truthy_opt (header "docker-content-digest" (resHeaders r)) = false ->
        JS.truthy_opt (header "Docker-Content-Digest" (resHeaders r)) = false ->
        contentDigest c = "sha256:" ++ SHA256.sha256_hex (JSON.stringify v)).
Proof.
  intros Hr Hs Hp. rewrite getManifest_result, Hr. unfold json_outcome.
  replace (299 <? statusCode r) with false by (symmetry; apply Z.ltb_ge; lia).
  rewrite Hp. simpl. eexists. split; [reflexivity|]. simpl. unfold digest_of.
  split; [|split].
  - intros d Hd Hne. rewrite Hd. apply String.eqb_neq in Hne.
    unfold JS.or_else, JS.truthy_opt, JS.truthy. rewrite Hne. simpl.
    rewrite Hne. reflexivity.
  - intros d H1 Hd Hne. unfold JS.or_else. rewrite H1, Hd.
    apply String.eqb_neq in Hne. unfold JS.truthy_opt, JS.truthy.
    rewrite Hne. reflexivity.
  - intros H1 H2. unfold JS.or_else. rewrite H1, H2. reflexivity.
Qed.

End ClientOutcomes.

Section ClientInstances.

Lemma getManifest_container_witness :
  exists c,
    result (getManifest (answering 200 (JSON.dq "{'a': 1}") []) "u"
                        (FeatureRef sample_ref) None) emptyWorld = Some (Some c)
    /\ canonicalId c = ref_resource (FeatureRef sample_ref) ++ "@" ++ contentDigest c.
Proof.
  eexists. split; [vm_compute; reflexivity|].
  apply (getManifest_container (answering 200 (JSON.dq "{'a': 1}") []) "u"
                               (FeatureRef sample_ref) None emptyWorld).
  vm_compute. reflexivity.
Defined.

Lemma getManifest_header_digest_witness :
  exists c,
    result (getManifest
              (answering 200 (JSON.dq "{'a': 1}")
                         [("docker-content-digest", "");
                          ("Docker-Content-Digest", "sha256:abc")])
              "u" (FeatureRef sample_ref) None) emptyWorld = Some (Some c)
    /\ contentDigest c = "sha256:abc".
Proof.
  destruct (getManifest_header_digest
              (answering 200 (JSON.dq "{'a': 1}")
                         [("docker-content-digest", "");
                          ("Docker-Content-Digest", "sha256:abc")])
              "u" (FeatureRef sample_ref) None emptyWorld
              {| resBody := JSON.dq "{'a': 1}"; statusCode := 200;
                 resHeaders := [("docker-content-digest", "");
                                ("Docker-Content-Digest", "sha256:abc")] |}
              (JSON.Object [("a", JSON.Number 1)])
              eq_refl ltac:(simpl; lia) ltac:(vm_compute; reflexivity))
    as (c & R & _ & H & _).
  exists c. split; [exact R|]. apply H; [reflexivity | reflexivity | discriminate].
Defined.

End ClientInstances.

Section FetchManifest.

Variable registry : HttpOptions -> AnyRef -> Answer.

(** X12: [fetchOCIManifestIfExists] only hands out dev-container manifests:
    every container it returns has a manifest object whose [config] is an
    object with [mediaType] 'application/vnd.devcontainers', was fetched
    from the manifest URL of the reference (or of the digest given), passed
    the registry guard, and has the reference's resource in its canonical
    id. *)
Theorem fetchOCIManifestIfExists_mediaType (ref : AnyRef)
        (manifestDigest : option string) (w : World) (c : ManifestContainer) :
  result (fetchOCIManifestIfExists registry ref manifestDigest) w = Some (Some c) ->
  config_mediaType (manifestObj c) = Some (JSON.Str "application/vnd.devcontainers")
  /\ (0 <= JS.indexOf (ref_registry ref) "."
      \/ JS.startsWith (ref_registry ref) "localhost" = true)
  /\ canonicalId c = ref_resource ref ++ "@" ++ contentDigest c
  /\ exists r,
       registry (json_request (manifest_url ref manifestDigest)
                              "application/vnd.oci.image.manifest.v1+json") ref
       = Responds r
       /\ statusCode r <= 299
       /\ JSON.parse (resBody r) = JSON.Parsed (manifestObj c).
Proof.
  unfold result, fetchOCIManifestIfExists.
  destruct ((JS.indexOf (ref_registry ref) "." <? 0)
            && negb (JS.startsWith (ref_registry ref) "localhost")) eqn:G.
  { unfold bind, write, ret. discriminate. }
  assert (Guard : 0 <= JS.indexOf (ref_registry ref) "."
                  \/ JS.startsWith (ref_registry ref) "localhost" = true).
  { apply andb_false_iff in G as [G|G].
    - left. apply Z.ltb_ge in G. lia.
    - right. now destruct (JS.startsWith (ref_registry ref) "localhost"). }
  fold (manifest_url ref manifestDigest).
  set (u := manifest_url ref manifestDigest).
  unfold bind at 1. unfold write at 1. unfold bind at 1.
  set (w1 := {| output := _; sent := sent w |}).
  pose proof (getManifest_inv registry u ref None w1) as I.
  unfold result in I.
  destruct (getManifest registry u ref None w1) as [[c'|] w2|e w2|w2];
    try discriminate.
  specialize (I c' eq_refl). destruct I as (I1 & _ & _ & I4).
  destruct (JSON.truthy (manifestObj c')); simpl negb; cbv iota;
    [|unfold ret; discriminate].
  unfold bind, get, ret, throw.
  destruct (manifestObj c') as [| b | n | s | a | o] eqn:O; try discriminate.
  destruct (JSON.lookup "config" o) as [[| b | n | s | a | cfg]|] eqn:C;
    try discriminate.
  destruct (JSON.lookup "mediaType" cfg) as [[| b | n | s | a | m]|] eqn:T;
    simpl; try discriminate.
  destruct (String.eqb_spec s DEVCONTAINER_MANIFEST_MEDIATYPE) as [S|S];
    simpl; try discriminate.
  intros E. inversion E; subst c; clear E. rewrite O. simpl.
  rewrite C, T, S. split; [reflexivity|]. split; [exact Guard|].
  split; [exact I1 | exact I4].
Qed.

End FetchManifest.

Lemma fetchOCIManifestIfExists_mediaType_witness :
  exists c,
    result (fetchOCIManifestIfExists
              (answering 200 (JSON.dq "{'config':{'mediaType':'application/vnd.devcontainers'}}") [])
              (FeatureRef sample_ref) None) emptyWorld = Some (Some c)
    /\ config_mediaType (manifestObj c)
       = Some (JSON.Str "application/vnd.devcontainers").
Proof.
  eexists. split; [vm_compute; reflexivity|].
  apply (fetchOCIManifestIfExists_mediaType
           (answering 200 (JSON.dq "{'config':{'mediaType':'application/vnd.devcontainers'}}") [])
           (FeatureRef sample_ref) None emptyWorld).
  vm_compute. reflexivity.
Defined.

(** ** More about tag listing and platform selection *)

Section ListingOutcomes.

Variable registry : HttpOptions -> AnyRef -> Answer.
Variable describe : Exception -> string.

(** The case analysis of [getPublishedVersions], leaf by leaf. *)
Ltac tags_cases ref sorted :=
  unfold getPublishedVersions, try_catch, bind, request, tags_request;
  destruct (registry _ (FeatureRef ref)) as [r| |reason]; simpl;
  [ destruct (statusCode r =? 404); simpl;
    [ | destruct (299 <? statusCode r); simpl;
        [ | unfold JSON_parse; destruct (JSON.parse (resBody r)) as [v| |]; simpl;
            [ destruct v as [| b | n | s | a | o]; simpl;
              destruct (negb match sorted with Some b0 => b0 | None => false end);
              simpl;
              try (destruct (JSON.lookup "tags" o) as [[| b | n | s | a | p]|];
                   simpl; try destruct (strings_of a); simpl)
            | | ] ] ]
  | | ].

Lemma getPublishedVersions_no_throw (ref : OCIRef.t) (sorted : option bool)
      (w : World) (e : Exception) (w' : World) :
  getPublishedVersions registry describe ref sorted w <> Throws e w'.
Proof. tags_cases ref sorted; discriminate. Qed.

Lemma getPublishedVersions_sent (ref : OCIRef.t) (sorted : option bool) (w : World) :
  sent (world_of (getPublishedVersions registry describe ref sorted w))
  = (sent w ++ [tags_request ref])%list.
Proof. tags_cases ref sorted; reflexivity. Qed.

Lemma getPublishedVersions_unanswered (ref : OCIRef.t) (sorted : option bool)
      (w : World) :
  registry (tags_request ref) (FeatureRef ref) = NoResponse
  \/ (exists reason, registry (tags_request ref) (FeatureRef ref) = Fails reason) ->
  result (getPublishedVersions registry describe ref sorted) w = Some None.
Proof.
  unfold result, getPublishedVersions, try_catch, bind, request, tags_request.
  intros [H|[reason H]]; rewrite H; reflexivity.
Qed.

(** X13: [getPublishedVersions] never throws: whatever the registry does,
    it sends exactly one request, for the tag list of the reference, and an
    unanswered or rejected request gives undefined. *)
Theorem getPublishedVersions_total (ref : OCIRef.t) (sorted : option bool)
        (w : World) :
  (forall e w', getPublishedVersions registry describe ref sorted w <> Throws e w')
  /\ sent (world_of (getPublishedVersions registry describe ref sorted w))
     = (sent w ++ [tags_request ref])%list
  /\ (registry (tags_request ref) (FeatureRef ref) = NoResponse
      \/ (exists reason, registry (tags_request ref) (FeatureRef ref) = Fails reason) ->
      result (getPublishedVersions registry describe ref sorted) w = Some None).
Proof.
  split; [intros e w'; apply getPublishedVersions_no_throw|].
  split; [apply getPublishedVersions_sent | apply getPublishedVersions_unanswered].
Qed.

(** An entry that [find] of the source returns is an entry of the index and
    passes the platform test. *)
Lemma find_platform_sound (wanted : PlatformInfo) (l : list JSON.value)
      (w w' : World) (m : JSON.value) :
  find_platform wanted l w = Returns (Some m) w' ->
  In m l /\ platform_matches wanted m = true.
Proof.
  induction l as [|x l IH]; simpl; [discriminate|].
  unfold bind, get, get_optional, ret, throw.
  unfold platform_matches, platform_field in *.
  destruct x as [| b | n | s | a | o]; simpl; try discriminate;
    try (intros H; destruct (IH H); auto).
  destruct (JSON.lookup "platform" o) as [[| b | n | s | a | p]|] eqn:P; simpl;
    try (intros H; destruct (IH H); auto).
  destruct (strict_eq (JSON.lookup "architecture" p) (arch wanted)
            && strict_eq (JSON.lookup "os" p) (os wanted)) eqn:T.
  - intros H. inversion H; subst. split; [now left|]. simpl. now rewrite P.
  - intros H. destruct (IH H); auto.
Qed.

(** X14: whatever [getImageIndexEntryForPlatform] returns is an entry of
    the index the registry sent, and its platform has exactly the mapped
    architecture and the mapped operating system (also when other entries
    are malformed). *)
Theorem getImageIndexEntryForPlatform_sound (url : string) (ref : AnyRef)
        (platformInfo : PlatformInfo) (mimeType : option string) (w : World)
        (m : JSON.value) :
  result (getImageIndexEntryForPlatform registry url ref platformInfo mimeType) w
  = Some (Some m) ->
  platform_matches {| arch := mapNodeArchitectureToGOARCH (arch platformInfo);
                      os := mapNodeOSToGOOS (os platformInfo) |} m = true
  /\ exists r entries,
       registry (json_request url
                   (JS.or_default mimeType "application/vnd.oci.image.index.v1+json"))
                ref = Responds r
       /\ statusCode r <= 299
       /\ index_entries (resBody r) = Some entries
       /\ In m entries.
Proof.
  unfold result, getImageIndexEntryForPlatform. unfold bind at 1.
  set (mime := JS.or_default mimeType "application/vnd.oci.image.index.v1+json").
  pose proof (getJsonWithMimeType_result registry url ref mime w) as J.
  unfold result in J.
  destruct (getJsonWithMimeType registry url ref mime w) as [[[v hs]|] w1|e w1|w1];
    try discriminate.
  unfold json_outcome in J.
  destruct (registry (json_request url mime) ref) as [r| |reason] eqn:R;
    try discriminate.
  destruct (Z.ltb_spec 299 (statusCode r)) as [L|L]; [discriminate|].
  destruct (JSON.parse (resBody r)) as [v'| |] eqn:P; try discriminate.
  inversion J; subst v' hs; clear J.
  destruct (JSON.truthy v); simpl negb; cbv iota;
    [|unfold bind, write, ret; discriminate].
  unfold bind at 1. unfold get, ret, throw.
  destruct v as [| b | n | s | a | o]; try discriminate.
  destruct (JSON.lookup "manifests" o) as [[| b | n | s | a | p]|] eqn:M;
    try discriminate.
  change (negb true) with false. cbv zeta. unfold bind. cbv beta iota.
  match goal with
  | |- context [find_platform ?p a w1] =>
      destruct (find_platform p a w1) as [[m'|] w2|e w2|w2] eqn:F
  end; try discriminate.
  intros E. inversion E; subst m'; clear E.
  destruct (find_platform_sound _ _ _ _ _ F) as [Hin Hm].
  split; [exact Hm|].
  exists r, a. unfold index_entries. rewrite P, M. auto.
Qed.

(** X15: unlike its siblings [getImageIndexEntryForPlatform] has no
    [try]: a body that parses to null, false, 0 or the empty string gives
    undefined, but any other body without an array under [manifests] makes
    it throw a TypeError. *)
Theorem getImageIndexEntryForPlatform_not_an_index (url : string) (ref : AnyRef)
        (platformInfo : PlatformInfo) (mimeType : option string) (w : World)
        (r : HttpResponse) (v : JSON.value) :
  registry (json_request url
              (JS.or_default mimeType "application/vnd.oci.image.index.v1+json"))
           ref = Responds r ->
  statusCode r <= 299 ->
  JSON.parse (resBody r) = JSON.Parsed v ->
  (JSON.truthy v = false ->
   result (getImageIndexEntryForPlatform registry url ref platformInfo mimeType) w
   = Some None)
  /\ (JSON.truthy v = true -> manifests_of v = None ->
      exists w',
        getImageIndexEntryForPlatform registry url ref platformInfo mimeType w
        = Throws TypeError w').
Proof.
  intros Hr Hs Hp.
  destruct (getJsonWithMimeType_parsed registry url ref _ w r v Hr Hs Hp) as (w1 & E).
  split.
  - intros T. unfold result, getImageIndexEntryForPlatform. unfold bind at 1.
    rewrite E, T. reflexivity.
  - intros T M. unfold getImageIndexEntryForPlatform. unfold bind at 1.
    rewrite E, T. change (negb true) with false. cbv iota zeta.
    unfold bind, get, ret, throw. unfold manifests_of in M.
    destruct v as [| b | n | s | a | o]; try discriminate;
      try (eexists; reflexivity).
    destruct (JSON.lookup "manifests" o) as [[| b | n | s | a | p]|];
      try discriminate; eexists; reflexivity.
Qed.

End ListingOutcomes.


Lemma getImageIndexEntryForPlatform_sound_witness :
  platform_matches {| arch := "amd64"; os := "windows" |}
    (JSON.Object
       [("digest", JSON.Str "d2");
        ("platform", JSON.Object [("architecture", JSON.Str "amd64");
                                  ("os", JSON.Str "windows")])]) = true.
Proof.
  refine (proj1 (getImageIndexEntryForPlatform_sound
                   (answering 200 (JSON.dq "{'manifests':[{'digest':'d0'},{'platform':7},{'digest':'d2','platform':{'architecture':'amd64','os':'windows'}}]}") [])
                   "https://ghcr.io/v2/org/feat/manifests/latest"
                   (FeatureRef sample_ref) {| arch := "x64"; os := "win32" |} None
                   emptyWorld _ _)).
  vm_compute. reflexivity.
Defined.

Lemma getImageIndexEntryForPlatform_not_an_index_witness :
  exists w',
    getImageIndexEntryForPlatform
      (answering 200 (JSON.dq "{'schemaVersion':2,'layers':[]}") [])
      "https://ghcr.io/v2/org/feat/manifests/latest"
      (FeatureRef sample_ref) {| arch := "x64"; os := "linux" |} None emptyWorld
    = Throws TypeError w'.
Proof.
  refine (proj2 (getImageIndexEntryForPlatform_not_an_index
                   (answering 200 (JSON.dq "{'schemaVersion':2,'layers':[]}") [])
                   "https://ghcr.io/v2/org/feat/manifests/latest"
                   (FeatureRef sample_ref) {| arch := "x64"; os := "linux" |} None
                   emptyWorld
                   {| resBody := JSON.dq "{'schemaVersion':2,'layers':[]}";
                      statusCode := 200; resHeaders := [] |}
                   (JSON.Object [("schemaVersion", JSON.Number 2);
                                 ("layers", JSON.Array [])])
                   _ _ _) _ _).
  all: vm_compute; try reflexivity; discriminate.
Defined.

(** ** The order of the sorted tag list *)

Section SortFacts.

Lemma code_inj (c d : ascii) : JS.code c = JS.code d -> c = d.
Proof.
  unfold JS.code. intros H.
  rewrite <- (ascii_N_embedding c), <- (ascii_N_embedding d). now rewrite H.
Qed.

Lemma string_lt_irrefl (a : string) : Semver.string_lt a a = false.
Proof.
  induction a as [|c a IH]; simpl; [reflexivity|].
  now rewrite N.ltb_irrefl.
Qed.

Lemma string_lt_total (a b : string) :
  Semver.string_lt a b = false -> a <> b -> Semver.string_lt b a = true.
Proof.
  revert b. induction a as [|c a IH]; intros [|d b]; simpl; try congruence.
  destruct (N.ltb_spec (JS.code c) (JS.code d)) as [L|L]; [discriminate|].
  destruct (N.ltb_spec (JS.code d) (JS.code c)) as [L'|L']; [reflexivity|].
  intros H N. apply IH; [exact H|].
  intros ->. apply N. f_equal. apply code_inj. lia.
Qed.

Lemma string_lt_asym (a b : string) :
  Semver.string_lt a b = true -> Semver.string_lt b a = false.
Proof.
  revert b. induction a as [|c a IH]; intros [|d b]; simpl; try congruence.
  destruct (N.ltb_spec (JS.code c) (JS.code d)) as [L|L].
  - intros _. destruct (N.ltb_spec (JS.code d) (JS.code c)); [lia|reflexivity].
  - destruct (N.ltb_spec (JS.code d) (JS.code c)) as [L'|L']; [discriminate|].
    apply IH.
Qed.

Lemma string_lt_trans (a b c : string) :
  Semver.string_lt a b = true -> Semver.string_lt b c = true ->
  Semver.string_lt a c = true.
Proof.
  revert b c. induction a as [|x a IH]; intros [|y b] [|z c]; simpl;
    try congruence.
  destruct (N.ltb_spec (JS.code x) (JS.code y)) as [L1|L1];
    destruct (N.ltb_spec (JS.code y) (JS.code x)) as [L1'|L1'];
    destruct (N.ltb_spec (JS.code y) (JS.code z)) as [L2|L2];
    destruct (N.ltb_spec (JS.code z) (JS.code y)) as [L2'|L2'];
    destruct (N.ltb_spec (JS.code x) (JS.code z)) as [L3|L3];
    destruct (N.ltb_spec (JS.code z) (JS.code x)) as [L3'|L3'];
    try lia; try congruence.
  apply IH.
Qed.

(** What the comparator decides, case by case. *)
Lemma in_order_spec (a b : string) :
  in_order a b <->
  (test Semver.numeric a = true /\ test Semver.numeric b = true
   /\ Semver.toNumber a <= Semver.toNumber b)
  \/ (test Semver.numeric a = true /\ test Semver.numeric b = false)
  \/ (test Semver.numeric a = false /\ test Semver.numeric b = false
      /\ (a = b \/ Semver.string_lt a b = true)).
Proof.
  unfold in_order, Semver.compareIdentifiers.
  destruct (test Semver.numeric a) eqn:A, (test Semver.numeric b) eqn:B; simpl.
  - destruct (Z.eqb_spec (Semver.toNumber a) (Semver.toNumber b)) as [E|E];
      [|destruct (Z.ltb_spec (Semver.toNumber a) (Semver.toNumber b)) as [L|L]];
      (split; [intros HO; try lia; left; repeat split; lia|]);
      intros [(_ & _ & HO)|[(_ & HO)|(HO & _)]]; try discriminate; lia.
  - destruct (String.eqb_spec a b) as [E|E]; [congruence|].
    split; [intros _; right; left; auto|lia].
  - destruct (String.eqb_spec a b) as [E|E]; [congruence|].
    split; [lia|].
    intros [(H & _)|[(H & _)|(_ & H & _)]]; discriminate.
  - destruct (String.eqb_spec a b) as [E|E].
    + split; [intros _; right; right; auto|lia].
    + destruct (Semver.string_lt a b) eqn:L.
      * split; [intros _; right; right; auto|lia].
      * split; [lia|].
        intros [(H & _)|[(H & _)|(_ & _ & [H|H])]]; congruence.
Qed.

Lemma in_order_total (a b : string) : in_order a b \/ in_order b a.
Proof.
  rewrite !in_order_spec.
  destruct (test Semver.numeric a) eqn:A, (test Semver.numeric b) eqn:B.
  - destruct (Z.le_ge_cases (Semver.toNumber a) (Semver.toNumber b));
      [left|right]; left; auto.
  - left. right. left. auto.
  - right. right. left. auto.
  - destruct (String.eqb_spec a b) as [E|E]; [left; right; right; auto|].
    destruct (Semver.string_lt a b) eqn:L; [left; right; right; auto|].
    right. right. right. repeat split; auto. right.
    now apply string_lt_total.
Qed.

Lemma in_order_trans (a b c : string) :
  in_order a b -> in_order b c -> in_order a c.
Proof.
  rewrite !in_order_spec.
  intros [(A & B & H1)|[(A & B)|(A & B & H1)]]
         [(B' & C & H2)|[(B' & C)|(B' & C & H2)]]; try congruence.
  - left. repeat split; auto. lia.
  - right. left. auto.
  - right. left. auto.
  - right. right. repeat split; auto.
    destruct H1 as [->|H1]; [exact H2|].
    destruct H2 as [<-|H2]; [now right|].
    right. eapply string_lt_trans; eauto.
Qed.

Lemma sort_insert_perm {A : Type} (cmp : A -> A -> Z) (x : A) (l : list A) :
  Permutation (sort_insert cmp x l) (x :: l).
Proof.
  induction l as [|y l IH]; simpl; [reflexivity|].
  destruct (0 <? cmp x y); [|reflexivity].
  rewrite IH. apply perm_swap.
Qed.

Lemma sort_perm {A : Type} (cmp : A -> A -> Z) (l : list A) :
  Permutation (sort cmp l) l.
Proof.
  induction l as [|x l IH]; simpl; [reflexivity|].
  rewrite sort_insert_perm. now constructor.
Qed.

Lemma sort_insert_sorted (x : string) (l : list string) :
  Sorted in_order l -> Sorted in_order (sort_insert Semver.compareIdentifiers x l).
Proof.
  induction l as [|y l IH]; simpl; intros S; [repeat constructor|].
  destruct (Z.ltb_spec 0 (Semver.compareIdentifiers x y)) as [L|L].
  - inversion S as [|? ? S' Hd]; subst. constructor; [now apply IH|].
    destruct l as [|z l]; simpl.
    + constructor. destruct (in_order_total y x) as [H|H]; [exact H|].
      unfold in_order in H. lia.
    + destruct (0 <? Semver.compareIdentifiers x z).
      * constructor. now inversion Hd.
      * constructor. destruct (in_order_total y x) as [H|H]; [exact H|].
        unfold in_order in H. lia.
  - constructor; [exact S|]. constructor. exact L.
Qed.

Lemma sort_sorted (l : list string) :
  Sorted in_order (sort Semver.compareIdentifiers l).
Proof.
  induction l as [|x l IH]; simpl; [constructor|].
  now apply sort_insert_sorted.
Qed.

Lemma sort_strongly_sorted (l : list string) :
  StronglySorted in_order (sort Semver.compareIdentifiers l).
Proof.
  apply Sorted_StronglySorted; [|apply sort_sorted].
  intros a b c. apply in_order_trans.
Qed.

Lemma includes_In (l : list string) (x : string) :
  JS.includes l x = true <-> In x l.
Proof.
  unfold JS.includes. rewrite existsb_exists. split.
  - intros (y & Hy & E). apply String.eqb_eq in E. now subst.
  - intros H. exists x. split; [exact H|apply String.eqb_refl].
Qed.

Lemma other_tags_In (tags : list string) (x : string) :
  In x (other_tags tags) <-> In x tags /\ x <> "latest".
Proof.
  unfold other_tags. rewrite filter_In.
  destruct (String.eqb_spec x "latest"); simpl; split; intros [H1 H2];
    split; auto; congruence.
Qed.

End SortFacts.

Section SortedTags.

Variable registry : HttpOptions -> AnyRef -> Answer.
Variable describe : Exception -> string.

(** X16: asked to sort, [getPublishedVersions] returns 'latest' first and
    once, exactly when the registry lists it, followed by the other tags:
    each as often as the registry lists it (duplicates are kept), and every
    tag in an order the comparator accepts against every later one. *)
Theorem getPublishedVersions_sorted_order (ref : OCIRef.t) (w : World)
        (r : HttpResponse) (tags : list string) :
  registry (tags_request ref) (FeatureRef ref) = Responds r ->
  statusCode r <> 404 -> statusCode r <= 299 ->
  tag_list (resBody r) = Some tags ->
  exists rest,
    result (getPublishedVersions registry describe ref (Some true)) w
    = Some (Some ((if JS.includes tags "latest" then ["latest"] else []) ++ rest)%list)
    /\ (JS.includes tags "latest" = true <-> In "latest" tags)
    /\ Permutation rest (other_tags tags)
    /\ ~ In "latest" rest
    /\ StronglySorted in_order rest.
Proof.
  intros Hr H404 H299 Ht.
  exists (sort Semver.compareIdentifiers (other_tags tags)).
  split.
  { rewrite (getPublishedVersions_tags registry describe ref (Some true) w r tags
               Hr H404 H299 Ht).
    unfold effective, latest_first. fold (other_tags tags).
    destruct (JS.includes tags "latest"); reflexivity. }
  split; [apply includes_In|].
  split; [apply sort_perm|].
  split; [|apply sort_strongly_sorted].
  intros H. apply (Permutation_in _ (sort_perm _ _)) in H.
  apply other_tags_In in H. now destruct H.
Qed.

End SortedTags.

Lemma getPublishedVersions_sorted_order_witness :
  exists rest,
    result (getPublishedVersions
              (answering 200 (JSON.dq "{'name':'org/feat','tags':['2','1.2.0','latest','10','2']}") [])
              plain_describe sample_ref (Some true)) emptyWorld
    = Some (Some ("latest" :: rest))
    /\ StronglySorted in_order rest.
Proof.
  destruct (getPublishedVersions_sorted_order
              (answering 200 (JSON.dq "{'name':'org/feat','tags':['2','1.2.0','latest','10','2']}") [])
              plain_describe sample_ref emptyWorld
              {| resBody := JSON.dq "{'name':'org/feat','tags':['2','1.2.0','latest','10','2']}";
                 statusCode := 200; resHeaders := [] |}
              ["2"; "1.2.0"; "latest"; "10"; "2"])
    as (rest & E & _ & _ & _ & S).
  - vm_compute. reflexivity.
  - simpl. lia.
  - simpl. lia.
  - vm_compute. reflexivity.
  - exists rest. split; [exact E|exact S].
Defined.

(** ** The extraction callback of [getBlob] *)

Section BlobFilter.

Lemma prefix_spec (f s : string) :
  String.prefix f s = true <-> exists post, s = f ++ post.
Proof.
  revert s. induction f as [|c f IH]; intros s.
  - split; [intros _; now exists s|intros _; now destruct s].
  - destruct s as [|d s]; simpl.
    + split; [discriminate|intros [post E]; discriminate].
    + destruct (Ascii.ascii_dec c d) as [->|N].
      * rewrite IH. split; intros [post E]; exists post; [now rewrite E|].
        now inversion E.
      * split; [discriminate|]. intros [post E]. inversion E. congruence.
Qed.

Lemma indexOf_string_from_bound (s f : string) (i : Z) :
  0 <= i -> indexOf_string_from s f i = -1 \/ i <= indexOf_string_from s f i.
Proof.
  revert i. induction s as [|c s IH]; intros i Hi; cbn [indexOf_string_from].
  - destruct (String.prefix f ""); lia.
  - destruct (String.prefix f (String c s)); [lia|].
    destruct (IH (i + 1)); lia.
Qed.

Lemma indexOf_string_from_found (s f : string) (i : Z) :
  0 <= i -> (indexOf_string_from s f i <> -1 <-> contains s f).
Proof.
  revert i. induction s as [|c s IH]; intros i Hi; cbn [indexOf_string_from].
  - destruct (String.prefix f "") eqn:P.
    + split; [|lia]. intros _. apply prefix_spec in P as [post E].
      exists "", post. exact E.
    + split; [lia|]. intros (pre & post & E).
      destruct pre; [|discriminate]. simpl in E.
      assert (String.prefix f "" = true) by (apply prefix_spec; now exists post).
      congruence.
  - destruct (String.prefix f (String c s)) eqn:P.
    + split; [|lia]. intros _. apply prefix_spec in P as [post E].
      exists "", post. exact E.
    + rewrite (IH (i + 1)) by lia. split.
      * intros (pre & post & E). exists (String c pre), post. simpl. now rewrite E.
      * intros (pre & post & E). destruct pre as [|d pre].
        -- simpl in E.
           assert (String.prefix f (String c s) = true)
             by (apply prefix_spec; now exists post).
           congruence.
        -- simpl in E. inversion E. now exists pre, post.
Qed.

(** [path.indexOf(f) !== -1] says that [f] occurs in [path]. *)
Lemma indexOf_string_found (s f : string) :
  indexOf_string s f <> -1 <-> contains s f.
Proof. apply indexOf_string_from_found. lia. Qed.

Lemma ignored_path_spec (ignored : list string) (path : string) :
  ignored_path ignored path = true <-> exists f, In f ignored /\ contains path f.
Proof.
  unfold ignored_path. rewrite existsb_exists.
  split; intros (f & Hin & H); exists f; (split; [exact Hin|]).
  - apply indexOf_string_found. apply negb_true_iff, Z.eqb_neq in H. exact H.
  - apply negb_true_iff, Z.eqb_neq. now apply indexOf_string_found.
Qed.

Lemma getBlob_filter_returns (ignored : list string) (path : string)
      (stat : FileStat) (files : list string) (w : World) :
  exists msg,
    getBlob_filter ignored path stat files w
    = Returns (negb (ignored_path ignored path),
               if recorded ignored (path, stat) then (files ++ [path])%list
               else files)
              {| output := (output w ++ [{| text := msg; level := Trace |}])%list;
                 sent := sent w |}.
Proof.
  unfold getBlob_filter, recorded, bind, write, ret. simpl.
  destruct (ignored_path ignored path); simpl; [eexists; reflexivity|].
  destruct (String.eqb (stat_type stat) "File"); eexists; reflexivity.
Qed.

(** X17: the extraction callback of [getBlob] skips an archive entry
    exactly when one of the ignored strings occurs somewhere in its path (an
    empty ignored string therefore skips every entry); it appends the path
    to [files] exactly when the entry is kept and its type is 'File', writes
    one trace line either way, and never throws. *)
Theorem getBlob_filter_decision (ignored : list string) (path : string)
        (stat : FileStat) (files : list string) (w : World) :
  exists keep files' msg,
    getBlob_filter ignored path stat files w
    = Returns (keep, files')
              {| output := (output w ++ [{| text := msg; level := Trace |}])%list;
                 sent := sent w |}
    /\ (keep = false <-> exists f, In f ignored /\ contains path f)
    /\ (In "" ignored -> keep = false)
    /\ files' = (if keep && String.eqb (stat_type stat) "File"
                 then (files ++ [path])%list else files).
Proof.
  destruct (getBlob_filter_returns ignored path stat files w) as [msg E].
  exists (negb (ignored_path ignored path)),
         (if recorded ignored (path, stat) then (files ++ [path])%list else files),
         msg.
  split; [exact E|]. split; [|split].
  - rewrite negb_false_iff. apply ignored_path_spec.
  - intros H. rewrite negb_false_iff. apply ignored_path_spec.
    exists "". split; [exact H|]. exists "", path. reflexivity.
  - reflexivity.
Qed.

(** X18: called on the entries of an archive one after the other, the
    callback leaves in [files] what was there before, followed by the paths
    of the kept entries of type 'File' in archive order; it answers each
    entry by whether no ignored string occurs in its path, and writes one
    trace line per entry. *)
Theorem getBlob_filter_collects (ignored : list string)
        (entries : list (string * FileStat)) (files : list string) (w : World) :
  exists lines,
    getBlob_filter_calls ignored entries files w
    = Returns (map (fun e => negb (ignored_path ignored (fst e))) entries,
               (files ++ map fst (filter (recorded ignored) entries))%list)
              {| output := (output w ++ lines)%list; sent := sent w |}
    /\ List.length lines = List.length entries
    /\ Forall (fun e => level e = Trace) lines.
Proof.
  revert files w. induction entries as [|[path stat] entries IH]; intros files w.
  - exists []. simpl. unfold ret. rewrite !app_nil_r. destruct w. auto.
  - simpl getBlob_filter_calls. unfold bind at 1.
    destruct (getBlob_filter_returns ignored path stat files w) as [msg E].
    rewrite E. unfold bind at 1. cbn [fst snd].
    match goal with
    | |- context [getBlob_filter_calls ignored entries ?f ?w1] =>
        destruct (IH f w1) as (lines & E' & Hl & Ht); rewrite E'
    end.
    exists ({| text := msg; level := Trace |} :: lines).
    unfold ret. cbn [fst snd output sent map filter List.length].
    split; [|split; [now rewrite Hl|now constructor]].
    f_equal.
    + f_equal. destruct (recorded ignored (path, stat)); cbn [map fst].
      * now rewrite <- app_assoc.
      * reflexivity.
    + f_equal. now rewrite <- app_assoc.
Qed.

End BlobFilter.

(** ** The box of [encloseStringInBox] *)

Section BoxFacts.

Lemma wide_split_nonempty (sep : N) (s : Wide.t) : Wide.split sep s <> [].
Proof.
  induction s as [|c s IH]; simpl; [discriminate|].
  destruct (c =? sep)%N; [discriminate|].
  destruct (Wide.split sep s); discriminate.
Qed.

Lemma wide_split_no_sep (sep : N) (s : Wide.t) :
  Forall (fun l => ~ In sep l) (Wide.split sep s).
Proof.
  induction s as [|c s IH]; simpl; [constructor; [intros []|constructor]|].
  destruct (N.eqb_spec c sep) as [E|E]; [constructor; [intros []|exact IH]|].
  destruct (Wide.split sep s) as [|h rest] eqn:S;
    [exfalso; now apply (wide_split_nonempty sep s)|].
  apply Forall_cons_iff in IH as [Hh Hr]. constructor; [|exact Hr].
  intros [H|H]; [congruence|now apply Hh].
Qed.

Lemma wide_split_single (sep : N) (l : Wide.t) :
  ~ In sep l -> Wide.split sep l = [l].
Proof.
  induction l as [|c l IH]; simpl; [reflexivity|]. intros H.
  destruct (N.eqb_spec c sep) as [E|E]; [exfalso; apply H; now left|].
  rewrite IH; [reflexivity|]. intros H'. apply H. now right.
Qed.

Lemma wide_split_app (sep : N) (l s : Wide.t) :
  ~ In sep l -> Wide.split sep (l ++ sep :: s)%list = l :: Wide.split sep s.
Proof.
  induction l as [|c l IH]; simpl; intros H.
  - now rewrite N.eqb_refl.
  - destruct (N.eqb_spec c sep) as [E|E]; [exfalso; apply H; now left|].
    rewrite IH; [reflexivity|]. intros H'. apply H. now right.
Qed.

(** Joining rows that hold no line feed and splitting again gives the rows. *)
Lemma wide_split_join (sep : N) (rows : list Wide.t) :
  rows <> [] -> Forall (fun l => ~ In sep l) rows ->
  Wide.split sep (Wide.join [sep] rows) = rows.
Proof.
  induction rows as [|x rows IH]; [congruence|]. intros _ F.
  apply Forall_cons_iff in F as [Hx Hr].
  destruct rows as [|y rows]; [now apply wide_split_single|].
  change (Wide.join [sep] (x :: y :: rows))
    with (x ++ sep :: Wide.join [sep] (y :: rows))%list.
  rewrite wide_split_app by exact Hx.
  rewrite IH; [reflexivity|discriminate|exact Hr].
Qed.

Lemma fold_left_max_spec (xs : list Z) (x : Z) :
  Forall (fun y => y <= fold_left Z.max xs x) (x :: xs)
  /\ In (fold_left Z.max xs x) (x :: xs).
Proof.
  revert x. induction xs as [|y xs IH]; intros x; simpl.
  - split; [constructor; [lia|constructor]|now left].
  - destruct (IH (Z.max x y)) as [F I]. apply Forall_cons_iff in F as [F1 F2].
    split.
    + constructor; [lia|]. constructor; [lia|exact F2].
    + destruct I as [I|I]; [|right; now right].
      destruct (Z.max_spec x y) as [[_ E]|[_ E]]; rewrite E in I |- *;
        [right; now left|now left].
Qed.

Lemma concat_repeat_single {A : Type} (c : A) (n : nat) :
  List.concat (List.repeat [c] n) = List.repeat c n.
Proof. induction n as [|n IH]; simpl; [reflexivity|now rewrite IH]. Qed.

Lemma wide_len_app (a b : Wide.t) :
  Wide.len (a ++ b)%list = Wide.len a + Wide.len b.
Proof. unfold Wide.len. rewrite length_app. lia. Qed.

Lemma wide_len_repeat (c : N) (n : Z) :
  0 <= n -> Wide.len (List.repeat c (Z.to_nat n)) = n.
Proof. intros H. unfold Wide.len. rewrite repeat_length. lia. Qed.

Lemma not_in_repeat (sep c : N) (n : nat) : c <> sep -> ~ In sep (List.repeat c n).
Proof. intros H I. apply repeat_spec in I. congruence. Qed.

(** [Math.max] over the lengths of the lines of a text. *)
Lemma Math_max_lines (lines : list Wide.t) :
  lines <> [] ->
  exists w,
    Wide.Math_max (map Wide.len lines) = Wide.Int w
    /\ 0 <= w
    /\ Forall (fun l => Wide.len l <= w) lines
    /\ Exists (fun l => Wide.len l = w) lines.
Proof.
  destruct lines as [|l0 ls]; [congruence|]. intros _.
  exists (fold_left Z.max (map Wide.len ls) (Wide.len l0)).
  destruct (fold_left_max_spec (map Wide.len ls) (Wide.len l0)) as [Fw Iw].
  change (Wide.len l0 :: map Wide.len ls) with (map Wide.len (l0 :: ls)) in Fw, Iw.
  split; [reflexivity|]. split; [|split].
  - rewrite Forall_forall in Fw. pose proof (Fw _ (or_introl eq_refl)) as F1.
    pose proof (Nat2Z.is_nonneg (List.length l0)) as P.
    change (Z.of_nat (List.length l0)) with (Wide.len l0) in P.
    apply Z.le_trans with (Wide.len l0); [exact P|exact F1].
  - apply Forall_forall. intros l Hl. rewrite Forall_forall in Fw.
    apply Fw. now apply in_map.
  - apply Exists_exists. apply in_map_iff in Iw as (l & E & Hl). now exists l.
Qed.

End BoxFacts.

(** A row built from spaces, box glyphs and a line of the text holds no
    line feed. *)
Ltac no_line_feed :=
  let H := fresh "H" in
  rewrite ?in_app_iff; intros H; unfold spaces in H;
  repeat (destruct H as [H|H]);
  try (apply repeat_spec in H); try discriminate; try contradiction.

(** X19: for an indent of zero or more, [encloseStringInBox] draws a
    rectangle: one row per line of the text between a top and a bottom row,
    every row of the same length (indent, width of the widest line, and two
    for the sides), and each line of the text stands in its row after the
    indent and the left side, padded with spaces up to the right side.  A
    negative indent is a RangeError. *)
Theorem encloseStringInBox_rectangle (str : Wide.t) (indent : option Z) :
  let i := match indent with Some i => i | None => 30 end in
  (i < 0 -> encloseStringInBox str indent = Wide.RangeError)
  /\ (0 <= i ->
      exists rows w,
        encloseStringInBox str indent = Wide.Value (Wide.join [10%N] rows)
        /\ Wide.split 10 (Wide.join [10%N] rows) = rows
        /\ List.length rows = (List.length (Wide.split 10 str) + 2)%nat
        /\ Forall (fun r => Wide.len r = i + w + 2) rows
        /\ Forall (fun l => Wide.len l <= w) (Wide.split 10 str)
        /\ Exists (fun l => Wide.len l = w) (Wide.split 10 str)
        /\ (forall k l, nth_error (Wide.split 10 str) k = Some l ->
              nth_error rows (S k)
              = Some (spaces i ++ [0x2502%N] ++ l ++ spaces (w - Wide.len l)
                               ++ [0x2502%N])%list)).
Proof.
  intros i. unfold encloseStringInBox. fold i.
  pose proof (wide_split_no_sep 10 str) as NS.
  destruct (Math_max_lines (Wide.split 10 str) (wide_split_nonempty 10 str))
    as (w & Ew & W0 & Fl & Xl).
  rewrite Ew.
  set (lines := Wide.split 10 str) in *.
  unfold Wide.repeat.
  replace (w <? 0) with false by (symmetry; apply Z.ltb_ge; lia).
  split.
  - intros Hi. replace (i <? 0) with true by (symmetry; apply Z.ltb_lt; lia).
    reflexivity.
  - intros Hi. replace (i <? 0) with false by (symmetry; apply Z.ltb_ge; lia).
    cbv iota.
    set (bar := List.repeat 0x2500%N (Z.to_nat w)).
    set (rows :=
           map (fun t => (spaces i ++ t)%list)
               (([0x250C%N] ++ bar ++ [0x2510%N])%list
                  :: map (fun l => ([0x2502%N] ++ Wide.padEnd l (Wide.Int w)
                                              ++ [0x2502%N])%list) lines
                  ++ [([0x2514%N] ++ bar ++ [0x2518%N])%list])%list).
    exists rows, w.
    split;
      [rewrite (concat_repeat_single 32%N), (concat_repeat_single 0x2500%N);
       reflexivity|].
    assert (Hrows : Forall (fun r => ~ In 10%N r /\ Wide.len r = i + w + 2) rows).
    { unfold rows. apply Forall_map. constructor; [|apply Forall_app; split].
      - split; [no_line_feed|].
        rewrite !wide_len_app. unfold spaces, bar.
        rewrite !wide_len_repeat by lia.
        change (Wide.len [0x250C%N]) with 1. change (Wide.len [0x2510%N]) with 1.
        lia.
      - apply Forall_map. apply Forall_forall. intros l Hl.
        rewrite Forall_forall in NS, Fl.
        specialize (NS l Hl). specialize (Fl l Hl). cbv beta in NS, Fl.
        unfold Wide.padEnd. split; [no_line_feed|].
        rewrite !wide_len_app. unfold spaces.
        rewrite !wide_len_repeat by lia.
        change (Wide.len [0x2502%N]) with 1. lia.
      - constructor; [|constructor]. split; [no_line_feed|].
        rewrite !wide_len_app. unfold spaces, bar.
        rewrite !wide_len_repeat by lia.
        change (Wide.len [0x2514%N]) with 1. change (Wide.len [0x2518%N]) with 1.
        lia. }
    split.
    { apply wide_split_join.
      - unfold rows. simpl. discriminate.
      - eapply Forall_impl; [|exact Hrows]. now intros r [H _]. }
    split.
    { unfold rows. rewrite length_map. cbn [List.length].
      rewrite length_app, length_map. simpl. lia. }
    split; [eapply Forall_impl; [|exact Hrows]; now intros r [_ H]|].
    split; [exact Fl|].
    split; [exact Xl|].
    intros k l Hk. unfold rows. cbn [map nth_error].
    rewrite nth_error_map, nth_error_app1
      by (rewrite length_map; apply nth_error_Some; congruence).
    rewrite nth_error_map, Hk. cbn [option_map]. unfold Wide.padEnd, spaces.
    now rewrite <- (app_assoc l).
Qed.

Lemma encloseStringInBox_rectangle_witness :
  exists rows w,
    encloseStringInBox (Wide.of_string "ab" ++ [10%N] ++ Wide.of_string "{}")%list
                       (Some 4)
    = Wide.Value (Wide.join [10%N] rows)
    /\ Forall (fun r => Wide.len r = 4 + w + 2) rows.
Proof.
  destruct (proj2 (encloseStringInBox_rectangle
                     (Wide.of_string "ab" ++ [10%N] ++ Wide.of_string "{}")%list
                     (Some 4)))
    as (rows & w & E & _ & _ & F & _).
  - lia.
  - exists rows, w. split; [exact E|exact F].
Defined.

Lemma getJsonWithMimeType_total_witness :
  result (getJsonWithMimeType silent "https://ghcr.io/v2/org/feat/manifests/latest"
            (FeatureRef sample_ref) "application/vnd.oci.image.manifest.v1+json")
         emptyWorld
  = Some None.
Proof.
  refine (proj2 (proj2 (getJsonWithMimeType_total silent _ _ _ emptyWorld)) _).
  left. reflexivity.
Defined.

Lemma getPublishedVersions_total_witness :
  result (getPublishedVersions silent plain_describe sample_ref (Some true)) emptyWorld
  = Some None.
Proof.
  refine (proj2 (proj2 (getPublishedVersions_total silent plain_describe sample_ref
                          (Some true) emptyWorld)) _).
  left. reflexivity.
Defined.

Lemma getBlob_filter_decision_witness :
  exists keep files' msg,
    getBlob_filter ["README.md"; ""] "./install.sh" {| stat_type := "File" |} ["./a"]
                   emptyWorld
    = Returns (keep, files')
              {| output := [{| text := msg; level := Trace |}]; sent := [] |}
    /\ keep = false.
Proof.
  destruct (getBlob_filter_decision ["README.md"; ""] "./install.sh"
              {| stat_type := "File" |} ["./a"] emptyWorld)
    as (keep & files' & msg & E & _ & K & _).
  exists keep, files', msg. split; [exact E|].
  apply K. simpl. auto.
Defined.

(** ** References and the case of the input *)

(** X20: [getRef] does not tell capitals from small letters: two inputs
    with the same lower case give the same result (the same reference, or
    undefined for both), whatever was logged before; in particular an input
    and its lower case do. *)
Theorem getRef_ignores_case (a b : string) (w w' : World) :
  JS.toLowerCase a = JS.toLowerCase b ->
  result (getRef a) w = result (getRef b) w'
  /\ result (getRef (JS.toLowerCase a)) w = result (getRef a) w.
Proof.
  intros E. rewrite !getRef_result. unfold getRef_value.
  rewrite E. split; [reflexivity|].
  now rewrite (lowercase_fixed _ (lowercase_toLowerCase b)).
Qed.

Lemma getRef_ignores_case_witness :
  result (getRef "GHCR.io/Org/Feat:V1") emptyWorld
  = result (getRef "ghcr.io/org/feat:v1") emptyWorld.
Proof.
  refine (proj1 (getRef_ignores_case "GHCR.io/Org/Feat:V1" "ghcr.io/org/feat:v1"
                   emptyWorld emptyWorld _)).
  vm_compute. reflexivity.
Defined.
